(** * LabHoney: a shallow embedding of [handlers.py] and [honeypot.py]

    The honeypot is a small asyncio program: listeners accept TCP
    connections, a per-connection supervisor ([client_connected]) runs one
    of three protocol handlers, and every exchanged chunk is turned into a
    record by [log_interaction].

    Python values are embedded as the inductive [pyval], dictionaries as
    [gmap string pyval], byte strings as [list byte] and text as a list of
    Unicode code points.  Coroutines become computations in a state and
    exception monad over a [world] that holds the peer's script, the
    behaviour of the operating system, and the trace of effects so far. *)

From Stdlib Require Import ZArith NArith List Ascii String Lia.
From Stdlib.Strings Require Import Byte.
From stdpp Require Import gmap strings list fin_maps pretty.

Local Open Scope N_scope.
Set Warnings "-register-all".

(** ** Bytes and text *)

(** A Python [bytes] object. *)
Abbreviation bytes := (list byte).

(** A Python [str]: a sequence of Unicode code points. *)
Abbreviation str := (list N).

(** A source literal made of ASCII characters, as a [str]. *)
Definition lit (s : string) : str :=
  List.map N_of_ascii (list_ascii_of_string s).

(** A source literal [b"..."]. *)
Definition blit (s : string) : bytes := list_byte_of_string s.

Definition CR : ascii := "013"%char.
Definition LF : ascii := "010"%char.
Definition CRLF : string := String CR (String LF EmptyString).

Definition byte_of_N (n : N) : byte :=
  match Byte.of_N (n mod 256) with
  | Some b => b
  | None => x00
  end.

(** ** Exceptions *)

Inductive exn_class :=
| TypeError | AttributeError | IndexError | KeyError | ValueError
| UnicodeDecodeError | UnicodeEncodeError
| TimeoutError | OSError | PermissionError | ConnectionResetError | OverflowError
| KeyboardInterrupt | SystemExit | CancelledError.

Record exn := Exn { exn_class_of : exn_class; exn_str : string }.

(** [isinstance(e, Exception)]: everything except the three classes that
    derive from [BaseException] directly (Python 3.8 and later, where
    [asyncio.CancelledError] is one of them). *)
Definition is_Exception (e : exn) : bool :=
  match exn_class_of e with
  | KeyboardInterrupt | SystemExit | CancelledError => false
  | _ => true
  end.

Definition is_PermissionError (e : exn) : bool :=
  match exn_class_of e with PermissionError => true | _ => false end.

(** [isinstance(e, asyncio.TimeoutError)]. *)
Definition is_TimeoutError (e : exn) : bool :=
  match exn_class_of e with TimeoutError => true | _ => false end.

Inductive result (A : Type) :=
| Ok (a : A)
| Raise (e : exn).
Arguments Ok {A} a.
Arguments Raise {A} e.

Definition result_map {A B} (f : A -> B) (r : result A) : result B :=
  match r with Ok a => Ok (f a) | Raise e => Raise e end.

(** ** Codecs *)

(** [binascii.hexlify]: two lowercase hexadecimal digits per byte. *)
Definition hex_digit (n : N) : byte :=
  byte_of_N (if n <? 10 then 48 + n else 87 + n).

Definition hexlify (data : bytes) : bytes :=
  flat_map (fun b => [hex_digit (Byte.to_N b / 16); hex_digit (Byte.to_N b mod 16)]) data.

(** The [errors=] argument of [bytes.decode]. *)
Inductive error_policy := Strict | Replace.

Definition REPLACEMENT_CHARACTER : N := 65533.

(** What a byte means when the UTF-8 decoder is at a character boundary:
    a complete character, the start of a sequence (how many continuation
    bytes follow, the bits so far, and the range allowed for the next
    byte), or an invalid start byte. *)
Inductive utf8_start :=
| U8Char (c : N)
| U8Lead (more : nat) (bits lo hi : N)
| U8Bad.

Definition utf8_lead (n : N) : utf8_start :=
  if n <? 128 then U8Char n
  else if n <? 194 then U8Bad
  else if n <? 224 then U8Lead 0 (n - 192) 128 191
  else if n =? 224 then U8Lead 1 0 160 191
  else if n =? 237 then U8Lead 1 13 128 159
  else if n <? 240 then U8Lead 1 (n - 224) 128 191
  else if n =? 240 then U8Lead 2 0 144 191
  else if n <? 244 then U8Lead 2 (n - 240) 128 191
  else if n =? 244 then U8Lead 2 4 128 143
  else U8Bad.

Definition utf8_error (p : error_policy) (rest : result str) : result str :=
  match p with
  | Strict => Raise (Exn UnicodeDecodeError "'utf-8' codec can't decode bytes")
  | Replace => result_map (cons REPLACEMENT_CHARACTER) rest
  end.

(** [bytes.decode("utf-8", errors=p)].  [pending] is the sequence being
    assembled, if any.  An ill-formed sequence is reported (or replaced by
    one U+FFFD) as far as it was well formed, and decoding resumes at the
    offending byte. *)
Fixpoint utf8_decode_from (p : error_policy) (pending : option (nat * N * N * N))
    (data : bytes) : result str :=
  match data with
  | [] =>
      match pending with
      | None => Ok []
      | Some _ => utf8_error p (Ok [])
      end
  | b :: rest =>
      let n := Byte.to_N b in
      let fresh :=
        match utf8_lead n with
        | U8Char c => result_map (cons c) (utf8_decode_from p None rest)
        | U8Lead more bits lo hi => utf8_decode_from p (Some (more, bits, lo, hi)) rest
        | U8Bad => utf8_error p (utf8_decode_from p None rest)
        end in
      match pending with
      | None => fresh
      | Some (more, bits, lo, hi) =>
          if (lo <=? n) && (n <=? hi) then
            let bits' := bits * 64 + (n - 128) in
            match more with
            | O => result_map (cons bits') (utf8_decode_from p None rest)
            | S more' => utf8_decode_from p (Some (more', bits', 128, 191)) rest
            end
          else utf8_error p fresh
      end
  end.

Definition utf8_decode (p : error_policy) (data : bytes) : result str :=
  utf8_decode_from p None data.

(** The text of numbers inside error messages: [%02x], [%04x] and [%zd]. *)
Definition hex_ascii (n : N) : ascii :=
  ascii_of_N (if n <? 10 then 48 + n else 87 + n).

Definition hex2 (n : N) : string :=
  String (hex_ascii (n / 16 mod 16)) (String (hex_ascii (n mod 16)) EmptyString).

Definition hex4 (n : N) : string := hex2 (n / 256) +:+ hex2 n.

(** [str(e)] for a [UnicodeEncodeError] of the UTF-8 codec on the
    characters from [start] up to, not including, [stop]: one offending
    character is shown, a longer run is given by its positions. *)
Definition unicode_encode_error (c : N) (start stop : nat) (reason : string) : exn :=
  Exn UnicodeEncodeError
    (if Nat.eqb stop (S start)
     then "'utf-8' codec can't encode character '\u" +:+ hex4 c +:+ "' in position "
          +:+ pretty start +:+ ": " +:+ reason
     else "'utf-8' codec can't encode characters in position "
          +:+ pretty start +:+ "-" +:+ pretty (stop - 1)%nat +:+ ": " +:+ reason).

(** [str(e)] for a [UnicodeDecodeError] on the bytes from [start] up to,
    not including, [stop]; [byte] is the byte at [start]. *)
Definition unicode_decode_error (codec : string) (byte : N) (start stop : nat)
    (reason : string) : exn :=
  Exn UnicodeDecodeError
    (if Nat.eqb stop (S start)
     then "'" +:+ codec +:+ "' codec can't decode byte 0x" +:+ hex2 byte
          +:+ " in position " +:+ pretty start +:+ ": " +:+ reason
     else "'" +:+ codec +:+ "' codec can't decode bytes in position "
          +:+ pretty start +:+ "-" +:+ pretty (stop - 1)%nat +:+ ": " +:+ reason).

(** [str.encode()], UTF-8 and strict: surrogates cannot be encoded. *)
Definition is_surrogate (c : N) : bool := (55296 <=? c) && (c <=? 57343).

Definition utf8_encode_char (c : N) : option bytes :=
  if c <? 128 then Some [byte_of_N c]
  else if c <? 2048 then Some [byte_of_N (192 + c / 64); byte_of_N (128 + c mod 64)]
  else if is_surrogate c then None
  else if c <? 65536 then
    Some [byte_of_N (224 + c / 4096); byte_of_N (128 + (c / 64) mod 64);
          byte_of_N (128 + c mod 64)]
  else
    Some [byte_of_N (240 + c / 262144); byte_of_N (128 + (c / 4096) mod 64);
          byte_of_N (128 + (c / 64) mod 64); byte_of_N (128 + c mod 64)].

(** The surrogates that follow one another at the head of a text: the
    encoder reports the whole run. *)
Fixpoint surrogate_run (s : str) : nat :=
  match s with
  | c :: rest => if is_surrogate c then S (surrogate_run rest) else O
  | [] => O
  end.

(** [pos] is the index of the first character of [s] in the text being
    encoded. *)
Fixpoint utf8_encode_from (pos : nat) (s : str) : result bytes :=
  match s with
  | [] => Ok []
  | c :: rest =>
      match utf8_encode_char c with
      | None =>
          Raise (unicode_encode_error c pos (S pos + surrogate_run rest)
                   "surrogates not allowed")
      | Some bs => result_map (app bs) (utf8_encode_from (S pos) rest)
      end
  end.

Definition utf8_encode (s : str) : result bytes := utf8_encode_from 0 s.

(** The [unicode_escape] codec, decoding.  Outside an escape every byte is
    a Latin-1 character.  The decoder is a small automaton; inside an
    escape it remembers where the backslash was, for the error message: *)
Inductive escape_state :=
| EPlain                                (* not inside an escape *)
| EBackslash (start : nat)              (* a backslash was read *)
| EHex (reason : string) (todo : nat) (acc : N) (start : nat)
                                        (* inside \x, \u or \U; digits still to read *)
| EOctal (todo : nat) (acc : N)         (* inside \ooo; digits that may still follow *)
| ENameOpen (start : nat)               (* \N was read, an opening brace must follow *)
| EName (name : bytes) (start : nat).   (* inside \N{...}; the name so far *)

Definition hex_value (n : N) : option N :=
  if (48 <=? n) && (n <=? 57) then Some (n - 48)
  else if (97 <=? n) && (n <=? 102) then Some (n - 87)
  else if (65 <=? n) && (n <=? 70) then Some (n - 55)
  else None.

Definition is_octal_digit (n : N) : bool := (48 <=? n) && (n <=? 55).

Definition MAX_UNICODE : N := 1114111.

(** The error for the escape that began with the backslash at [start],
    noticed when the decoder stood at [stop]. *)
Definition escape_error (start stop : nat) (reason : string) : result str :=
  Raise (unicode_decode_error "unicodeescape" 92 start stop reason).

(** [names] is the table of Unicode character names behind [\N{...}]
    (the [unicodedata] module), mapping a name to its code point; [pos] is
    the index of the first byte of [data] in the bytes being decoded. *)
Fixpoint unicode_escape_from (names : bytes -> option N) (st : escape_state)
    (pos : nat) (data : bytes) : result str :=
  match data with
  | [] =>
      match st with
      | EPlain => Ok []
      | EOctal _ acc => Ok [acc]
      | EBackslash start => escape_error start pos "\ at end of string"
      | EHex reason _ _ start => escape_error start pos reason
      | ENameOpen start | EName _ start =>
          escape_error start pos "malformed \N character escape"
      end
  | b :: rest =>
      let n := Byte.to_N b in
      let plain :=
        if n =? 92 then unicode_escape_from names (EBackslash pos) (S pos) rest
        else result_map (cons n) (unicode_escape_from names EPlain (S pos) rest) in
      let emit c := result_map (cons c) (unicode_escape_from names EPlain (S pos) rest) in
      match st with
      | EPlain => plain
      | EBackslash start =>
          if n =? 10 then unicode_escape_from names EPlain (S pos) rest
          else if n =? 92 then emit 92
          else if n =? 39 then emit 39
          else if n =? 34 then emit 34
          else if n =? 98 then emit 8
          else if n =? 102 then emit 12
          else if n =? 116 then emit 9
          else if n =? 110 then emit 10
          else if n =? 114 then emit 13
          else if n =? 118 then emit 11
          else if n =? 97 then emit 7
          else if is_octal_digit n
          then unicode_escape_from names (EOctal 2 (n - 48)) (S pos) rest
          else if n =? 120
          then unicode_escape_from names (EHex "truncated \xXX escape" 2 0 start) (S pos) rest
          else if n =? 117
          then unicode_escape_from names (EHex "truncated \uXXXX escape" 4 0 start) (S pos) rest
          else if n =? 85
          then unicode_escape_from names (EHex "truncated \UXXXXXXXX escape" 8 0 start)
                 (S pos) rest
          else if n =? 78 then unicode_escape_from names (ENameOpen start) (S pos) rest
          else result_map (fun s => 92 :: n :: s) (unicode_escape_from names EPlain (S pos) rest)
      | EHex reason todo acc start =>
          match hex_value n with
          | None => escape_error start pos reason
          | Some d =>
              let acc' := acc * 16 + d in
              match todo with
              | S (S todo') =>
                  unicode_escape_from names (EHex reason (S todo') acc' start) (S pos) rest
              | _ =>
                  if MAX_UNICODE <? acc'
                  then escape_error start (S pos) "illegal Unicode character"
                  else emit acc'
              end
          end
      | EOctal todo acc =>
          match todo with
          | S todo' =>
              if is_octal_digit n
              then unicode_escape_from names (EOctal todo' (acc * 8 + (n - 48))) (S pos) rest
              else result_map (cons acc) plain
          | O => result_map (cons acc) plain
          end
      | ENameOpen start =>
          if n =? 123 then unicode_escape_from names (EName [] start) (S pos) rest
          else escape_error start pos "malformed \N character escape"
      | EName name start =>
          if n =? 125 then
            match name with
            | [] => escape_error start pos "malformed \N character escape"
            | _ =>
                match names name with
                | Some c => emit c
                | None => escape_error start (S pos) "unknown Unicode character name"
                end
            end
          else unicode_escape_from names (EName (name ++ [b]) start) (S pos) rest
      end
  end.

(** [bytes.decode('unicode_escape')]. *)
Definition unicode_escape_decode (names : bytes -> option N) (data : bytes) : result str :=
  unicode_escape_from names EPlain 0 data.

(** ** Python values *)

(** The callables that occur as the [logger] of a listener: the closure
    returned by [jsonl_logger_factory], which knows its file name, or a
    callable supplied from outside, known only by an identifier. *)
Inductive callable :=
| jsonl_logger (filename : str)
| external (id : nat).

Inductive pyval :=
| VNone
| VBool (b : bool)
| VInt (z : Z)
| VStr (s : str)
| VBytes (b : bytes)
| VTuple (items : list pyval)
| VList (items : list pyval)
| VDict (d : gmap string pyval)
| VCallable (c : callable).

(** Truth value of a Python object, as tested by [if] and [bool()]. *)
Definition truthy (v : pyval) : bool :=
  match v with
  | VNone => false
  | VBool b => b
  | VInt z => negb (z =? 0)%Z
  | VStr s => negb (Nat.eqb (List.length s) 0)
  | VBytes b => negb (Nat.eqb (List.length b) 0)
  | VTuple l | VList l => negb (Nat.eqb (List.length l) 0)
  | VDict d => negb (Nat.eqb (size d) 0)
  | VCallable _ => true
  end.

(** The builtin [callable()]. *)
Definition py_callable (v : pyval) : bool :=
  match v with VCallable _ => true | _ => false end.

(** [v == s] for a string literal [s]. *)
Definition py_eq_str (v : pyval) (s : str) : bool :=
  match v with VStr t => bool_decide (t = s) | _ => false end.

(** The name Python prints for the type of a value. *)
Definition type_name (v : pyval) : string :=
  match v with
  | VNone => "NoneType" | VBool _ => "bool" | VInt _ => "int" | VStr _ => "str"
  | VBytes _ => "bytes" | VTuple _ => "tuple" | VList _ => "list"
  | VDict _ => "dict" | VCallable _ => "function"
  end.

(** [d.get(k, dflt)] on a dictionary. *)
Definition dict_get (d : gmap string pyval) (k : string) (dflt : pyval) : pyval :=
  default dflt (d !! k).

(** [v.get(k, dflt)] on an arbitrary value: only dictionaries have [get]. *)
Definition py_get (v : pyval) (k : string) (dflt : pyval) : result pyval :=
  match v with
  | VDict d => Ok (dict_get d k dflt)
  | _ => Raise (Exn AttributeError ("'" +:+ type_name v +:+ "' object has no attribute 'get'"))
  end.

(** [v[i]] for a literal index [i]. *)
Definition py_getitem (v : pyval) (i : nat) : result pyval :=
  match v with
  | VTuple l | VList l =>
      match l !! i with
      | Some x => Ok x
      | None => Raise (Exn IndexError (type_name v +:+ " index out of range"))
      end
  | VStr s =>
      match s !! i with
      | Some c => Ok (VStr [c])
      | None => Raise (Exn IndexError "string index out of range")
      end
  | VBytes b =>
      match b !! i with
      | Some x => Ok (VInt (Z.of_N (Byte.to_N x)))
      | None => Raise (Exn IndexError "index out of range")
      end
  | VDict _ => Raise (Exn KeyError (pretty i))
  | _ => Raise (Exn TypeError ("'" +:+ type_name v +:+ "' object is not subscriptable"))
  end.

(** [str(v)], as used by f-strings and [print].  The text of containers,
    bytes and functions is not spelled out. *)
Definition py_str (v : pyval) : str :=
  match v with
  | VNone => lit "None"
  | VBool true => lit "True"
  | VBool false => lit "False"
  | VInt z => lit (pretty z)
  | VStr s => s
  | _ => lit ("<" +:+ type_name v +:+ ">")
  end.

(** [v.encode()]: only [str] has it. *)
Definition py_encode (v : pyval) : result bytes :=
  match v with
  | VStr s => utf8_encode s
  | _ => Raise (Exn AttributeError ("'" +:+ type_name v +:+ "' object has no attribute 'encode'"))
  end.

(** [str.format] with keyword arguments, for templates whose fields are
    plain names: [{name}] is replaced by [str()] of the argument, doubled
    braces stand for themselves. *)
Fixpoint str_format_from (kwargs : gmap string pyval) (field : option string)
    (template : str) : result str :=
  match template with
  | [] =>
      match field with
      | None => Ok []
      | Some _ => Raise (Exn ValueError "expected '}' before end of string")
      end
  | c :: rest =>
      match field with
      | None =>
          if c =? 123 then
            match rest with
            | c' :: rest' =>
                if c' =? 123 then result_map (cons 123) (str_format_from kwargs None rest')
                else str_format_from kwargs (Some EmptyString) rest
            | [] => Raise (Exn ValueError "Single '{' encountered in format string")
            end
          else if c =? 125 then
            match rest with
            | c' :: rest' =>
                if c' =? 125 then result_map (cons 125) (str_format_from kwargs None rest')
                else Raise (Exn ValueError "Single '}' encountered in format string")
            | [] => Raise (Exn ValueError "Single '}' encountered in format string")
            end
          else result_map (cons c) (str_format_from kwargs None rest)
      | Some name =>
          if c =? 125 then
            match kwargs !! name with
            | Some v => result_map (app (py_str v)) (str_format_from kwargs None rest)
            | None => Raise (Exn KeyError ("'" +:+ name +:+ "'"))
            end
          else str_format_from kwargs (Some (name +:+ String (ascii_of_N c) EmptyString)) rest
      end
  end.

(** [v.format] with keyword arguments: [str] has the method, [bytes] does not. *)
Definition py_format (v : pyval) (kwargs : gmap string pyval) : result pyval :=
  match v with
  | VStr s => result_map VStr (str_format_from kwargs None s)
  | _ => Raise (Exn AttributeError ("'" +:+ type_name v +:+ "' object has no attribute 'format'"))
  end.

(** ** The world around a coroutine *)

(** One entry of the peer's script: what the next [reader.read] returns
    (a chunk, empty at end of stream, or a transport error) and how many
    milliseconds pass before it does.  [StreamReader.read(n)] returns at
    most [n] bytes, so the chunks of a script are the reads themselves. *)
Record read_event := ReadEvent { delay : N; outcome : result bytes }.

(** What the file system is asked about: a path given as text or as
    bytes, or an open file, given by its descriptor. *)
Inductive fspath :=
| PathStr (s : str)
| PathBytes (b : bytes)
| PathFd (fd : Z).

#[global] Instance byte_eq_dec : EqDecision byte := Byte.byte_eq_dec.

#[global] Instance fspath_eq_dec : EqDecision fspath.
Proof. solve_decision. Defined.

(** Effects, in the order they happen. *)
Inductive event :=
| EvRead (data : bytes)                                  (* [reader.read] returned *)
| EvTimeout                                              (* [wait_for] gave up *)
| EvWrite (data : bytes)                                 (* [writer.write] *)
| EvDrain                                                (* [writer.drain] returned *)
| EvClose                                                (* [writer.close] *)
| EvWaitClosed                                           (* [writer.wait_closed] returned *)
| EvCall (id : nat) (record : gmap string pyval)         (* an outside callable returned *)
| EvAppend (filename : str) (record : gmap string pyval) (* one JSON line appended *)
| EvTouch (filename : str)                               (* a file opened for append and closed *)
| EvMakedirs (path : fspath)                              (* [os.makedirs] returned *)
| EvListen (host port : pyval)                           (* a listening socket was bound *)
| EvPrint (line : str).

(** What the operating system, the clock and outside callables will do.
    Faults may depend on everything that happened before. *)
Record environment := Environment {
  unicode_names : bytes -> option N;
  clock : nat -> str;
  drain_fault : list event -> option exn;
  wait_closed_fault : list event -> option exn;
  call_fault : nat -> gmap string pyval -> list event -> option exn;
  file_fault : str -> gmap string pyval -> list event -> option exn;
  touch_fault : str -> list event -> option exn;
  path_exists : fspath -> bool;
  makedirs_fault : fspath -> list event -> option exn;
  bind_fault : pyval -> pyval -> list event -> option exn;
  sockname : pyval -> pyval -> str
}.

Record world := World {
  env : environment;
  peername : pyval;               (* [writer.get_extra_info("peername")] *)
  incoming : list read_event;
  ticks : nat;                    (* readings of the clock so far *)
  trace : list event
}.

Definition with_incoming (l : list read_event) (w : world) : world :=
  World (env w) (peername w) l (ticks w) (trace w).
Definition with_ticks (n : nat) (w : world) : world :=
  World (env w) (peername w) (incoming w) n (trace w).
Definition with_trace (t : list event) (w : world) : world :=
  World (env w) (peername w) (incoming w) (ticks w) t.

(** ** Coroutines: state and exceptions *)

Definition M (A : Type) : Type := world -> result A * world.

#[global] Instance M_ret : MRet M := fun A a w => (Ok a, w).
#[global] Instance M_bind : MBind M := fun A B f m w =>
  match m w with
  | (Ok a, w') => f a w'
  | (Raise e, w') => (Raise e, w')
  end.

Definition raise {A} (e : exn) : M A := fun w => (Raise e, w).
Definition lift {A} (r : result A) : M A := fun w => (r, w).
Definition gets {A} (f : world -> A) : M A := fun w => (Ok (f w), w).
Definition emit (ev : event) : M unit := fun w => (Ok tt, with_trace (trace w ++ [ev]) w).

(** A fault decided by the environment from the trace so far. *)
Definition may_fail (fault : environment -> list event -> option exn) : M unit :=
  fun w =>
    match fault (env w) (trace w) with
    | Some e => (Raise e, w)
    | None => (Ok tt, w)
    end.

(** [try: body  except C as e: handler e], where [catches] decides
    [isinstance(e, C)]; a bare [except:] catches everything. *)
Definition try_except {A} (catches : exn -> bool) (body : M A) (handler : exn -> M A) : M A :=
  fun w =>
    match body w with
    | (Ok a, w') => (Ok a, w')
    | (Raise e, w') => if catches e then handler e w' else (Raise e, w')
    end.

(** A [try] with two [except] clauses: the first clause that matches
    handles the exception, and what its handler raises is not caught by
    the second. *)
Definition try_except2 {A} (body : M A)
    (catches1 : exn -> bool) (handler1 : exn -> M A)
    (catches2 : exn -> bool) (handler2 : exn -> M A) : M A :=
  fun w =>
    match body w with
    | (Ok a, w') => (Ok a, w')
    | (Raise e, w') =>
        if catches1 e then handler1 e w'
        else if catches2 e then handler2 e w'
        else (Raise e, w')
    end.

Definition bare : exn -> bool := fun _ => true.
Definition pass {E} : E -> M unit := fun _ => mret tt.

(** [try: body  finally: cleanup]. *)
Definition try_finally {A} (body : M A) (cleanup : M unit) : M A :=
  fun w =>
    match body w with
    | (r, w') =>
        match cleanup w' with
        | (Ok _, w'') => (r, w'')
        | (Raise e, w'') => (Raise e, w'')
        end
    end.

(** ** asyncio streams, files and the clock *)

Definition get_extra_info (name : string) : M pyval :=
  if String.eqb name "peername" then gets peername else mret VNone.

(** The awaitables the handlers wait on. *)
Inductive awaitable := reader_read (n : nat).

(** [await reader.read(n)]: the next entry of the script, however long
    it takes; a finished script is a closed stream. *)
Definition await (a : awaitable) : M bytes :=
  match a with
  | reader_read _ => fun w =>
      match incoming w with
      | [] => (Ok [], with_trace (trace w ++ [EvRead []]) w)
      | ReadEvent _ (Ok data) :: rest =>
          (Ok data, with_trace (trace w ++ [EvRead data]) (with_incoming rest w))
      | ReadEvent _ (Raise e) :: rest => (Raise e, with_incoming rest w)
      end
  end.

(** [await asyncio.wait_for(a, timeout)], the timeout in milliseconds:
    when the next entry takes longer, the read is cancelled, nothing is
    consumed, and [TimeoutError] is raised. *)
Definition wait_for (a : awaitable) (timeout : N) : M bytes :=
  fun w =>
    match incoming w with
    | ReadEvent d o :: rest =>
        if timeout <? d
        then (Raise (Exn TimeoutError ""),
              with_trace (trace w ++ [EvTimeout]) (with_incoming (ReadEvent (d - timeout) o :: rest) w))
        else await a w
    | [] => await a w
    end.

Definition writer_write (data : bytes) : M unit := emit (EvWrite data).
Definition writer_drain : M unit := may_fail drain_fault;; emit EvDrain.
Definition writer_close : M unit := emit EvClose.
Definition writer_wait_closed : M unit := may_fail wait_closed_fault;; emit EvWaitClosed.

(** [datetime.utcnow().isoformat()]. *)
Definition utcnow_isoformat : M str :=
  fun w => (Ok (clock (env w) (ticks w)), with_ticks (S (ticks w)) w).

(** [with open(filename, "a") as f: f.write(json.dumps(record) + "\n")]:
    the line is kept as the record it serialises. *)
Definition append_jsonl (filename : str) (record : gmap string pyval) : M unit :=
  may_fail (fun e => file_fault e filename record);; emit (EvAppend filename record).

(** [f(record)]. *)
Definition py_call (f : pyval) (record : gmap string pyval) : M unit :=
  match f with
  | VCallable (jsonl_logger filename) => append_jsonl filename record
  | VCallable (external id) =>
      may_fail (fun e => call_fault e id record);; emit (EvCall id record)
  | _ => raise (Exn TypeError ("'" +:+ type_name f +:+ "' object is not callable"))
  end.

Definition print (line : str) : M unit := emit (EvPrint line).

(** What a trace shows. *)
Definition closed (t : list event) : bool :=
  existsb (fun ev => match ev with EvClose => true | _ => false end) t.

Definition written (t : list event) : list bytes :=
  omap (fun ev => match ev with EvWrite data => Some data | _ => None end) t.

Definition logged (t : list event) : list (gmap string pyval) :=
  omap (fun ev => match ev with
                  | EvCall _ r | EvAppend _ r => Some r
                  | _ => None
                  end) t.

(** ** handlers.py *)

Definition nonempty (data : bytes) : bool := negb (Nat.eqb (List.length data) 0).

(** [log_interaction(ctx, role, data_bytes)]. *)
Definition log_interaction (ctx : gmap string pyval) (role : str) (data_bytes : bytes) : M unit :=
  ts ← utcnow_isoformat;
  raw_hex ← lift (utf8_decode Strict (hexlify data_bytes));
  let record : gmap string pyval :=
    {[ "ts" := VStr ts;
       "role" := VStr role;
       "peer" := dict_get ctx "peer" VNone;
       "peer_port" := dict_get ctx "peer_port" VNone;
       "service" := dict_get ctx "service" VNone;
       "raw_hex" := VStr raw_hex;
       "raw_text" := VNone ]} in
  record ← try_except is_Exception
             (text ← lift (utf8_decode Replace data_bytes);
              mret (<["raw_text" := VStr text]> record))
             (fun _ => mret record);
  let logger := dict_get ctx "logger" VNone in
  if py_callable logger then py_call logger record
  else append_jsonl (lit "logs/interactions.jsonl") record.

Definition HTTP_RESPONSE : bytes := blit
"HTTP/1.1 200 OK
Content-Type: text/html; charset=utf-8
Content-Length: {length}

{body}
".

(** The two statements that open every handler,

      [peer = writer.get_extra_info("peername")]
      [ctx["peer"], ctx["peer_port"] = peer[0], peer[1] if peer else (None, None)]

    The right-hand side is the pair of [peer[0]] and the conditional
    expression, evaluated left to right. *)
Definition set_peer (ctx : gmap string pyval) : M (gmap string pyval) :=
  peer ← get_extra_info "peername";
  first ← lift (py_getitem peer 0);
  second ← (if truthy peer then lift (py_getitem peer 1)
            else mret (VTuple [VNone; VNone]));
  mret (<["peer_port" := second]> (<["peer" := first]> ctx)).

Definition http_body : str :=
  lit "<html><body><h1>Welcome</h1><p>This is a honeypot HTTP page.</p></body></html>".

(** [http_handler(reader, writer, ctx)]. *)
Definition http_handler (ctx : gmap string pyval) : M unit :=
  ctx ← set_peer ctx;
  let ctx := <["service" := VStr (lit "http")]> ctx in
  data ← try_except is_TimeoutError (wait_for (reader_read 4096) 3000) (fun _ => mret []);
  (if nonempty data then log_interaction ctx (lit "client") data else mret tt);;
  let body := http_body in
  text ← lift (py_format (VBytes HTTP_RESPONSE)
                 {[ "length" := VInt (Z.of_nat (List.length body)); "body" := VStr body ]});
  resp ← lift (py_encode text);
  log_interaction ctx (lit "server") resp;;
  writer_write resp;;
  try_except bare writer_drain pass;;
  writer_close;;
  try_except bare writer_wait_closed pass.

(** [banner_handler(reader, writer, ctx, banner)]. *)
Definition banner_handler (ctx : gmap string pyval) (banner : bytes) : M unit :=
  ctx ← set_peer ctx;
  let ctx := <["service" := VStr (lit "banner")]> ctx in
  try_except bare
    (writer_write banner;;
     writer_drain;;
     log_interaction ctx (lit "server") banner)
    pass;;
  data ← try_except is_TimeoutError (wait_for (reader_read 2048) 10000) (fun _ => mret []);
  (if nonempty data then log_interaction ctx (lit "client") data else mret tt);;
  writer_close;;
  try_except bare writer_wait_closed pass.

(** The [while True] loop of [generic_tcp_handler].  Every turn that does
    not leave the loop consumes one entry of the script, so [fuel] beyond
    the length of the script is never used. *)
Fixpoint generic_loop (fuel : nat) (ctx : gmap string pyval) (echo : bool) : M unit :=
  match fuel with
  | O => mret tt
  | S fuel' =>
      data ← await (reader_read 4096);
      if nonempty data then
        log_interaction ctx (lit "client") data;;
        (if echo then writer_write data;; writer_drain else mret tt);;
        generic_loop fuel' ctx echo
      else mret tt
  end.

(** [generic_tcp_handler(reader, writer, ctx, echo)]. *)
Definition generic_tcp_handler (ctx : gmap string pyval) (echo : bool) : M unit :=
  ctx ← set_peer ctx;
  let ctx := <["service" := dict_get ctx "service" (VStr (lit "tcp"))]> ctx in
  try_finally
    (try_except is_Exception
       (fun w => generic_loop (S (List.length (incoming w))) ctx echo w)
       pass)
    (writer_close;;
     try_except bare writer_wait_closed pass).

(** ** honeypot.py *)

Definition made (path : fspath) (t : list event) : bool :=
  existsb (fun ev => match ev with
                     | EvMakedirs p => bool_decide (p = path)
                     | _ => false
                     end) t.

(** Whether a path exists now: it did before, or it was made since. *)
Definition exists_now (path : fspath) (w : world) : bool :=
  path_exists (env w) path || made path (trace w).

(** [os.stat] on a file descriptor, as [os.path.exists] sees it: a
    descriptor that does not fit a C [int] overflows, and for the others
    an error of [os.stat] means that nothing is there. *)
Definition INT_MIN : Z := (-2147483648)%Z.
Definition INT_MAX : Z := 2147483647%Z.

Definition fd_exists (fd : Z) : M bool :=
  if (fd <? INT_MIN)%Z then raise (Exn OverflowError "fd is less than minimum")
  else if (INT_MAX <? fd)%Z then raise (Exn OverflowError "fd is greater than maximum")
  else gets (exists_now (PathFd fd)).

(** [os.path.exists(path)]: a path is text or bytes; an integer is taken
    for a file descriptor, and a [bool] is an integer. *)
Definition os_path_exists (path : pyval) : M bool :=
  match path with
  | VStr s => gets (exists_now (PathStr s))
  | VBytes b => gets (exists_now (PathBytes b))
  | VInt fd => fd_exists fd
  | VBool b => fd_exists (if b then 1 else 0)%Z
  | _ =>
      raise (Exn TypeError
               ("stat: path should be string, bytes, os.PathLike or integer, not "
                +:+ type_name path))
  end.

(** [os.makedirs(path, exist_ok=True)]. *)
Definition os_makedirs (path : pyval) : M unit :=
  match path with
  | VStr s => may_fail (fun e => makedirs_fault e (PathStr s));; emit (EvMakedirs (PathStr s))
  | VBytes b =>
      may_fail (fun e => makedirs_fault e (PathBytes b));; emit (EvMakedirs (PathBytes b))
  | _ =>
      raise (Exn TypeError
               ("expected str, bytes or os.PathLike object, not " +:+ type_name path))
  end.

(** [ensure_logdir(path)]. *)
Definition ensure_logdir (path : pyval) : M unit :=
  there ← os_path_exists path;
  if (there : bool) then mret tt else os_makedirs path.

(** [os.path.join(path, name)] for a relative [name], on text. *)
Definition path_join (path name : str) : str :=
  match last path with
  | None => name
  | Some c => if c =? 47 then path ++ name else path ++ 47 :: name
  end.

(** [os.path.join(path, name)] where [name] is a [str] literal. *)
Definition os_path_join (path : pyval) (name : str) : result str :=
  match path with
  | VStr p => Ok (path_join p name)
  | VBytes _ => Raise (Exn TypeError "Can't mix strings and bytes in path components")
  | _ =>
      Raise (Exn TypeError
               ("expected str, bytes or os.PathLike object, not " +:+ type_name path))
  end.

(** [jsonl_logger_factory(path)]: the logger is a closure over the file name. *)
Definition jsonl_logger_factory (path : pyval) : M pyval :=
  ensure_logdir path;;
  filename ← lift (os_path_join path (lit "interactions.jsonl"));
  may_fail (fun e => touch_fault e filename);;
  emit (EvTouch filename);;
  mret (VCallable (jsonl_logger filename)).

(** The expression that turns the configured banner into bytes,

      [listener.get("banner", "SSH-2.0-OpenSSH_7.4\r\n").encode().decode('unicode_escape').encode()]

    where the default, written with Python escapes, ends in CR LF. *)
Definition configured_banner (names : bytes -> option N) (listener : pyval) : result bytes :=
  match py_get listener "banner" (VStr (lit ("SSH-2.0-OpenSSH_7.4" +:+ CRLF))) with
  | Raise e => Raise e
  | Ok configured =>
      match py_encode configured with
      | Raise e => Raise e
      | Ok encoded =>
          match unicode_escape_decode names encoded with
          | Raise e => Raise e
          | Ok decoded => utf8_encode decoded
          end
      end
  end.

(** The nested [h] of the banner branch. *)
Definition banner_h (listener : pyval) (ctx : gmap string pyval) : M unit :=
  names ← gets (fun w => unicode_names (env w));
  banner ← lift (configured_banner names listener);
  banner_handler ctx banner.

(** The nested [h] of the generic branch. *)
Definition generic_h (listener port : pyval) (echo : bool) (ctx : gmap string pyval) : M unit :=
  service ← lift (py_get listener "service" (VStr (lit "tcp_" ++ py_str port)));
  generic_tcp_handler (<["service" := service]> ctx) echo.

(** The nested [client_connected(reader, writer)] of [start_listener],
    with the variables it closes over as arguments. *)
Definition client_connected (logger port handler_name : pyval)
    (handler : gmap string pyval -> M unit) : M unit :=
  let ctx : gmap string pyval := {[ "logger" := logger ]} in
  peer ← get_extra_info "peername";
  ctx ← (if truthy peer then
           first ← lift (py_getitem peer 0);
           second ← lift (py_getitem peer 1);
           mret (<["peer_port" := second]> (<["peer" := first]> ctx))
         else mret (<["peer_port" := VNone]> (<["peer" := VNone]> ctx)));
  try_except is_Exception
    (handler ctx)
    (fun e =>
       ts ← utcnow_isoformat;
       let record : gmap string pyval :=
         {[ "ts" := VStr ts;
            "event" := VStr (lit "handler_exception");
            "port" := port;
            "handler" := handler_name;
            "error" := VStr (lit (exn_str e)) ]} in
       py_call logger record).

(** A running [asyncio] server: where it listens and what it runs for
    every accepted connection. *)
Record server := Server {
  server_host : pyval;
  server_port : pyval;
  server_callback : M unit
}.

Definition asyncio_start_server (callback : M unit) (host port : pyval) : M server :=
  may_fail (fun e => bind_fault e host port);;
  emit (EvListen host port);;
  mret (Server host port callback).

(** The handler [start_listener] selects for a listener. *)
Definition select_handler (listener port handler_name : pyval)
    : result (gmap string pyval -> M unit) :=
  if py_eq_str handler_name (lit "http") then Ok http_handler
  else if py_eq_str handler_name (lit "banner") then Ok (banner_h listener)
  else
    match py_get listener "echo" (VBool false) with
    | Ok echo => Ok (generic_h listener port (truthy echo))
    | Raise e => Raise e
    end.

(** [start_listener(bind_host, listener, logger)]. *)
Definition start_listener (bind_host listener logger : pyval) : M server :=
  port ← lift (py_get listener "port" VNone);
  handler_name ← lift (py_get listener "handler" VNone);
  proto ← lift (py_get listener "proto" (VStr (lit "tcp")));
  handler ← lift (select_handler listener port handler_name);
  srv ← asyncio_start_server (client_connected logger port handler_name handler) bind_host port;
  addrs ← gets (fun w => sockname (env w) bind_host port);
  print (lit "[+] Listening on " ++ addrs ++ lit " (handler=" ++ py_str handler_name ++ lit ")");;
  mret srv.

(** What a [for] loop iterates over. *)
Definition py_iter (v : pyval) : result (list pyval) :=
  match v with
  | VList l | VTuple l => Ok l
  | VStr s => Ok (List.map (fun c => VStr [c]) s)
  | VBytes b => Ok (List.map (fun x => VInt (Z.of_N (Byte.to_N x))) b)
  | VDict d => Ok (List.map (fun kv => VStr (lit (fst kv))) (map_to_list d))
  | _ => Raise (Exn TypeError ("'" +:+ type_name v +:+ "' object is not iterable"))
  end.

(** The [for l in listeners] loop of [run_from_config]; [servers] is the
    list built so far. *)
Fixpoint start_each (bind_host logger : pyval) (listeners : list pyval)
    (servers : list server) : M (list server) :=
  match listeners with
  | [] => mret servers
  | l :: rest =>
      servers ← try_except2
        (srv ← start_listener bind_host l logger;
         mret (servers ++ [srv]))
        is_PermissionError
        (fun _ =>
           port ← lift (py_get l "port" VNone);
           print (lit "Errore: permessi insufficienti per aprire porta " ++ py_str port
                  ++ lit ". Usa porta >1024 o sudo.");;
           mret servers)
        is_Exception
        (fun e =>
           print (lit "Errore creazione listener: " ++ lit (exn_str e));;
           mret servers);
      start_each bind_host logger rest servers
  end.

(** [run_from_config(cfg, bind_host)]. *)
Definition run_from_config (cfg : gmap string pyval) (bind_host : pyval) : M (list server) :=
  let logdir := dict_get cfg "log_dir" (VStr (lit "logs")) in
  ensure_logdir logdir;;
  logger ← jsonl_logger_factory logdir;
  let listeners := dict_get cfg "listeners" (VList []) in
  items ← lift (py_iter listeners);
  start_each bind_host logger items [].

(** The listeners of [DEFAULT_CONFIG]; the banner is written with a
    literal backslash before [r] and [n]. *)
Definition default_listeners : list pyval :=
  [ VDict {[ "port" := VInt 80; "proto" := VStr (lit "tcp");
             "handler" := VStr (lit "http") ]};
    VDict {[ "port" := VInt 2222; "proto" := VStr (lit "tcp");
             "handler" := VStr (lit "banner");
             "banner" := VStr (lit "SSH-2.0-OpenSSH_7.4\r\n") ]};
    VDict {[ "port" := VInt 502; "proto" := VStr (lit "tcp");
             "handler" := VStr (lit "generic"); "echo" := VBool false ]} ].

Definition DEFAULT_CONFIG : gmap string pyval :=
  {[ "listeners" := VList default_listeners;
     "log_dir" := VStr (lit "logs");
     "jsonl" := VBool true ]}.

(** ** What the specification says, in its own words *)

(** "raw bytes always hex-encoded": two digits per byte, taken from the
    lowercase alphabet, high nibble first. *)
Definition hex_alphabet : string := "0123456789abcdef".

Definition hex_char (n : N) : N :=
  match String.get (N.to_nat n) hex_alphabet with
  | Some c => N_of_ascii c
  | None => 0
  end.

Definition lowercase_hex (data : bytes) : str :=
  flat_map (fun b => [hex_char (Byte.to_N b / 16); hex_char (Byte.to_N b mod 16)]) data.

(** Reading a hexadecimal text back into bytes. *)
Definition unhex_char (c : N) : option N :=
  if (48 <=? c) && (c <=? 57) then Some (c - 48)
  else if (97 <=? c) && (c <=? 102) then Some (c - 87)
  else None.

Fixpoint unhexlify (text : str) : option bytes :=
  match text with
  | [] => Some []
  | hi :: lo :: rest =>
      match unhex_char hi, unhex_char lo, unhexlify rest with
      | Some h, Some l, Some data => Some (byte_of_N (16 * h + l) :: data)
      | _, _, _ => None
      end
  | _ => None
  end.

(** The sink a context designates, and what handing it a record does:
    the fault the environment answers with, and the event otherwise. *)
Definition sink_fault (logger : pyval) (record : gmap string pyval) (w : world) : option exn :=
  match logger with
  | VCallable (jsonl_logger filename) => file_fault (env w) filename record (trace w)
  | VCallable (external id) => call_fault (env w) id record (trace w)
  | _ => file_fault (env w) (lit "logs/interactions.jsonl") record (trace w)
  end.

Definition sink_event (logger : pyval) (record : gmap string pyval) : event :=
  match logger with
  | VCallable (jsonl_logger filename) => EvAppend filename record
  | VCallable (external id) => EvCall id record
  | _ => EvAppend (lit "logs/interactions.jsonl") record
  end.

(** The record [log_interaction] builds. *)
Definition interaction_record (ctx : gmap string pyval) (ts role : str) (data : bytes)
    (text : str) : gmap string pyval :=
  {[ "ts" := VStr ts;
     "role" := VStr role;
     "peer" := dict_get ctx "peer" VNone;
     "peer_port" := dict_get ctx "peer_port" VNone;
     "service" := dict_get ctx "service" VNone;
     "raw_hex" := VStr (lowercase_hex data);
     "raw_text" := VStr text ]}.

(** Handing a record to the sink of a context (the last statement of
    [log_interaction]). *)
Definition deliver (logger : pyval) (record : gmap string pyval) : M unit :=
  if py_callable logger then py_call logger record
  else append_jsonl (lit "logs/interactions.jsonl") record.

Definition delivered (logger : pyval) (record : gmap string pyval) (w : world)
    : result unit * world :=
  match sink_fault logger record w with
  | Some e => (Raise e, w)
  | None => (Ok tt, with_trace (trace w ++ [sink_event logger record]) w)
  end.

(** A configured banner, piece by piece.  Outside escape sequences it is
    made of plain characters; an escape sequence is one of the
    two-character sequences that stand for a single byte, a number written
    in hexadecimal after [\x], [\u] or [\U] or in octal, or a character
    called by its name.  A backslash before a line feed stands for
    nothing, and a backslash before a character that starts none of these
    stands for itself and is followed by that character. *)
Inductive simple_escape :=
| esc_a | esc_b | esc_f | esc_n | esc_r | esc_t | esc_v
| esc_backslash | esc_quote | esc_double_quote.

(** A hexadecimal digit as it is written: its value and, for a letter,
    whether it is written in upper case. *)
Record hexdigit := HexDigit { digit_value : N; digit_upper : bool }.

Inductive hex_kind := kind_x | kind_u | kind_U.

Inductive banner_item :=
| Plain (c : N)
| Escaped (e : simple_escape)
| Hex (k : hex_kind) (digits : list hexdigit)   (* backslash, x, u or U, and the digits *)
| Octal (digits : list N)                       (* backslash and one to three octal digits *)
| Named (name : str)                            (* backslash, N and the name in braces *)
| Literal (c : N)                               (* a backslash that starts no escape *)
| Continued.                                    (* backslash and line feed *)

(** The character written after the backslash. *)
Definition escape_letter (e : simple_escape) : N :=
  match e with
  | esc_a => 97 | esc_b => 98 | esc_f => 102 | esc_n => 110 | esc_r => 114
  | esc_t => 116 | esc_v => 118
  | esc_backslash => 92 | esc_quote => 39 | esc_double_quote => 34
  end.

(** The byte the sequence stands for: BEL, BS, FF, LF, CR, TAB, VT, and
    the three characters that need quoting. *)
Definition escape_byte (e : simple_escape) : N :=
  match e with
  | esc_a => 7 | esc_b => 8 | esc_f => 12 | esc_n => 10 | esc_r => 13
  | esc_t => 9 | esc_v => 11
  | esc_backslash => 92 | esc_quote => 39 | esc_double_quote => 34
  end.

Definition hexdigit_char (d : hexdigit) : N :=
  if digit_value d <? 10 then 48 + digit_value d
  else if digit_upper d then 55 + digit_value d
  else 87 + digit_value d.

Definition hex_letter (k : hex_kind) : N :=
  match k with kind_x => 120 | kind_u => 117 | kind_U => 85 end.

(** [\x] takes two digits, [\u] four and [\U] eight. *)
Definition hex_width (k : hex_kind) : nat :=
  match k with kind_x => 2 | kind_u => 4 | kind_U => 8 end%nat.

Definition hex_number (digits : list hexdigit) : N :=
  fold_left (fun acc d => acc * 16 + digit_value d) digits 0.

Definition octal_number (digits : list N) : N :=
  fold_left (fun acc d => acc * 8 + d) digits 0.

(** The text of an item in the configuration file. *)
Definition item_text (it : banner_item) : str :=
  match it with
  | Plain c => [c]
  | Escaped e => [92; escape_letter e]
  | Hex k digits => 92 :: hex_letter k :: List.map hexdigit_char digits
  | Octal digits => 92 :: List.map (fun d => 48 + d) digits
  | Named name => 92 :: 78 :: 123 :: name ++ [125]
  | Literal c => [92; c]
  | Continued => [92; 10]
  end.

Definition as_configured (items : list banner_item) : str :=
  flat_map item_text items.

(** The characters an item stands for; [names] is the table of character
    names. *)
Definition item_chars (names : bytes -> option N) (it : banner_item) : str :=
  match it with
  | Plain c => [c]
  | Escaped e => [escape_byte e]
  | Hex _ digits => [hex_number digits]
  | Octal digits => [octal_number digits]
  | Named name =>
      match names (List.map byte_of_N name) with
      | Some c => [c]
      | None => []
      end
  | Literal c => [92; c]
  | Continued => []
  end.

(** The characters that, after a backslash, start an escape sequence. *)
Definition starts_escape (c : N) : bool :=
  existsb (N.eqb c) [10; 92; 39; 34; 97; 98; 102; 110; 114; 116; 118; 120; 117; 85; 78]
  || ((48 <=? c) && (c <=? 55)).

(** An item is well formed: a plain character is ASCII and is not the
    backslash; a hexadecimal escape has as many digits as its letter
    asks for; an octal escape has one to three digits; a name is not
    empty, has no closing brace in it, and is in the table. *)
Definition item_ok (names : bytes -> option N) (it : banner_item) : bool :=
  match it with
  | Plain c => (c <? 128) && negb (c =? 92)
  | Escaped _ => true
  | Hex k digits =>
      Nat.eqb (List.length digits) (hex_width k)
      && forallb (fun d => digit_value d <? 16) digits
  | Octal digits =>
      Nat.leb 1 (List.length digits) && Nat.leb (List.length digits) 3
      && forallb (fun d => d <? 8) digits
  | Named name =>
      negb (Nat.eqb (List.length name) 0)
      && forallb (fun c => (c <? 128) && negb (c =? 125)) name
      && match names (List.map byte_of_N name) with Some _ => true | None => false end
  | Literal c => (c <? 128) && negb (starts_escape c)
  | Continued => true
  end.

(** An octal escape of fewer than three digits ends where its digits
    end: the character after it is not an octal digit. *)
Definition octal_ends (it : banner_item) (rest : list banner_item) : bool :=
  match it, rest with
  | Octal digits, Plain c :: _ =>
      Nat.leb 3 (List.length digits) || negb ((48 <=? c) && (c <=? 55))
  | _, _ => true
  end.

(** A banner text whose items are well formed and stand for characters
    below [bound]. *)
Fixpoint banner_items_ok (bound : N) (names : bytes -> option N)
    (items : list banner_item) : bool :=
  match items with
  | [] => true
  | it :: rest =>
      item_ok names it
      && forallb (fun c => c <? bound) (item_chars names it)
      && octal_ends it rest
      && banner_items_ok bound names rest
  end.

(** The bytes the text stands for. *)
Definition as_sent (names : bytes -> option N) (items : list banner_item) : bytes :=
  List.map byte_of_N (flat_map (item_chars names) items).

(** ** Scenarios

    Concrete environments and connections on which the properties below
    are exercised. *)
Module Scenario.

Definition no_names : bytes -> option N := fun _ => None.
Definition stamps : nat -> str := fun n => lit ("2024-01-01T00:00:0" +:+ pretty n).

(** Nothing ever fails. *)
Definition calm : environment :=
  Environment no_names stamps (fun _ => None) (fun _ => None) (fun _ _ _ => None)
    (fun _ _ _ => None) (fun _ _ => None) (fun _ => false) (fun _ _ => None)
    (fun _ _ _ => None) (fun _ _ => lit "('0.0.0.0', 0)").

Definition ENOSPC : exn := Exn OSError "[Errno 28] No space left on device".

(** The log cannot be written: every sink raises [OSError]. *)
Definition full_disk : environment :=
  Environment no_names stamps (fun _ => None) (fun _ => None) (fun _ _ _ => Some ENOSPC)
    (fun _ _ _ => Some ENOSPC) (fun _ _ => Some ENOSPC) (fun _ => true) (fun _ _ => None)
    (fun _ _ _ => None) (fun _ _ => lit "('0.0.0.0', 0)").

Definition EACCES : exn := Exn PermissionError "[Errno 13] Permission denied".

(** Ports below 1024 cannot be bound. *)
Definition unprivileged : environment :=
  Environment no_names stamps (fun _ => None) (fun _ => None) (fun _ _ _ => None)
    (fun _ _ _ => None) (fun _ _ => None) (fun _ => false) (fun _ _ => None)
    (fun _ port _ => match port with
                     | VInt p => if (p <? 1024)%Z then Some EACCES else None
                     | _ => None
                     end)
    (fun _ _ => lit "('0.0.0.0', 0)").

Definition peer : pyval := VTuple [VStr (lit "203.0.113.9"); VInt 40000].

(** A freshly accepted connection. *)
Definition connection (e : environment) (peername : pyval) (script : list read_event) : world :=
  World e peername script 0 [].

(** The peer stays silent for a minute, then closes. *)
Definition silent : list read_event := [ReadEvent 60000 (Ok [])].

(** The peer sends [ping] at once, then closes. *)
Definition ping : list read_event := [ReadEvent 0 (Ok (blit "ping"))].

Definition sink : pyval := VCallable (external 0).

End Scenario.

(** ** Vocabulary of the properties *)

(** Two worlds between which nothing was written to the peer and the
    writer was not closed. *)
Definition same_wire (w w' : world) : Prop :=
  written (trace w') = written (trace w) /\ closed (trace w') = closed (trace w).

Definition not_subscriptable : exn :=
  Exn TypeError "'NoneType' object is not subscriptable".

Definition no_format : exn :=
  Exn AttributeError "'bytes' object has no attribute 'format'".

(** The world after a read was abandoned at its deadline. *)
Definition timed_out (timeout : N) (w : world) : world :=
  match incoming w with
  | ReadEvent d o :: rest =>
      with_trace (trace w ++ [EvTimeout]) (with_incoming (ReadEvent (d - timeout) o :: rest) w)
  | [] => w
  end.

Definition extends (w w' : world) : Prop :=
  exists more, trace w' = trace w ++ more.

(** The record [client_connected] writes for an exception. *)
Definition handler_exception_record (ts : str) (port name : pyval) (e : exn)
    : gmap string pyval :=
  {[ "ts" := VStr ts;
     "event" := VStr (lit "handler_exception");
     "port" := port;
     "handler" := name;
     "error" := VStr (lit (exn_str e)) ]}.

(** The context [client_connected] builds for a peer with an address. *)
Definition accepted_ctx (logger host port : pyval) : gmap string pyval :=
  <["peer_port" := port]> (<["peer" := host]> {[ "logger" := logger ]}).

(** The banner of the default configuration, as the peer of the
    specification's banner scenario sees it: it ends in CR LF. *)
Definition default_banner_items : list banner_item :=
  List.map Plain (lit "SSH-2.0-OpenSSH_7.4") ++ [Escaped esc_r; Escaped esc_n].

Definition default_banner_listener : gmap string pyval :=
  {[ "port" := VInt 2222; "proto" := VStr (lit "tcp");
     "handler" := VStr (lit "banner");
     "banner" := VStr (lit "SSH-2.0-OpenSSH_7.4\r\n") ]}.

(** The context [client_connected] builds from the peer address, or the
    exception raised while building it. *)
Definition supervisor_ctx (logger peer : pyval) : result (gmap string pyval) :=
  if truthy peer then
    match py_getitem peer 0 with
    | Raise e => Raise e
    | Ok first =>
        match py_getitem peer 1 with
        | Raise e => Raise e
        | Ok second => Ok (accepted_ctx logger first second)
        end
    end
  else Ok (accepted_ctx logger VNone VNone).

(** Between two worlds only client records were logged. *)
Definition only_client_records (w w' : world) : Prop :=
  exists new,
    logged (trace w') = logged (trace w) ++ new
    /\ Forall (fun r => r !! "role" = Some (VStr (lit "client"))) new.

(** The text [log_interaction] stores for a chunk. *)
Definition replaced_text (data : bytes) : str :=
  match utf8_decode Replace data with
  | Ok s => s
  | Raise _ => []
  end.

(** What the loop of the generic handler does with a script when neither
    the sink nor the transport fails: for every chunk, the read, the client
    record, and with [echo] the write and its drain; the first empty read
    ends the loop. *)
Fixpoint generic_session (e : environment) (ctx : gmap string pyval) (echo : bool)
    (tick : nat) (script : list read_event) : list event :=
  match script with
  | [] => [EvRead []]
  | ReadEvent _ (Raise _) :: _ => []
  | ReadEvent _ (Ok data) :: rest =>
      if nonempty data then
        EvRead data
        :: sink_event (dict_get ctx "logger" VNone)
             (interaction_record ctx (clock e tick) (lit "client") data (replaced_text data))
        :: (if echo then [EvWrite data; EvDrain] else [])
        ++ generic_session e ctx echo (S tick) rest
      else [EvRead data]
  end.

Definition arrives (ev : read_event) : Prop :=
  match outcome ev with Ok _ => True | Raise _ => False end.

(** The context the generic handler logs with. *)
Definition generic_ctx (ctx : gmap string pyval) (host port : pyval) : gmap string pyval :=
  let ctx := <["peer_port" := port]> (<["peer" := host]> ctx) in
  <["service" := dict_get ctx "service" (VStr (lit "tcp"))]> ctx.

(** The line [start_listener] prints for a listener it has bound, and
    the two lines [run_from_config] prints for a listener it could not
    start. *)
Definition listening_line (addrs : str) (handler_name : pyval) : str :=
  lit "[+] Listening on " ++ addrs ++ lit " (handler=" ++ py_str handler_name ++ lit ")".

Definition permission_line (port : pyval) : str :=
  lit "Errore: permessi insufficienti per aprire porta " ++ py_str port
  ++ lit ". Usa porta >1024 o sudo.".

Definition failure_line (e : exn) : str :=
  lit "Errore creazione listener: " ++ lit (exn_str e).

(** The values whose text [py_str] spells out. *)
Definition scalar (v : pyval) : bool :=
  match v with
  | VNone | VBool _ | VInt _ | VStr _ => true
  | _ => false
  end.

(** Start-up in environment [e], listener by listener; the first index is
    the trace reached so far, on which the next bind depends.

    A listener that is a dictionary and whose bind succeeds is bound,
    announced, and contributes its server; one whose bind fails costs one
    printed line, by the class of the failure, and nothing else; a
    listener that is no dictionary costs the line of its
    [AttributeError].  In every case the remaining listeners follow. *)
Inductive startup (e : environment) (host logger : pyval)
  : list event -> list pyval -> list event -> list server -> Prop :=
| startup_done t : startup e host logger t [] [] []
| startup_bound t d ls handler line evs srvs :
    bind_fault e host (dict_get d "port" VNone) t = None ->
    select_handler (VDict d) (dict_get d "port" VNone) (dict_get d "handler" VNone)
    = Ok handler ->
    (scalar (dict_get d "handler" VNone) = true ->
     line = listening_line (sockname e host (dict_get d "port" VNone))
              (dict_get d "handler" VNone)) ->
    startup e host logger
      (t ++ [EvListen host (dict_get d "port" VNone); EvPrint line]) ls evs srvs ->
    startup e host logger t (VDict d :: ls)
      (EvListen host (dict_get d "port" VNone) :: EvPrint line :: evs)
      (Server host (dict_get d "port" VNone)
         (client_connected logger (dict_get d "port" VNone) (dict_get d "handler" VNone)
            handler)
       :: srvs)
| startup_refused t d ls x line evs srvs :
    bind_fault e host (dict_get d "port" VNone) t = Some x ->
    (is_PermissionError x = true -> scalar (dict_get d "port" VNone) = true ->
     line = permission_line (dict_get d "port" VNone)) ->
    (is_PermissionError x = false -> line = failure_line x) ->
    startup e host logger (t ++ [EvPrint line]) ls evs srvs ->
    startup e host logger t (VDict d :: ls) (EvPrint line :: evs) srvs
| startup_malformed t l ls evs srvs :
    (forall d, l <> VDict d) ->
    startup e host logger
      (t ++ [EvPrint (failure_line
                        (Exn AttributeError
                           ("'" +:+ type_name l +:+ "' object has no attribute 'get'")))])
      ls evs srvs ->
    startup e host logger t (l :: ls)
      (EvPrint (failure_line
                  (Exn AttributeError
                     ("'" +:+ type_name l +:+ "' object has no attribute 'get'")))
       :: evs)
      srvs.

(** The sockets a trace shows as bound, and the lines it shows as printed. *)
Definition bound_sockets (t : list event) : list (pyval * pyval) :=
  omap (fun ev => match ev with EvListen host port => Some (host, port) | _ => None end) t.

Definition printed (t : list event) : list str :=
  omap (fun ev => match ev with EvPrint line => Some line | _ => None end) t.

(** Every fault of [bind] is an [Exception], as [OSError] and its
    subclasses are. *)
Definition bind_faults_are_exceptions (e : environment) : Prop :=
  forall host port t x, bind_fault e host port t = Some x -> is_Exception x = true.

(** An environment where the peer is gone by the time of the first
    drain: every [drain] raises [ConnectionResetError]. *)
Definition ECONNRESET : exn := Exn ConnectionResetError "Connection lost".

Definition reset_on_drain : environment :=
  Environment Scenario.no_names Scenario.stamps (fun _ => Some ECONNRESET) (fun _ => None)
    (fun _ _ _ => None) (fun _ _ _ => None) (fun _ _ => None) (fun _ => false)
    (fun _ _ => None) (fun _ _ _ => None) (fun _ _ => lit "('0.0.0.0', 0)").

(** The sink of a logger takes every record, or refuses every record
    with the same exception, in a given environment. *)
Definition sink_accepts (e : environment) (logger : pyval) : Prop :=
  forall record w0, env w0 = e -> sink_fault logger record w0 = None.

Definition sink_refuses (e : environment) (logger : pyval) (x : exn) : Prop :=
  forall record w0, env w0 = e -> sink_fault logger record w0 = Some x.

(** The contexts the HTTP and the banner handler log with. *)
Definition http_ctx (ctx : gmap string pyval) (host port : pyval) : gmap string pyval :=
  <["service" := VStr (lit "http")]> (<["peer_port" := port]> (<["peer" := host]> ctx)).

Definition banner_ctx (ctx : gmap string pyval) (host port : pyval) : gmap string pyval :=
  <["service" := VStr (lit "banner")]> (<["peer_port" := port]> (<["peer" := host]> ctx)).

(** The chunks a peer delivers before its stream ends: the entries of
    the script up to the first empty read or transport error. *)
Fixpoint received (script : list read_event) : list bytes :=
  match script with
  | ReadEvent _ (Ok data) :: rest => if nonempty data then data :: received rest else []
  | _ => []
  end.

Definition not_callable (v : pyval) : exn :=
  Exn TypeError ("'" +:+ type_name v +:+ "' object is not callable").

(** What may follow an octal escape of fewer than three digits: the end
    of the text, or a byte that is not an octal digit. *)
Definition no_octal_head (rest : bytes) : Prop :=
  match rest with
  | [] => True
  | b :: _ => is_octal_digit (Byte.to_N b) = false
  end.

(** What a peer receives for characters below 2048: those below 128 as
    one byte, the others as the two bytes of their UTF-8 encoding. *)
Definition short_utf8 (c : N) : bytes :=
  if c <? 128 then [byte_of_N c]
  else [byte_of_N (192 + c / 64); byte_of_N (128 + c mod 64)].

Definition as_sent_utf8 (names : bytes -> option N) (items : list banner_item) : bytes :=
  flat_map short_utf8 (flat_map (item_chars names) items).

(** * Properties *)

(** ** The monad *)

Section Monad.
Context {A B : Type}.
Implicit Types (m : M A) (f : A -> M B) (w : world).

Lemma bind_ok m f w a w' : m w = (Ok a, w') -> (m ≫= f) w = f a w'.
Proof. intros H. unfold mbind, M_bind. now rewrite H. Qed.

Lemma bind_raise m f w e w' : m w = (Raise e, w') -> (m ≫= f) w = (Raise e, w').
Proof. intros H. unfold mbind, M_bind. now rewrite H. Qed.

Lemma bind_lift_ok (a : A) f w : (lift (Ok a) ≫= f) w = f a w.
Proof. reflexivity. Qed.

Lemma bind_lift_raise e f w : (lift (Raise e : result A) ≫= f) w = (Raise e, w).
Proof. reflexivity. Qed.

Lemma bind_ret (a : A) f w : (mret a ≫= f) w = f a w.
Proof. reflexivity. Qed.

End Monad.

(** ** Codecs *)

Lemma utf8_error_replace_ok rest :
  (exists s, rest = Ok s) -> exists s, utf8_error Replace rest = Ok s.
Proof. intros [s ->]. simpl. eauto. Qed.

(** Decoding with [errors="replace"] never fails, whatever the bytes and
    wherever the decoder stands. *)
Lemma utf8_decode_from_replace_total data :
  forall pending, exists s, utf8_decode_from Replace pending data = Ok s.
Proof.
  induction data as [|b rest IH]; intros pending.
  - destruct pending; simpl; eauto.
  - assert (Hfresh : exists s,
      match utf8_lead (Byte.to_N b) with
      | U8Char c => result_map (cons c) (utf8_decode_from Replace None rest)
      | U8Lead more bits lo hi => utf8_decode_from Replace (Some (more, bits, lo, hi)) rest
      | U8Bad => utf8_error Replace (utf8_decode_from Replace None rest)
      end = Ok s).
    { destruct (utf8_lead (Byte.to_N b)) as [c|more bits lo hi|].
      - destruct (IH None) as [s ->]. simpl. eauto.
      - apply IH.
      - apply utf8_error_replace_ok, IH. }
    destruct pending as [[[[more bits] lo] hi]|]; simpl.
    + destruct ((lo <=? Byte.to_N b) && (Byte.to_N b <=? hi)).
      * destruct more.
        -- destruct (IH None) as [s ->]. simpl. eauto.
        -- apply IH.
      * apply utf8_error_replace_ok, Hfresh.
    + apply Hfresh.
Qed.

Lemma utf8_decode_replace_total data : exists s, utf8_decode Replace data = Ok s.
Proof. apply utf8_decode_from_replace_total. Qed.

(** An ASCII byte at a character boundary is the character itself. *)
Lemma utf8_decode_from_ascii p b rest :
  Byte.to_N b < 128 ->
  utf8_decode_from p None (b :: rest)
  = result_map (cons (Byte.to_N b)) (utf8_decode_from p None rest).
Proof.
  intros H. cbn [utf8_decode_from]. unfold utf8_lead.
  destruct (N.ltb_spec (Byte.to_N b) 128); [reflexivity | lia].
Qed.

(** [binascii.hexlify(b).decode()] is the lowercase hexadecimal text. *)
Lemma hexlify_byte_decode b rest :
  utf8_decode_from Strict None
    (hex_digit (Byte.to_N b / 16) :: hex_digit (Byte.to_N b mod 16) :: rest)
  = result_map (fun s => hex_char (Byte.to_N b / 16) :: hex_char (Byte.to_N b mod 16) :: s)
      (utf8_decode_from Strict None rest).
Proof.
  destruct b;
    rewrite !utf8_decode_from_ascii by (vm_compute; reflexivity);
    (destruct (utf8_decode_from Strict None rest); reflexivity).
Qed.

Lemma hexlify_decode data :
  utf8_decode Strict (hexlify data) = Ok (lowercase_hex data).
Proof.
  unfold utf8_decode.
  induction data as [|b rest IH]; [reflexivity|].
  change (hexlify (b :: rest))
    with (hex_digit (Byte.to_N b / 16) :: hex_digit (Byte.to_N b mod 16) :: hexlify rest).
  rewrite hexlify_byte_decode, IH. reflexivity.
Qed.

(** The hexadecimal text determines the bytes. *)
Lemma unhexlify_lowercase_hex data : unhexlify (lowercase_hex data) = Some data.
Proof.
  induction data as [|b rest IH]; [reflexivity|].
  change (lowercase_hex (b :: rest))
    with (hex_char (Byte.to_N b / 16) :: hex_char (Byte.to_N b mod 16) :: lowercase_hex rest).
  cbn [unhexlify]. rewrite IH.
  destruct b; reflexivity.
Qed.

(** ** The recorder *)

Lemma may_fail_then_emit fault ev w :
  (may_fail fault;; emit ev) w =
  match fault (env w) (trace w) with
  | Some e => (Raise e, w)
  | None => (Ok tt, with_trace (trace w ++ [ev]) w)
  end.
Proof.
  unfold mbind, M_bind, may_fail, emit.
  destruct (fault (env w) (trace w)); reflexivity.
Qed.

Lemma deliver_outcome logger record w :
  deliver logger record w = delivered logger record w.
Proof.
  unfold deliver, delivered, sink_fault, sink_event, py_call, append_jsonl.
  destruct logger as [| | | | | | | |[filename|id]]; cbn [py_callable];
    apply may_fail_then_emit.
Qed.

Lemma py_call_callable c record w :
  py_call (VCallable c) record w = delivered (VCallable c) record w.
Proof. rewrite <- deliver_outcome. reflexivity. Qed.

Lemma interaction_record_fields ctx ts role data text :
  interaction_record ctx ts role data text !! "raw_hex" = Some (VStr (lowercase_hex data))
  /\ interaction_record ctx ts role data text !! "raw_text" = Some (VStr text)
  /\ interaction_record ctx ts role data text !! "role" = Some (VStr role).
Proof. unfold interaction_record. repeat split; by simplify_map_eq. Qed.

(** [log_interaction] reads the clock once, builds the record, and hands it
    to the sink: nothing else happens, and nothing else can fail. *)
Lemma log_interaction_outcome ctx role data w :
  exists text,
    utf8_decode Replace data = Ok text /\
    log_interaction ctx role data w =
      delivered (dict_get ctx "logger" VNone)
        (interaction_record ctx (clock (env w) (ticks w)) role data text)
        (with_ticks (S (ticks w)) w).
Proof.
  destruct (utf8_decode_replace_total data) as [text Htext].
  exists text. split; [exact Htext|].
  rewrite <- deliver_outcome.
  unfold log_interaction.
  erewrite bind_ok by reflexivity.
  rewrite hexlify_decode, bind_lift_ok.
  erewrite bind_ok.
  2:{ unfold try_except. rewrite Htext, bind_lift_ok. reflexivity. }
  unfold deliver.
  replace (<["raw_text":=VStr text]> _) with
    (interaction_record ctx (clock (env w) (ticks w)) role data text); [reflexivity|].
  unfold interaction_record.
  generalize (dict_get ctx "peer" VNone) (dict_get ctx "peer_port" VNone)
    (dict_get ctx "service" VNone) (clock (env w) (ticks w)) (lowercase_hex data).
  intros. vm_compute. reflexivity.
Qed.

(** C10. Whatever the bytes, the record [log_interaction] hands to its sink
    has [raw_hex] equal to the lowercase hexadecimal encoding of exactly
    those bytes (the text reads back as the same bytes) and [raw_text]
    equal to a string, the UTF-8 decoding with replacement characters,
    which never fails: [raw_text] is never left at [None]. *)
Theorem log_interaction_raw_fields ctx role data w :
  exists record text,
    log_interaction ctx role data w =
      delivered (dict_get ctx "logger" VNone) record (with_ticks (S (ticks w)) w)
    /\ record !! "raw_hex" = Some (VStr (lowercase_hex data))
    /\ unhexlify (lowercase_hex data) = Some data
    /\ utf8_decode Replace data = Ok text
    /\ record !! "raw_text" = Some (VStr text).
Proof.
  destruct (log_interaction_outcome ctx role data w) as (text & Htext & Hrun).
  exists (interaction_record ctx (clock (env w) (ticks w)) role data text), text.
  destruct (interaction_record_fields ctx (clock (env w) (ticks w)) role data text)
    as (Hhex & Hraw & _).
  auto using unhexlify_lowercase_hex.
Qed.

(** C2, as stated, fails: with a sink that raises, [log_interaction]
    raises the sink's exception to its caller. *)
Lemma log_interaction_raises_with_broken_sink :
  fst (log_interaction {[ "logger" := Scenario.sink ]} (lit "client") (blit "ping")
         (Scenario.connection Scenario.full_disk Scenario.peer []))
  = Raise Scenario.ENOSPC
  /\ fst (log_interaction ∅ (lit "client") (blit "ping")
         (Scenario.connection Scenario.full_disk Scenario.peer []))
  = Raise Scenario.ENOSPC.
Proof. split; vm_compute; reflexivity. Qed.

(** C2, amended. For every context, role and byte string,
    [log_interaction] returns normally exactly when its sink does: the
    callable logger, or the fallback append to [logs/interactions.jsonl]
    when the logger is not callable.  An exception raised by the sink
    reaches the caller unchanged; nothing else in [log_interaction] can
    raise. *)
Theorem log_interaction_returns_iff_sink_does ctx role data w :
  exists record,
    let logger := dict_get ctx "logger" VNone in
    let w1 := with_ticks (S (ticks w)) w in
    match sink_fault logger record w1 with
    | Some e => log_interaction ctx role data w = (Raise e, w1)
    | None =>
        log_interaction ctx role data w =
          (Ok tt, with_trace (trace w1 ++ [sink_event logger record]) w1)
    end.
Proof.
  destruct (log_interaction_outcome ctx role data w) as (text & _ & Hrun).
  exists (interaction_record ctx (clock (env w) (ticks w)) role data text).
  cbv zeta. rewrite Hrun. unfold delivered.
  destruct (sink_fault _ _ _); reflexivity.
Qed.

(** ** Traces *)

Lemma written_snoc t ev :
  written (t ++ [ev]) = written t ++ match ev with EvWrite d => [d] | _ => [] end.
Proof. unfold written. rewrite omap_app. destruct ev; reflexivity. Qed.

Lemma closed_snoc t ev :
  closed (t ++ [ev]) = closed t || match ev with EvClose => true | _ => false end.
Proof. unfold closed. rewrite existsb_app. destruct ev; reflexivity. Qed.

Lemma logged_snoc t ev :
  logged (t ++ [ev]) =
  logged t ++ match ev with EvCall _ r | EvAppend _ r => [r] | _ => [] end.
Proof. unfold logged. rewrite omap_app. destruct ev; reflexivity. Qed.

Lemma logged_app t1 t2 : logged (t1 ++ t2) = logged t1 ++ logged t2.
Proof. apply omap_app. Qed.

Lemma written_app t1 t2 : written (t1 ++ t2) = written t1 ++ written t2.
Proof. apply omap_app. Qed.

Lemma closed_app t1 t2 : closed (t1 ++ t2) = closed t1 || closed t2.
Proof. apply existsb_app. Qed.

Lemma same_wire_refl w : same_wire w w.
Proof. split; reflexivity. Qed.

Lemma same_wire_trans w1 w2 w3 : same_wire w1 w2 -> same_wire w2 w3 -> same_wire w1 w3.
Proof. intros [H1 H2] [H3 H4]. split; congruence. Qed.

Lemma sink_event_quiet logger record w :
  same_wire w (with_trace (trace w ++ [sink_event logger record]) w).
Proof.
  split; cbn [trace with_trace]; [rewrite written_snoc | rewrite closed_snoc];
    destruct logger as [| | | | | | | |[filename|id]]; cbn [sink_event];
    rewrite ?app_nil_r, ?orb_false_r; reflexivity.
Qed.

Lemma delivered_same_wire logger record w :
  same_wire w (snd (delivered logger record w)).
Proof.
  unfold delivered. destruct (sink_fault logger record w); cbn [snd].
  - apply same_wire_refl.
  - apply sink_event_quiet.
Qed.

Lemma log_interaction_same_wire ctx role data w :
  same_wire w (snd (log_interaction ctx role data w)).
Proof.
  destruct (log_interaction_outcome ctx role data w) as (text & _ & ->).
  eapply same_wire_trans; [|apply delivered_same_wire].
  split; reflexivity.
Qed.

Lemma await_same_wire a w : same_wire w (snd (await a w)).
Proof.
  destruct a. unfold await.
  destruct (incoming w) as [|[d [data|e]] rest]; cbn [snd];
    split; cbn [trace with_trace with_incoming];
    rewrite ?written_snoc, ?closed_snoc, ?app_nil_r, ?orb_false_r; reflexivity.
Qed.

Lemma wait_for_same_wire a timeout w : same_wire w (snd (wait_for a timeout w)).
Proof.
  unfold wait_for.
  destruct (incoming w) as [|[d o] rest] eqn:E; [apply await_same_wire|].
  destruct (timeout <? d); [|apply await_same_wire].
  split; cbn [snd trace with_trace with_incoming];
    rewrite ?written_snoc, ?closed_snoc, ?app_nil_r, ?orb_false_r; reflexivity.
Qed.

(** ** The peer address inside the handlers *)

Lemma set_peer_pure ctx w : snd (set_peer ctx w) = w.
Proof.
  unfold set_peer, get_extra_info. cbn [String.eqb Ascii.eqb Bool.eqb].
  unfold mbind, M_bind, gets, lift.
  destruct (py_getitem (peername w) 0); [|reflexivity].
  destruct (truthy (peername w)); [|reflexivity].
  destruct (py_getitem (peername w) 1); reflexivity.
Qed.

Lemma set_peer_none ctx w :
  peername w = VNone -> set_peer ctx w = (Raise not_subscriptable, w).
Proof.
  intros H. unfold set_peer, get_extra_info. cbn [String.eqb Ascii.eqb Bool.eqb].
  unfold mbind, M_bind, gets, lift. rewrite H. reflexivity.
Qed.

Lemma set_peer_address ctx w host port more :
  peername w = VTuple (host :: port :: more) ->
  set_peer ctx w = (Ok (<["peer_port" := port]> (<["peer" := host]> ctx)), w).
Proof.
  intros H. unfold set_peer, get_extra_info. cbn [String.eqb Ascii.eqb Bool.eqb].
  unfold mbind, M_bind, gets, lift. rewrite H. reflexivity.
Qed.

(** ** The HTTP handler *)

(** [http_handler] up to the statement that builds the response:
    [HTTP_RESPONSE] is a [bytes] literal, and [bytes] has no [format]. *)
Lemma http_handler_unfold ctx w :
  http_handler ctx w =
  match set_peer ctx w with
  | (Raise e, w1) => (Raise e, w1)
  | (Ok ctx1, w1) =>
      match try_except is_TimeoutError (wait_for (reader_read 4096) 3000)
              (fun _ => mret []) w1 with
      | (Raise e, w2) => (Raise e, w2)
      | (Ok data, w2) =>
          match (if nonempty data
                 then log_interaction (<["service" := VStr (lit "http")]> ctx1) (lit "client") data
                 else mret tt) w2 with
          | (Raise e, w3) => (Raise e, w3)
          | (Ok _, w3) => (Raise no_format, w3)
          end
      end
  end.
Proof.
  unfold http_handler, mbind, M_bind.
  destruct (set_peer ctx w) as [[ctx1|e] w1]; [|reflexivity].
  destruct (try_except _ _ _ w1) as [[data|e] w2]; [|reflexivity].
  destruct (nonempty data); [|reflexivity].
  destruct (log_interaction _ _ data w2) as [[[]|e] w3]; reflexivity.
Qed.

Lemma guarded_read_same_wire n timeout w :
  same_wire w (snd (try_except is_TimeoutError (wait_for (reader_read n) timeout)
                      (fun _ => mret []) w)).
Proof.
  pose proof (wait_for_same_wire (reader_read n) timeout w) as H.
  unfold try_except.
  destruct (wait_for (reader_read n) timeout w) as [[data|e] w']; [exact H|].
  destruct (is_TimeoutError e); exact H.
Qed.

Lemma http_handler_outcome ctx w :
  exists e w', http_handler ctx w = (Raise e, w') /\ same_wire w w'.
Proof.
  rewrite http_handler_unfold.
  pose proof (set_peer_pure ctx w) as Hpeer.
  destruct (set_peer ctx w) as [[ctx1|e] w1]; cbn [snd] in Hpeer; subst w1.
  2:{ exists e, w. split; [reflexivity | apply same_wire_refl]. }
  pose proof (guarded_read_same_wire 4096 3000 w) as Hread.
  destruct (try_except _ _ _ w) as [[data|e] w2]; cbn [snd] in Hread.
  2:{ exists e, w2. split; [reflexivity|exact Hread]. }
  assert (Hlog : same_wire w2
            (snd ((if nonempty data
                   then log_interaction (<["service" := VStr (lit "http")]> ctx1) (lit "client") data
                   else mret tt) w2))).
  { destruct (nonempty data); [apply log_interaction_same_wire | apply same_wire_refl]. }
  destruct (nonempty data).
  - destruct (log_interaction _ _ data w2) as [[[]|e] w3]; cbn [snd] in Hlog;
      eexists _, w3; (split; [reflexivity | exact (same_wire_trans _ _ _ Hread Hlog)]).
  - eexists _, w2. split; [reflexivity | exact Hread].
Qed.

(** C1 (the code misses the claim). On no connection does [http_handler]
    answer: whatever the peer, the script and the environment, it ends
    by raising, and it has written nothing to the peer and has not closed
    the writer. *)
Theorem http_handler_never_responds ctx w :
  exists e w',
    http_handler ctx w = (Raise e, w')
    /\ written (trace w') = written (trace w)
    /\ closed (trace w') = closed (trace w).
Proof.
  destruct (http_handler_outcome ctx w) as (e & w' & Hrun & Hwritten & Hclosed).
  exists e, w'. repeat split; assumption.
Qed.

(** The silent client of the specification's HTTP scenario: the handler
    raises [AttributeError] once the read has timed out. *)
Example http_handler_silent_client :
  http_handler ∅ (Scenario.connection Scenario.calm Scenario.peer Scenario.silent)
  = (Raise no_format,
     World Scenario.calm Scenario.peer [ReadEvent 57000 (Ok [])] 0 [EvTimeout]).
Proof. vm_compute. reflexivity. Qed.

(** Had the template been text, [format] would have worked, but the
    answer would still not be framed as announced: the template ends its
    lines with LF alone and puts one more LF after the body, so that 79
    bytes follow the blank line while [Content-Length] says 78. *)
Example http_response_as_text :
  str_format_from {[ "length" := VInt (Z.of_nat (List.length http_body)); "body" := VStr http_body ]}
    None (List.map Byte.to_N HTTP_RESPONSE)
  = Ok (lit "HTTP/1.1 200 OK
Content-Type: text/html; charset=utf-8
Content-Length: 78

" ++ http_body ++ [10])
  /\ List.length http_body = 78%nat.
Proof. vm_compute. auto. Qed.

(** C4 (the code misses the claim). When the transport reports no peer
    address, every handler raises [TypeError] at its second statement,
    before it has done anything else: [peer[0]] is evaluated whether or
    not [peer] is [None]. *)
Theorem handlers_raise_without_peername ctx banner echo w :
  peername w = VNone ->
  http_handler ctx w = (Raise not_subscriptable, w)
  /\ banner_handler ctx banner w = (Raise not_subscriptable, w)
  /\ generic_tcp_handler ctx echo w = (Raise not_subscriptable, w).
Proof.
  intros H. pose proof (set_peer_none ctx w H) as Hpeer.
  unfold http_handler, banner_handler, generic_tcp_handler.
  repeat split; apply bind_raise, Hpeer.
Qed.

Lemma handlers_raise_without_peername_witness :
  let w := Scenario.connection Scenario.calm VNone Scenario.ping in
  http_handler ∅ w = (Raise not_subscriptable, w)
  /\ banner_handler ∅ (blit "hello") w = (Raise not_subscriptable, w)
  /\ generic_tcp_handler ∅ true w = (Raise not_subscriptable, w).
Proof. apply handlers_raise_without_peername. reflexivity. Defined.

(** The supervisor itself treats the missing address as the claim says:
    the handler is started with [peer] and [peer_port] set to [None]. *)
Lemma client_connected_without_peername logger port name handler w :
  peername w = VNone ->
  client_connected logger port name handler w =
  try_except is_Exception
    (handler (<["peer_port" := VNone]> (<["peer" := VNone]> {[ "logger" := logger ]})))
    (fun e =>
       ts ← utcnow_isoformat;
       py_call logger
         {[ "ts" := VStr ts;
            "event" := VStr (lit "handler_exception");
            "port" := port;
            "handler" := name;
            "error" := VStr (lit (exn_str e)) ]}) w.
Proof.
  intros H. unfold client_connected, get_extra_info. cbn [String.eqb Ascii.eqb Bool.eqb].
  erewrite bind_ok by reflexivity. rewrite H. reflexivity.
Qed.

(** ** Closing the writer *)

Lemma py_call_same_wire f record w : same_wire w (snd (py_call f record w)).
Proof.
  destruct f as [| | | | | | | |c];
    try (cbn [py_call]; apply same_wire_refl).
  rewrite py_call_callable. apply delivered_same_wire.
Qed.

(** C3 (the code misses the claim). A connection served by [http_handler]
    leaves the supervisor with its writer as it was: the handler raises
    before [writer.close()], and [client_connected] records the exception
    but closes nothing. *)
Theorem http_connection_never_closed logger port name w :
  closed (trace (snd (client_connected logger port name http_handler w))) = closed (trace w).
Proof.
  unfold client_connected, get_extra_info. cbn [String.eqb Ascii.eqb Bool.eqb].
  erewrite bind_ok by reflexivity.
  set (ctx0 := {[ "logger" := logger ]} : gmap string pyval).
  assert (Hctx : exists r,
    (if truthy (peername w)
     then first ← lift (py_getitem (peername w) 0);
          second ← lift (py_getitem (peername w) 1);
          mret (<["peer_port" := second]> (<["peer" := first]> ctx0))
     else mret (<["peer_port" := VNone]> (<["peer" := VNone]> ctx0))) w = (r, w)).
  { destruct (truthy (peername w)); [|eexists; reflexivity].
    unfold mbind, M_bind, lift.
    destruct (py_getitem (peername w) 0); [|eexists; reflexivity].
    destruct (py_getitem (peername w) 1); eexists; reflexivity. }
  destruct Hctx as [[ctx|e] Hctx].
  2:{ erewrite bind_raise by exact Hctx. reflexivity. }
  erewrite bind_ok by exact Hctx.
  destruct (http_handler_outcome ctx w) as (e & w' & Hrun & _ & Hclosed).
  unfold try_except. rewrite Hrun.
  destruct (is_Exception e); [|exact Hclosed].
  erewrite bind_ok by reflexivity.
  rewrite <- Hclosed.
  apply (py_call_same_wire logger _ (with_ticks (S (ticks w')) w')).
Qed.

Lemma cleanup_closes w :
  exists w',
    (writer_close;; try_except bare writer_wait_closed pass) w = (Ok tt, w')
    /\ closed (trace w') = true.
Proof.
  unfold writer_close, writer_wait_closed, try_except, mbind, M_bind, emit, may_fail, pass.
  cbn [env trace with_trace].
  destruct (wait_closed_fault (env w) (trace w ++ [EvClose])); cbn [bare];
    eexists; (split; [reflexivity|]); cbn [trace with_trace];
    rewrite ?closed_snoc; cbn; rewrite ?orb_true_r; reflexivity.
Qed.

(** [banner_handler] closes on its normal way out only: when the read
    ends in a transport error, the writer is left open as well. *)
Example banner_connection_reset_left_open :
  let out := client_connected Scenario.sink (VInt 2222) (VStr (lit "banner"))
               (banner_h (VDict default_banner_listener))
               (Scenario.connection Scenario.calm Scenario.peer
                  [ReadEvent 5 (Raise (Exn ConnectionResetError "Connection reset by peer"))]) in
  fst out = Ok tt /\ closed (trace (snd out)) = false.
Proof. vm_compute. auto. Qed.

(** [generic_tcp_handler] does close on every way out of its loop, thanks
    to its [finally]; only the two statements before the [try] escape it. *)
Lemma generic_tcp_handler_closes ctx echo w host port more :
  peername w = VTuple (host :: port :: more) ->
  closed (trace (snd (generic_tcp_handler ctx echo w))) = true.
Proof.
  intros H. unfold generic_tcp_handler.
  erewrite bind_ok by (eapply set_peer_address; exact H).
  unfold try_finally.
  match goal with |- context [try_except ?c ?b ?h w] =>
    destruct (try_except c b h w) as [r w1] end.
  destruct (cleanup_closes w1) as (w2 & -> & Hclosed). exact Hclosed.
Qed.

(** ** Read deadlines *)

(** A read that exceeds its deadline counts as an empty read. *)
Lemma guarded_read_timeout n timeout w d o rest :
  incoming w = ReadEvent d o :: rest ->
  timeout < d ->
  try_except is_TimeoutError (wait_for (reader_read n) timeout) (fun _ => mret []) w
  = (Ok [], timed_out timeout w).
Proof.
  intros Hin Hlate. unfold try_except, wait_for, timed_out. rewrite Hin.
  destruct (N.ltb_spec timeout d); [reflexivity | lia].
Qed.

(** C7 (the code misses the claim for [http_handler]). When the read
    exceeds the three seconds, [http_handler] takes it as no data and
    emits no client record, but its next step, building the response,
    raises [AttributeError]: the handler does raise. *)
Theorem http_handler_raises_after_timeout ctx w host port more d o rest :
  peername w = VTuple (host :: port :: more) ->
  incoming w = ReadEvent d o :: rest ->
  3000 < d ->
  http_handler ctx w = (Raise no_format, timed_out 3000 w)
  /\ logged (trace (timed_out 3000 w)) = logged (trace w).
Proof.
  intros Hpeer Hin Hlate. split.
  - rewrite http_handler_unfold.
    erewrite set_peer_address by exact Hpeer.
    erewrite guarded_read_timeout by eassumption.
    reflexivity.
  - unfold timed_out. rewrite Hin. cbn [trace with_trace].
    rewrite logged_snoc. apply app_nil_r.
Qed.

Lemma http_handler_raises_after_timeout_witness :
  let w := Scenario.connection Scenario.calm Scenario.peer Scenario.silent in
  http_handler ∅ w = (Raise no_format, timed_out 3000 w)
  /\ logged (trace (timed_out 3000 w)) = logged (trace w).
Proof.
  eapply http_handler_raises_after_timeout; [reflexivity | reflexivity | reflexivity].
Defined.

(** ** Every step only adds to the trace *)

Lemma extends_refl w : extends w w.
Proof. exists []. symmetry. apply app_nil_r. Qed.

Lemma extends_same w w' : trace w' = trace w -> extends w w'.
Proof. intros H. exists []. rewrite H. symmetry. apply app_nil_r. Qed.

Lemma extends_trans w1 w2 w3 : extends w1 w2 -> extends w2 w3 -> extends w1 w3.
Proof.
  intros [l1 H1] [l2 H2]. exists (l1 ++ l2). rewrite H2, H1. symmetry. apply app_assoc.
Qed.

Lemma extends_snoc w ev w' : trace w' = trace w ++ [ev] -> extends w w'.
Proof. intros H. exists [ev]. exact H. Qed.

Lemma delivered_extends logger record w : extends w (snd (delivered logger record w)).
Proof.
  unfold delivered. destruct (sink_fault logger record w); cbn [snd].
  - apply extends_refl.
  - eapply extends_snoc. reflexivity.
Qed.

Lemma log_interaction_extends ctx role data w :
  extends w (snd (log_interaction ctx role data w)).
Proof.
  destruct (log_interaction_outcome ctx role data w) as (text & _ & ->).
  apply (delivered_extends _ _ (with_ticks (S (ticks w)) w)).
Qed.

Lemma py_call_extends f record w : extends w (snd (py_call f record w)).
Proof.
  destruct f as [| | | | | | | |c]; try (cbn [py_call]; apply extends_refl).
  rewrite py_call_callable. apply delivered_extends.
Qed.

Lemma await_extends a w : extends w (snd (await a w)).
Proof.
  destruct a. unfold await.
  destruct (incoming w) as [|[d [data|e]] rest]; cbn [snd].
  - eapply extends_snoc. reflexivity.
  - eapply extends_snoc. reflexivity.
  - apply extends_same. reflexivity.
Qed.

Lemma guarded_read_extends n timeout w :
  extends w (snd (try_except is_TimeoutError (wait_for (reader_read n) timeout)
                    (fun _ => mret []) w)).
Proof.
  assert (H : extends w (snd (wait_for (reader_read n) timeout w))).
  { unfold wait_for. destruct (incoming w) as [|[d o] rest]; [apply await_extends|].
    destruct (timeout <? d); [|apply await_extends].
    eapply extends_snoc. reflexivity. }
  unfold try_except.
  destruct (wait_for (reader_read n) timeout w) as [[data|e] w']; [exact H|].
  destruct (is_TimeoutError e); exact H.
Qed.

(** [writer.close()] followed by the guarded [wait_closed()] always
    returns, and the writer is closed. *)
Lemma cleanup_outcome w :
  exists tail,
    (writer_close;; try_except bare writer_wait_closed pass) w
    = (Ok tt, with_trace (trace w ++ EvClose :: tail) w)
    /\ logged tail = [] /\ written tail = [].
Proof.
  unfold writer_close, writer_wait_closed, try_except, mbind, M_bind, emit, may_fail, pass.
  cbn [env trace with_trace].
  destruct (wait_closed_fault (env w) (trace w ++ [EvClose])); cbn [bare].
  - exists []. auto.
  - exists [EvWaitClosed]. cbn [with_trace env peername incoming ticks trace].
    rewrite <- app_assoc. auto.
Qed.

(** ** The banner handler *)

(** The greeting, the first [try] of [banner_handler]: the banner is
    written first; the drain and the record may fail, silently. *)
Lemma greeting_outcome ctx banner w :
  exists n tail,
    try_except bare
      (writer_write banner;; writer_drain;; log_interaction ctx (lit "server") banner)
      pass w
    = (Ok tt, with_ticks n (with_trace (trace w ++ EvWrite banner :: tail) w))
    /\ written tail = [] /\ closed tail = false
    /\ Forall (fun r => r !! "role" = Some (VStr (lit "server"))) (logged tail).
Proof.
  unfold try_except, writer_write, writer_drain, mbind, M_bind, emit, may_fail.
  cbn [env trace with_trace].
  destruct (drain_fault (env w) (trace w ++ [EvWrite banner])) as [e|].
  { exists (ticks w), []. cbn [bare pass]. destruct w; cbn. auto. }
  cbn [env peername incoming ticks trace with_trace].
  match goal with |- context [log_interaction ctx ?r banner ?w1] =>
    destruct (log_interaction_outcome ctx r banner w1) as (text & _ & ->);
    set (record := interaction_record ctx (clock (env w1) (ticks w1)) r banner text);
    assert (Hrole : record !! "role" = Some (VStr r))
      by apply interaction_record_fields
  end.
  unfold delivered.
  destruct (sink_fault _ _ _) as [e|]; cbn [bare pass].
  - exists (S (ticks w)), [EvDrain]. destruct w; cbn. rewrite <- app_assoc. auto.
  - exists (S (ticks w)), [EvDrain; sink_event (dict_get ctx "logger" VNone) record].
    destruct w; cbn. rewrite <- !app_assoc.
    split; [reflexivity|].
    destruct (dict_get ctx "logger" VNone) as [| | | | | | | |[filename|id]];
      cbn; auto.
Qed.

(** Whatever happens afterwards, the first thing [banner_handler] does on
    a connection with a peer address is to write the banner. *)
Lemma banner_handler_writes_first ctx banner w host port more :
  peername w = VTuple (host :: port :: more) ->
  exists rest,
    trace (snd (banner_handler ctx banner w)) = trace w ++ EvWrite banner :: rest.
Proof.
  intros Hpeer. unfold banner_handler.
  erewrite bind_ok by (eapply set_peer_address; exact Hpeer).
  match goal with |- context [try_except bare ?b pass] =>
    destruct (greeting_outcome
                (<["service" := VStr (lit "banner")]>
                   (<["peer_port" := port]> (<["peer" := host]> ctx))) banner w)
      as (n & tail & Hgreet & _)
  end.
  erewrite bind_ok by exact Hgreet.
  set (w1 := with_ticks n (with_trace (trace w ++ EvWrite banner :: tail) w)).
  assert (Hgoal : forall w', extends w1 w' ->
            exists rest, trace w' = trace w ++ EvWrite banner :: rest).
  { intros w' [l Hl]. exists (tail ++ l). rewrite Hl. unfold w1. cbn [trace with_ticks with_trace].
    rewrite <- app_assoc. reflexivity. }
  apply Hgoal.
  pose proof (guarded_read_extends 2048 10000 w1) as Hread.
  destruct (try_except is_TimeoutError _ _ w1) as [[data|e] w2] eqn:Eread; cbn [snd] in Hread.
  2:{ erewrite bind_raise by exact Eread. exact Hread. }
  erewrite bind_ok by exact Eread.
  assert (Hlog : exists r w3,
    (if nonempty data
     then log_interaction (<["service" := VStr (lit "banner")]>
            (<["peer_port" := port]> (<["peer" := host]> ctx))) (lit "client") data
     else mret tt) w2 = (r, w3) /\ extends w2 w3).
  { destruct (nonempty data).
    - pose proof (log_interaction_extends (<["service" := VStr (lit "banner")]>
            (<["peer_port" := port]> (<["peer" := host]> ctx))) (lit "client") data w2) as H.
      destruct (log_interaction _ _ data w2) as [r w3]. eauto.
    - exists (Ok tt), w2. split; [reflexivity | apply extends_refl]. }
  destruct Hlog as ([[]|e] & w3 & Hlog & Hext).
  2:{ erewrite bind_raise by exact Hlog. cbn [snd]. eapply extends_trans; eassumption. }
  erewrite bind_ok by exact Hlog.
  destruct (cleanup_outcome w3) as (tail' & -> & _). cbn [snd].
  eapply extends_trans; [exact Hread|].
  eapply extends_trans; [exact Hext|].
  eexists. reflexivity.
Qed.

(** For [banner_handler] the deadline works as the specification says:
    the read that exceeds ten seconds counts as no data, no client record
    is written, and the handler closes the writer and returns. *)
Lemma banner_handler_returns_after_timeout ctx banner w host port more d o rest :
  peername w = VTuple (host :: port :: more) ->
  incoming w = ReadEvent d o :: rest ->
  10000 < d ->
  exists w' new,
    banner_handler ctx banner w = (Ok tt, w')
    /\ closed (trace w') = true
    /\ logged (trace w') = logged (trace w) ++ new
    /\ Forall (fun r => r !! "role" = Some (VStr (lit "server"))) new.
Proof.
  intros Hpeer Hin Hlate. unfold banner_handler.
  erewrite bind_ok by (eapply set_peer_address; exact Hpeer).
  destruct (greeting_outcome
              (<["service" := VStr (lit "banner")]>
                 (<["peer_port" := port]> (<["peer" := host]> ctx))) banner w)
    as (n & tail & Hgreet & _ & _ & Hroles).
  erewrite bind_ok by exact Hgreet.
  set (w1 := with_ticks n (with_trace (trace w ++ EvWrite banner :: tail) w)).
  erewrite bind_ok by (apply (guarded_read_timeout 2048 10000 w1 d o rest); [exact Hin | exact Hlate]).
  cbn [nonempty List.length Nat.eqb negb]. rewrite bind_ret.
  destruct (cleanup_outcome (timed_out 10000 w1)) as (tail' & -> & Hlogged & _).
  eexists _, (logged tail). split; [reflexivity|].
  unfold timed_out, w1. cbn [incoming with_ticks with_trace]. rewrite Hin.
  cbn [trace with_trace with_incoming with_ticks].
  split; [|split; [|exact Hroles]].
  - rewrite closed_app. cbn. apply orb_true_r.
  - change (EvClose :: tail') with ([EvClose] ++ tail').
    change (EvWrite banner :: tail) with ([EvWrite banner] ++ tail).
    rewrite !logged_app, Hlogged.
    change (logged [EvClose]) with (@nil (gmap string pyval)).
    change (logged [EvTimeout]) with (@nil (gmap string pyval)).
    change (logged [EvWrite banner]) with (@nil (gmap string pyval)).
    cbn [app]. rewrite !app_nil_r. reflexivity.
Qed.

(** ** The configured banner *)

Lemma to_N_byte_of_N n : n < 256 -> Byte.to_N (byte_of_N n) = n.
Proof.
  intros H. unfold byte_of_N. rewrite N.mod_small by exact H.
  destruct (Byte.of_N n) as [b|] eqn:E.
  - apply Byte.to_of_N. exact E.
  - apply Byte.of_N_None_iff in E. lia.
Qed.

Lemma utf8_encode_from_ascii s :
  Forall (fun c => c < 128) s ->
  forall pos, utf8_encode_from pos s = Ok (List.map byte_of_N s).
Proof.
  induction 1 as [|c s Hc _ IH]; intros pos; [reflexivity|].
  cbn [utf8_encode_from List.map]. unfold utf8_encode_char.
  destruct (N.ltb_spec c 128); [|lia].
  rewrite IH. reflexivity.
Qed.

Lemma utf8_encode_ascii s :
  Forall (fun c => c < 128) s -> utf8_encode s = Ok (List.map byte_of_N s).
Proof. intros H. apply utf8_encode_from_ascii, H. Qed.

Lemma forallb_Forall {A} (f : A -> bool) (P : A -> Prop) l :
  (forall x, f x = true -> P x) -> forallb f l = true -> Forall P l.
Proof.
  intros HP. induction l as [|x l IH]; cbn [forallb]; intros H; [constructor|].
  apply andb_prop in H as [Hx Hl]. constructor; auto.
Qed.

(** *** One step of the decoder for every kind of item *)

Lemma plain_step names c pos rest :
  c < 128 -> c <> 92 ->
  unicode_escape_from names EPlain pos (byte_of_N c :: rest)
  = result_map (cons c) (unicode_escape_from names EPlain (S pos) rest).
Proof.
  intros Hc Hb. cbn [unicode_escape_from].
  rewrite to_N_byte_of_N by lia.
  destruct (N.eqb_spec c 92); [contradiction | reflexivity].
Qed.

Lemma escape_step names e pos rest :
  unicode_escape_from names EPlain pos
    (byte_of_N 92 :: byte_of_N (escape_letter e) :: rest)
  = result_map (cons (escape_byte e)) (unicode_escape_from names EPlain (S (S pos)) rest).
Proof. destruct e; reflexivity. Qed.

Lemma continued_step names pos rest :
  unicode_escape_from names EPlain pos (byte_of_N 92 :: byte_of_N 10 :: rest)
  = unicode_escape_from names EPlain (S (S pos)) rest.
Proof. reflexivity. Qed.

Lemma starts_escape_false c :
  starts_escape c = false ->
  (c =? 10) = false /\ (c =? 92) = false /\ (c =? 39) = false /\ (c =? 34) = false
  /\ (c =? 97) = false /\ (c =? 98) = false /\ (c =? 102) = false /\ (c =? 110) = false
  /\ (c =? 114) = false /\ (c =? 116) = false /\ (c =? 118) = false /\ (c =? 120) = false
  /\ (c =? 117) = false /\ (c =? 85) = false /\ (c =? 78) = false
  /\ is_octal_digit c = false.
Proof.
  unfold starts_escape, is_octal_digit. cbn [existsb].
  intros H. apply orb_false_iff in H as [Hlist Hoctal].
  repeat (apply orb_false_iff in Hlist as [? Hlist]). repeat split; assumption.
Qed.

Lemma literal_step names c pos rest :
  c < 128 -> starts_escape c = false ->
  unicode_escape_from names EPlain pos (byte_of_N 92 :: byte_of_N c :: rest)
  = result_map (fun s => 92 :: c :: s) (unicode_escape_from names EPlain (S (S pos)) rest).
Proof.
  intros Hc H.
  change (unicode_escape_from names (EBackslash pos) (S pos) (byte_of_N c :: rest)
          = result_map (fun s => 92 :: c :: s)
              (unicode_escape_from names EPlain (S (S pos)) rest)).
  cbn [unicode_escape_from]. rewrite to_N_byte_of_N by lia.
  destruct (starts_escape_false c H)
    as (H1 & H2 & H3 & H4 & H5 & H6 & H7 & H8 & H9 & H10 & H11 & H12 & H13 & H14 & H15 & H16).
  rewrite H1, H2, H3, H4, H5, H6, H7, H8, H9, H10, H11, H12, H13, H14, H15, H16.
  reflexivity.
Qed.

Lemma hexdigit_char_ascii d : digit_value d < 16 -> hexdigit_char d < 128.
Proof.
  intros H. unfold hexdigit_char.
  destruct (digit_value d <? 10); [lia|]. destruct (digit_upper d); lia.
Qed.

Lemma hex_value_hexdigit d :
  digit_value d < 16 -> hex_value (hexdigit_char d) = Some (digit_value d).
Proof.
  destruct d as [v upper]. cbn [digit_value]. intros H.
  rewrite <- (N2Nat.id v). assert (Hk : (N.to_nat v < 16)%nat) by lia.
  revert Hk. generalize (N.to_nat v) as k. intros k Hk.
  do 16 (destruct k as [|k]; [destruct upper; reflexivity|]). lia.
Qed.

(** The digits of a hexadecimal escape, read one by one. *)
Lemma hex_loop names reason start rest digits :
  forall todo acc pos,
    List.length digits = S todo ->
    Forall (fun d => digit_value d < 16) digits ->
    fold_left (fun acc d => acc * 16 + digit_value d) digits acc <= MAX_UNICODE ->
    unicode_escape_from names (EHex reason (S todo) acc start) pos
      (List.map byte_of_N (List.map hexdigit_char digits) ++ rest)
    = result_map (cons (fold_left (fun acc d => acc * 16 + digit_value d) digits acc))
        (unicode_escape_from names EPlain (pos + S todo) rest).
Proof.
  induction digits as [|d digits IH]; intros todo acc pos Hlen Hok Hmax; [discriminate|].
  inversion Hok as [|? ? Hd Hrest]; subst.
  cbn [List.map app unicode_escape_from fold_left] in *.
  rewrite to_N_byte_of_N by (pose proof (hexdigit_char_ascii d Hd); lia).
  rewrite (hex_value_hexdigit d Hd). cbv zeta.
  destruct todo as [|todo].
  - destruct digits; [|discriminate]. cbn [fold_left List.map app] in *.
    destruct (N.ltb_spec MAX_UNICODE (acc * 16 + digit_value d)); [lia|].
    replace (pos + 1)%nat with (S pos) by lia. reflexivity.
  - rewrite (IH todo (acc * 16 + digit_value d) (S pos)) by (auto; cbn in Hlen; lia).
    replace (S pos + S todo)%nat with (pos + S (S todo))%nat by lia. reflexivity.
Qed.

Lemma hex_step names k digits pos rest :
  Nat.eqb (List.length digits) (hex_width k) = true ->
  forallb (fun d => digit_value d <? 16) digits = true ->
  hex_number digits <= MAX_UNICODE ->
  unicode_escape_from names EPlain pos
    (List.map byte_of_N (item_text (Hex k digits)) ++ rest)
  = result_map (cons (hex_number digits))
      (unicode_escape_from names EPlain (pos + List.length (item_text (Hex k digits))) rest).
Proof.
  intros Hlen Hok Hmax. apply Nat.eqb_eq in Hlen.
  assert (Hok' : Forall (fun d => digit_value d < 16) digits).
  { revert Hok. apply forallb_Forall. intros d. apply N.ltb_lt. }
  cbn [item_text List.map app List.length]. rewrite List.length_map, Hlen.
  destruct k; cbn [hex_letter hex_width] in *.
  - change (unicode_escape_from names (EHex "truncated \xXX escape" 2 0 pos) (S (S pos))
              (List.map byte_of_N (List.map hexdigit_char digits) ++ rest)
            = result_map (cons (hex_number digits))
                (unicode_escape_from names EPlain (pos + 4) rest)).
    rewrite (hex_loop names _ pos rest digits 1 0 (S (S pos)) Hlen Hok' Hmax).
    replace (S (S pos) + 2)%nat with (pos + 4)%nat by lia. reflexivity.
  - change (unicode_escape_from names (EHex "truncated \uXXXX escape" 4 0 pos) (S (S pos))
              (List.map byte_of_N (List.map hexdigit_char digits) ++ rest)
            = result_map (cons (hex_number digits))
                (unicode_escape_from names EPlain (pos + 6) rest)).
    rewrite (hex_loop names _ pos rest digits 3 0 (S (S pos)) Hlen Hok' Hmax).
    replace (S (S pos) + 4)%nat with (pos + 6)%nat by lia. reflexivity.
  - change (unicode_escape_from names (EHex "truncated \UXXXXXXXX escape" 8 0 pos) (S (S pos))
              (List.map byte_of_N (List.map hexdigit_char digits) ++ rest)
            = result_map (cons (hex_number digits))
                (unicode_escape_from names EPlain (pos + 10) rest)).
    rewrite (hex_loop names _ pos rest digits 7 0 (S (S pos)) Hlen Hok' Hmax).
    replace (S (S pos) + 8)%nat with (pos + 10)%nat by lia. reflexivity.
Qed.

Lemma octal_digit_char d : d < 8 -> is_octal_digit (48 + d) = true /\ 48 + d - 48 = d.
Proof.
  intros H. unfold is_octal_digit. split; [|lia].
  apply andb_true_intro. split; apply N.leb_le; lia.
Qed.

(** The digits of an octal escape after the first, read one by one. *)
Lemma octal_loop names rest digits :
  forall todo acc pos,
    (List.length digits <= todo)%nat ->
    Forall (fun d => d < 8) digits ->
    (List.length digits = todo \/ no_octal_head rest) ->
    unicode_escape_from names (EOctal todo acc) pos
      (List.map byte_of_N (List.map (fun d => 48 + d) digits) ++ rest)
    = result_map (cons (fold_left (fun acc d => acc * 8 + d) digits acc))
        (unicode_escape_from names EPlain (pos + List.length digits) rest).
Proof.
  induction digits as [|d digits IH]; intros todo acc pos Hlen Hok Hend.
  - cbn [List.map app fold_left List.length]. rewrite Nat.add_0_r.
    destruct rest as [|b rest]; [destruct todo; reflexivity|].
    cbn [unicode_escape_from]. destruct todo as [|todo]; [reflexivity|].
    destruct Hend as [Hend | Hend]; [discriminate|].
    cbn [no_octal_head] in Hend. rewrite Hend. reflexivity.
  - inversion Hok as [|? ? Hd Hrest]; subst.
    destruct todo as [|todo]; [cbn in Hlen; lia|].
    cbn [List.map app fold_left List.length unicode_escape_from].
    rewrite to_N_byte_of_N by lia.
    destruct (octal_digit_char d Hd) as [-> ->].
    rewrite (IH todo (acc * 8 + d) (S pos)).
    + replace (S pos + List.length digits)%nat with (pos + S (List.length digits))%nat by lia.
      reflexivity.
    + cbn in Hlen. lia.
    + exact Hrest.
    + destruct Hend as [Hend | Hend]; [left; cbn in Hend; lia | right; exact Hend].
Qed.

Lemma octal_first names d pos rest :
  d < 8 ->
  unicode_escape_from names EPlain pos (byte_of_N 92 :: byte_of_N (48 + d) :: rest)
  = unicode_escape_from names (EOctal 2 d) (S (S pos)) rest.
Proof.
  intros Hd. rewrite <- (N2Nat.id d). assert (Hk : (N.to_nat d < 8)%nat) by lia.
  revert Hk. generalize (N.to_nat d) as k. intros k Hk.
  do 8 (destruct k as [|k]; [reflexivity|]). lia.
Qed.

Lemma octal_step names digits pos rest :
  Nat.leb 1 (List.length digits) = true ->
  Nat.leb (List.length digits) 3 = true ->
  forallb (fun d => d <? 8) digits = true ->
  ((3 <= List.length digits)%nat \/ no_octal_head rest) ->
  unicode_escape_from names EPlain pos
    (List.map byte_of_N (item_text (Octal digits)) ++ rest)
  = result_map (cons (octal_number digits))
      (unicode_escape_from names EPlain (pos + List.length (item_text (Octal digits))) rest).
Proof.
  intros Hmin Hmax Hok Hend.
  apply Nat.leb_le in Hmin. apply Nat.leb_le in Hmax.
  assert (Hok' : Forall (fun d => d < 8) digits).
  { revert Hok. apply forallb_Forall. intros d. apply N.ltb_lt. }
  destruct digits as [|d digits]; [cbn in Hmin; lia|].
  inversion Hok' as [|? ? Hd Hrest]; subst.
  cbn [item_text List.map app List.length]. rewrite List.length_map.
  rewrite (octal_first names d pos _ Hd).
  rewrite (octal_loop names rest digits 2 d (S (S pos))).
  - replace (S (S pos) + List.length digits)%nat
      with (pos + S (S (List.length digits)))%nat by lia.
    reflexivity.
  - cbn in Hmax. lia.
  - exact Hrest.
  - destruct Hend as [Hend | Hend]; [left; cbn in Hend, Hmax; lia | right; exact Hend].
Qed.

(** The characters of a name, read one by one up to the closing brace. *)
Lemma name_loop names start c rest name :
  forall acc pos,
    Forall (fun ch => ch < 128 /\ ch <> 125) name ->
    acc ++ List.map byte_of_N name <> [] ->
    names (acc ++ List.map byte_of_N name) = Some c ->
    unicode_escape_from names (EName acc start) pos
      (List.map byte_of_N (name ++ [125]) ++ rest)
    = result_map (cons c)
        (unicode_escape_from names EPlain (pos + S (List.length name)) rest).
Proof.
  induction name as [|ch name IH]; intros acc pos Hok Hnonempty Hname.
  - cbn [List.map app List.length] in *. rewrite app_nil_r in *.
    cbn [unicode_escape_from].
    change (Byte.to_N (byte_of_N 125) =? 125) with true. cbv beta iota zeta.
    destruct acc as [|b acc]; [contradiction|].
    rewrite Hname. replace (pos + 1)%nat with (S pos) by lia. reflexivity.
  - inversion Hok as [|? ? [Hch Hbrace] Hrest]; subst.
    cbn [List.map app List.length unicode_escape_from].
    rewrite to_N_byte_of_N by lia.
    destruct (N.eqb_spec ch 125); [contradiction|].
    rewrite (IH (acc ++ [byte_of_N ch]) (S pos)).
    + replace (S pos + S (List.length name))%nat
        with (pos + S (S (List.length name)))%nat by lia.
      reflexivity.
    + exact Hrest.
    + rewrite <- app_assoc. exact Hnonempty.
    + rewrite <- app_assoc. exact Hname.
Qed.

Lemma name_step names name c pos rest :
  negb (Nat.eqb (List.length name) 0) = true ->
  forallb (fun ch => (ch <? 128) && negb (ch =? 125)) name = true ->
  names (List.map byte_of_N name) = Some c ->
  unicode_escape_from names EPlain pos
    (List.map byte_of_N (item_text (Named name)) ++ rest)
  = result_map (cons c)
      (unicode_escape_from names EPlain (pos + List.length (item_text (Named name))) rest).
Proof.
  intros Hlen Hok Hname.
  assert (Hok' : Forall (fun ch => ch < 128 /\ ch <> 125) name).
  { revert Hok. apply forallb_Forall. intros ch Hch.
    apply andb_prop in Hch as [H1 H2].
    apply N.ltb_lt in H1. apply negb_true_iff, N.eqb_neq in H2. auto. }
  cbn [item_text List.map app List.length].
  change (unicode_escape_from names (EName [] pos) (S (S (S pos)))
            (List.map byte_of_N (name ++ [125]) ++ rest)
          = result_map (cons c)
              (unicode_escape_from names EPlain
                 (pos + S (S (S (List.length (name ++ [125]))))) rest)).
  rewrite (name_loop names pos c rest name [] (S (S (S pos))) Hok').
  - rewrite List.length_app. cbn [List.length].
    replace (S (S (S pos)) + S (List.length name))%nat
      with (pos + S (S (S (List.length name + 1))))%nat by lia.
    reflexivity.
  - cbn [app]. destruct name; [discriminate Hlen | discriminate].
  - exact Hname.
Qed.

(** *** A whole banner text *)

Lemma item_text_ascii names it :
  item_ok names it = true -> Forall (fun c => c < 128) (item_text it).
Proof.
  destruct it as [c|e|k digits|digits|name|c|]; cbn [item_ok item_text]; intros H.
  - apply andb_prop in H as [H _]. apply N.ltb_lt in H. repeat constructor. exact H.
  - repeat constructor; destruct e; reflexivity.
  - apply andb_prop in H as [_ H]. constructor; [reflexivity|].
    constructor; [destruct k; reflexivity|].
    apply Forall_map. revert H. apply forallb_Forall.
    intros d Hd. apply hexdigit_char_ascii, N.ltb_lt, Hd.
  - apply andb_prop in H as [_ H]. constructor; [reflexivity|].
    apply Forall_map. revert H. apply forallb_Forall.
    intros d Hd. apply N.ltb_lt in Hd. cbn. lia.
  - apply andb_prop in H as [H _]. apply andb_prop in H as [_ H].
    do 3 (constructor; [reflexivity|]).
    apply Forall_app. split; [|repeat constructor].
    revert H. apply forallb_Forall.
    intros c Hc. apply andb_prop in Hc as [Hc _]. apply N.ltb_lt, Hc.
  - apply andb_prop in H as [H _]. apply N.ltb_lt in H. repeat constructor. exact H.
  - repeat constructor.
Qed.

Lemma as_configured_ascii bound names items :
  banner_items_ok bound names items = true -> Forall (fun c => c < 128) (as_configured items).
Proof.
  induction items as [|it items IH]; intros H; [constructor|].
  cbn [banner_items_ok] in H.
  apply andb_prop in H as [H Hrest]. apply andb_prop in H as [H _].
  apply andb_prop in H as [Hit _].
  change (as_configured (it :: items)) with (item_text it ++ as_configured items).
  apply Forall_app. split; [exact (item_text_ascii names it Hit) | exact (IH Hrest)].
Qed.

Lemma item_values_below bound names items :
  banner_items_ok bound names items = true ->
  Forall (fun c => c < bound) (flat_map (item_chars names) items).
Proof.
  induction items as [|it items IH]; intros H; [constructor|].
  cbn [banner_items_ok] in H.
  apply andb_prop in H as [H Hrest]. apply andb_prop in H as [H _].
  apply andb_prop in H as [_ Hvalues].
  cbn [flat_map]. apply Forall_app. split; [|exact (IH Hrest)].
  revert Hvalues. apply forallb_Forall. intros c. apply N.ltb_lt.
Qed.

(** The text after an octal escape that could take more digits does not
    begin with one. *)
Lemma octal_ends_head bound names digits rest :
  octal_ends (Octal digits) rest = true ->
  banner_items_ok bound names rest = true ->
  (3 <= List.length digits)%nat
  \/ no_octal_head (List.map byte_of_N (as_configured rest)).
Proof.
  intros Hends Hrest.
  destruct rest as [|it rest]; [right; exact I|].
  cbn [banner_items_ok] in Hrest.
  apply andb_prop in Hrest as [Hrest _]. apply andb_prop in Hrest as [Hrest _].
  apply andb_prop in Hrest as [Hit _].
  destruct it as [c|e|k ds|ds|name|c|]; cbn [octal_ends] in Hends;
    try (right; reflexivity).
  apply orb_true_iff in Hends as [Hlong | Hdigit].
  - left. apply Nat.leb_le, Hlong.
  - right. cbn [item_ok] in Hit. apply andb_prop in Hit as [Hc _]. apply N.ltb_lt in Hc.
    change (is_octal_digit (Byte.to_N (byte_of_N c)) = false).
    rewrite to_N_byte_of_N by lia. apply negb_true_iff, Hdigit.
Qed.

(** Decoding the configured text gives, item by item, the characters the
    items stand for. *)
Lemma unicode_escape_items bound names items :
  bound <= 1114112 ->
  banner_items_ok bound names items = true ->
  forall pos,
    unicode_escape_from names EPlain pos (List.map byte_of_N (as_configured items))
    = Ok (flat_map (item_chars names) items).
Proof.
  intros Hbound.
  induction items as [|it items IH]; intros H pos; [reflexivity|].
  pose proof H as Hall.
  cbn [banner_items_ok] in H.
  apply andb_prop in H as [H Hrest]. apply andb_prop in H as [H Hends].
  apply andb_prop in H as [Hit Hvalues].
  specialize (IH Hrest).
  change (as_configured (it :: items)) with (item_text it ++ as_configured items).
  rewrite List.map_app. cbn [flat_map].
  destruct it as [c|e|k digits|digits|name|c|]; cbn [item_ok item_chars] in *.
  - apply andb_prop in Hit as [Hc Hb].
    apply N.ltb_lt in Hc. apply negb_true_iff, N.eqb_neq in Hb.
    cbn [item_text List.map app]. rewrite plain_step, IH by assumption. reflexivity.
  - cbn [item_text List.map app]. rewrite escape_step, IH. reflexivity.
  - apply andb_prop in Hit as [Hlen Hdigits].
    cbn [forallb] in Hvalues. apply andb_prop in Hvalues as [Hvalue _].
    apply N.ltb_lt in Hvalue.
    rewrite hex_step, IH by (try assumption; unfold MAX_UNICODE; lia). reflexivity.
  - apply andb_prop in Hit as [Hlen Hdigits]. apply andb_prop in Hlen as [Hmin Hmax].
    rewrite octal_step, IH;
      [reflexivity | assumption | assumption | assumption
      | exact (octal_ends_head bound names digits items Hends Hrest)].
  - apply andb_prop in Hit as [Hit Hknown]. apply andb_prop in Hit as [Hlen Hchars].
    destruct (names (List.map byte_of_N name)) as [c|] eqn:Hname; [|discriminate].
    rewrite (name_step names name c), IH by assumption. reflexivity.
  - apply andb_prop in Hit as [Hc Hstart].
    apply N.ltb_lt in Hc. apply negb_true_iff in Hstart.
    cbn [item_text List.map app]. rewrite literal_step, IH by assumption. reflexivity.
  - cbn [item_text List.map app]. rewrite continued_step, IH. reflexivity.
Qed.

(** Escape sequences in the configured banner become the bytes they stand
    for, and plain characters stay what they are. *)
Lemma configured_banner_items names d items :
  d !! "banner" = Some (VStr (as_configured items)) ->
  banner_items_ok 128 names items = true ->
  configured_banner names (VDict d) = Ok (as_sent names items).
Proof.
  intros Hd H. unfold configured_banner, py_get, dict_get. rewrite Hd.
  cbn [default from_option id py_encode].
  rewrite (utf8_encode_ascii _ (as_configured_ascii _ _ _ H)).
  unfold unicode_escape_decode. rewrite (unicode_escape_items 128 names items) by (auto; lia).
  rewrite (utf8_encode_ascii _ (item_values_below _ _ _ H)).
  reflexivity.
Qed.

(** ** The supervisor *)

Lemma client_connected_address logger port name handler w peer_host peer_port more :
  peername w = VTuple (peer_host :: peer_port :: more) ->
  client_connected logger port name handler w =
  try_except is_Exception
    (handler (accepted_ctx logger peer_host peer_port))
    (fun e =>
       ts ← utcnow_isoformat;
       py_call logger (handler_exception_record ts port name e)) w.
Proof.
  intros H. unfold client_connected, get_extra_info. cbn [String.eqb Ascii.eqb Bool.eqb].
  erewrite bind_ok by reflexivity. rewrite H. reflexivity.
Qed.

Lemma supervised_extends logger port name (body : M unit) w :
  extends (snd (body w))
    (snd (try_except is_Exception body
            (fun e =>
               ts ← utcnow_isoformat;
               py_call logger (handler_exception_record ts port name e)) w)).
Proof.
  unfold try_except. destruct (body w) as [[[]|e] w']; cbn [snd]; [apply extends_refl|].
  destruct (is_Exception e); [|apply extends_refl].
  erewrite bind_ok by reflexivity.
  apply (py_call_extends logger _ (with_ticks (S (ticks w')) w')).
Qed.

(** What [start_listener] returns when it returns: a server whose
    callback is [client_connected] closed over the listener's port, its
    handler name and the handler selected for it. *)
Lemma start_listener_server host listener logger w0 srv w1 :
  start_listener host listener logger w0 = (Ok srv, w1) ->
  exists port name handler,
    py_get listener "port" VNone = Ok port
    /\ py_get listener "handler" VNone = Ok name
    /\ select_handler listener port name = Ok handler
    /\ srv = Server host port (client_connected logger port name handler).
Proof.
  unfold start_listener, mbind, M_bind, lift.
  destruct (py_get listener "port" VNone) as [port|] eqn:Hport; [|discriminate].
  destruct (py_get listener "handler" VNone) as [name|] eqn:Hname; [|discriminate].
  destruct (py_get listener "proto" _) as [proto|]; [|discriminate].
  destruct (select_handler listener port name) as [handler|] eqn:Hselect; [|discriminate].
  unfold asyncio_start_server, mbind, M_bind, may_fail, emit, print, gets.
  destruct (bind_fault (env w0) host port (trace w0)); [discriminate|].
  intros [= <- _]. exists port, name, handler. auto.
Qed.

Lemma banner_h_outcome listener ctx w banner :
  configured_banner (unicode_names (env w)) listener = Ok banner ->
  banner_h listener ctx w = banner_handler ctx banner w.
Proof.
  intros H. unfold banner_h.
  erewrite bind_ok by reflexivity. rewrite H. reflexivity.
Qed.

(** Whatever banner the configuration decodes to, it is the first thing
    sent on a connection with a peer address. *)
Lemma configured_banner_sent_first listener logger port name w banner peer_host peer_port more :
  configured_banner (unicode_names (env w)) listener = Ok banner ->
  peername w = VTuple (peer_host :: peer_port :: more) ->
  exists rest,
    trace (snd (client_connected logger port name (banner_h listener) w))
    = trace w ++ EvWrite banner :: rest.
Proof.
  intros Hbanner Hpeer.
  rewrite (client_connected_address _ _ _ _ _ _ _ _ Hpeer).
  pose proof (supervised_extends logger port name
                (banner_h listener (accepted_ctx logger peer_host peer_port)) w) as Hsup.
  rewrite (banner_h_outcome _ _ _ _ Hbanner) in Hsup.
  destruct (banner_handler_writes_first (accepted_ctx logger peer_host peer_port)
              banner w _ _ _ Hpeer) as (rest & Hfirst).
  destruct Hsup as (more' & Hsup).
  exists (rest ++ more'). rewrite Hsup, Hfirst, <- app_assoc. reflexivity.
Qed.

(** C8, as stated, fails for three kinds of banner.  Escape sequences
    for control bytes above 127, here the Telnet negotiation IAC WILL ECHO
    written [\xff\xfb\x01], are not sent as those bytes: each becomes
    the two bytes of the UTF-8 encoding of its code point.  A banner the
    codec rejects, here one that ends in a backslash, is not sent at all:
    the connection gets nothing and a [handler_exception] is logged.  And
    a character outside ASCII, here a lone e with acute accent (U+00E9),
    whose UTF-8 encoding is C3 A9, reaches the peer as the four bytes
    C3 83 C2 A9: the codec reads the two bytes of its encoding as two
    characters, which are then encoded again. *)
Lemma banner_escapes_not_always_bytes :
  (let listener := VDict {[ "banner" := VStr (lit "\xff\xfb\x01login: ") ]} in
   let out := client_connected Scenario.sink (VInt 23) (VStr (lit "banner")) (banner_h listener)
                (Scenario.connection Scenario.calm Scenario.peer Scenario.silent) in
   written (trace (snd out)) = [[xc3; xbf; xc3; xbb; x01] ++ blit "login: "])
  /\
  (let listener := VDict {[ "banner" := VStr (lit "login:\") ]} in
   let out := client_connected Scenario.sink (VInt 23) (VStr (lit "banner")) (banner_h listener)
                (Scenario.connection Scenario.calm Scenario.peer Scenario.silent) in
   fst out = Ok tt
   /\ written (trace (snd out)) = []
   /\ List.map (fun r => r !! "error") (logged (trace (snd out)))
      = [Some (VStr (lit "'unicodeescape' codec can't decode byte 0x5c in position 6: \ at end of string"))])
  /\
  (let listener := VDict {[ "banner" := VStr [233] ]} in
   let out := client_connected Scenario.sink (VInt 23) (VStr (lit "banner")) (banner_h listener)
                (Scenario.connection Scenario.calm Scenario.peer Scenario.silent) in
   utf8_encode [233] = Ok [xc3; xa9]
   /\ written (trace (snd out)) = [[xc3; x83; xc2; xa9]]).
Proof. repeat split; vm_compute; auto. Qed.

(** C8, amended. For every listener configured with the banner handler
    and a banner text made of ASCII characters in which every escape
    sequence is well formed and denotes a character below 128 (backslash
    and one of a b f n r t v, a quoted backslash or quote, a number in
    octal or in hexadecimal after x, u or U with digits in either case, a
    character called by a name the table knows), the server that
    [start_listener] returns answers each connection that has a peer
    address by first writing the decoded banner: every escape sequence has
    become the byte it denotes (backslash r backslash n arrive as CR LF),
    a backslash that starts no escape sequence is sent as it is, and no
    read from the peer and no other effect precedes that write. *)
Theorem banner_escapes_decoded_and_sent_first
    d items host logger w0 srv w1 w peer_host peer_port more :
  d !! "handler" = Some (VStr (lit "banner")) ->
  d !! "banner" = Some (VStr (as_configured items)) ->
  banner_items_ok 128 (unicode_names (env w)) items = true ->
  start_listener host (VDict d) logger w0 = (Ok srv, w1) ->
  peername w = VTuple (peer_host :: peer_port :: more) ->
  exists rest,
    trace (snd (server_callback srv w))
    = trace w ++ EvWrite (as_sent (unicode_names (env w)) items) :: rest.
Proof.
  intros Hhandler Hbanner Hitems Hstart Hpeer.
  apply start_listener_server in Hstart
    as (port & name & handler & _ & Hname & Hselect & ->).
  cbn [server_callback].
  unfold py_get, dict_get in Hname. rewrite Hhandler in Hname.
  injection Hname as <-.
  assert (handler = banner_h (VDict d)) as ->.
  { unfold select_handler in Hselect.
    change (py_eq_str (VStr (lit "banner")) (lit "http")) with false in Hselect.
    change (py_eq_str (VStr (lit "banner")) (lit "banner")) with true in Hselect.
    congruence. }
  eapply configured_banner_sent_first; [|exact Hpeer].
  apply configured_banner_items; assumption.
Qed.

Lemma banner_escapes_decoded_and_sent_first_witness :
  exists rest,
    trace (snd (client_connected Scenario.sink (VInt 2222) (VStr (lit "banner"))
                  (banner_h (VDict default_banner_listener))
                  (Scenario.connection Scenario.calm Scenario.peer Scenario.silent)))
    = [] ++ EvWrite (blit ("SSH-2.0-OpenSSH_7.4" +:+ CRLF)) :: rest.
Proof.
  apply (banner_escapes_decoded_and_sent_first
           default_banner_listener default_banner_items (VStr (lit "0.0.0.0")) Scenario.sink
           (Scenario.connection Scenario.calm VNone [])
           (Server (VStr (lit "0.0.0.0")) (VInt 2222)
              (client_connected Scenario.sink (VInt 2222) (VStr (lit "banner"))
                 (banner_h (VDict default_banner_listener))))
           (snd (start_listener (VStr (lit "0.0.0.0")) (VDict default_banner_listener)
                   Scenario.sink (Scenario.connection Scenario.calm VNone [])))
           (Scenario.connection Scenario.calm Scenario.peer Scenario.silent)
           (VStr (lit "203.0.113.9")) (VInt 40000) []).
  - vm_compute. reflexivity.
  - vm_compute. reflexivity.
  - vm_compute. reflexivity.
  - reflexivity.
  - reflexivity.
Defined.

Lemma client_connected_ctx logger port name handler w :
  client_connected logger port name handler w =
  match supervisor_ctx logger (peername w) with
  | Raise e => (Raise e, w)
  | Ok ctx =>
      try_except is_Exception (handler ctx)
        (fun e =>
           ts ← utcnow_isoformat;
           py_call logger (handler_exception_record ts port name e)) w
  end.
Proof.
  unfold client_connected, supervisor_ctx, get_extra_info.
  cbn [String.eqb Ascii.eqb Bool.eqb].
  erewrite bind_ok by reflexivity.
  destruct (truthy (peername w)); [|reflexivity].
  unfold mbind at 1. unfold M_bind, lift.
  destruct (py_getitem (peername w) 0); [|reflexivity].
  destruct (py_getitem (peername w) 1); reflexivity.
Qed.

Lemma handler_exception_record_fields ts port name e :
  handler_exception_record ts port name e !! "event" = Some (VStr (lit "handler_exception"))
  /\ handler_exception_record ts port name e !! "port" = Some port
  /\ handler_exception_record ts port name e !! "handler" = Some name
  /\ handler_exception_record ts port name e !! "error" = Some (VStr (lit (exn_str e))).
Proof. unfold handler_exception_record. repeat split; by simplify_map_eq. Qed.

(** C5, as stated, fails in two ways.  A handler exception outside
    [Exception] is not caught: when the connection's task is cancelled
    while the banner handler waits for the peer, [CancelledError] leaves
    [client_connected] and no [handler_exception] record is written.  And
    when the logger itself raises, as with a full disk, the exception of
    the HTTP handler is caught but no record is written and the logger's
    [OSError] leaves [client_connected]. *)
Lemma client_connected_lets_exceptions_through :
  (let w := Scenario.connection Scenario.calm Scenario.peer
              [ReadEvent 0 (Raise (Exn CancelledError ""))] in
   let out := client_connected Scenario.sink (VInt 2222) (VStr (lit "banner"))
                (banner_h (VDict ∅)) w in
   fst out = Raise (Exn CancelledError "")
   /\ Forall (fun r => r !! "event" = None) (logged (trace (snd out))))
  /\
  (let w := Scenario.connection Scenario.full_disk Scenario.peer Scenario.silent in
   let out := client_connected Scenario.sink (VInt 80) (VStr (lit "http")) http_handler w in
   fst out = Raise Scenario.ENOSPC
   /\ logged (trace (snd out)) = []).
Proof.
  split; cbv zeta; (split; [vm_compute; reflexivity|]).
  - vm_compute. repeat constructor.
  - vm_compute. reflexivity.
Qed.

(** C5, amended. For every exception of class [Exception] raised by a
    handler invocation, [client_connected] catches it and calls the logger
    exactly once, with a [handler_exception] record that carries the
    listener's port, the handler name and [str(e)]; it then ends as that
    call ends, so the handler's exception itself never leaves it: when
    the logger returns, exactly one record has been added and
    [client_connected] returns normally, and when the logger raises, that
    exception leaves [client_connected] and nothing has been added.  An
    exception outside [Exception] ([CancelledError], [KeyboardInterrupt],
    [SystemExit]) is not caught: it leaves [client_connected] as the
    handler raised it, the clock is not read and no record is written. *)
Theorem handler_exception_recorded logger port name handler w ctx e w' :
  supervisor_ctx logger (peername w) = Ok ctx ->
  handler ctx w = (Raise e, w') ->
  let record := handler_exception_record (clock (env w') (ticks w')) port name e in
  let w1 := with_ticks (S (ticks w')) w' in
  (is_Exception e = true ->
   client_connected logger port name handler w = py_call logger record w1
   /\ record !! "event" = Some (VStr (lit "handler_exception"))
   /\ record !! "port" = Some port
   /\ record !! "handler" = Some name
   /\ record !! "error" = Some (VStr (lit (exn_str e)))
   /\ (py_callable logger = true ->
       sink_fault logger record w1 = None ->
       client_connected logger port name handler w
       = (Ok tt, with_trace (trace w1 ++ [sink_event logger record]) w1)
       /\ logged (trace (with_trace (trace w1 ++ [sink_event logger record]) w1))
          = logged (trace w') ++ [record])
   /\ (py_callable logger = true ->
       forall x, sink_fault logger record w1 = Some x ->
       client_connected logger port name handler w = (Raise x, w1)))
  /\ (is_Exception e = false ->
      client_connected logger port name handler w = (Raise e, w')).
Proof.
  intros Hctx Hrun record w1. split.
  - intros Hexc.
    assert (Hcc : client_connected logger port name handler w = py_call logger record w1).
    { rewrite client_connected_ctx, Hctx. unfold try_except. rewrite Hrun, Hexc.
      erewrite bind_ok by reflexivity. reflexivity. }
    split; [exact Hcc|].
    destruct (handler_exception_record_fields (clock (env w') (ticks w')) port name e)
      as (? & ? & ? & ?).
    repeat (split; [assumption|]).
    split.
    + intros Hcallable Hsink. rewrite Hcc.
      destruct logger as [| | | | | | | |c]; try discriminate.
      rewrite py_call_callable. unfold delivered. rewrite Hsink.
      split; [reflexivity|].
      cbn [trace with_trace]. rewrite logged_snoc.
      destruct c; reflexivity.
    + intros Hcallable x Hsink. rewrite Hcc.
      destruct logger as [| | | | | | | |c]; try discriminate.
      rewrite py_call_callable. unfold delivered. rewrite Hsink. reflexivity.
  - intros Hexc. rewrite client_connected_ctx, Hctx. unfold try_except.
    rewrite Hrun, Hexc. reflexivity.
Qed.

(** ** The generic handler *)

Lemma only_client_same w w' : logged (trace w') = logged (trace w) -> only_client_records w w'.
Proof. intros H. exists []. rewrite H, app_nil_r. auto. Qed.

Lemma only_client_trans w1 w2 w3 :
  only_client_records w1 w2 -> only_client_records w2 w3 -> only_client_records w1 w3.
Proof.
  intros (l1 & H1 & F1) (l2 & H2 & F2). exists (l1 ++ l2).
  rewrite H2, H1, <- app_assoc. split; [reflexivity | apply Forall_app; auto].
Qed.

Lemma log_client_only ctx data w :
  only_client_records w (snd (log_interaction ctx (lit "client") data w)).
Proof.
  destruct (log_interaction_outcome ctx (lit "client") data w) as (text & _ & ->).
  unfold delivered. destruct (sink_fault _ _ _); cbn [snd].
  - apply only_client_same. reflexivity.
  - eexists [_]. cbn [trace with_trace with_ticks]. rewrite logged_snoc. split.
    + destruct (dict_get ctx "logger" VNone) as [| | | | | | | |[filename|id]]; reflexivity.
    + constructor; [apply interaction_record_fields | constructor].
Qed.

Lemma await_logs_nothing a w : logged (trace (snd (await a w))) = logged (trace w).
Proof.
  destruct a. unfold await.
  destruct (incoming w) as [|[d [data|e]] rest]; cbn [snd trace with_trace with_incoming];
    rewrite ?logged_snoc, ?app_nil_r; reflexivity.
Qed.

Lemma echo_logs_nothing data w :
  logged (trace (snd ((writer_write data;; writer_drain) w))) = logged (trace w).
Proof.
  unfold writer_write, writer_drain, mbind, M_bind, emit, may_fail.
  cbn [env trace with_trace].
  destruct (drain_fault (env w) (trace w ++ [EvWrite data])); cbn [snd trace with_trace];
    rewrite ?logged_snoc, ?app_nil_r; reflexivity.
Qed.

Lemma generic_loop_only_client fuel ctx echo :
  forall w, only_client_records w (snd (generic_loop fuel ctx echo w)).
Proof.
  induction fuel as [|fuel IH]; intros w; [apply only_client_same; reflexivity|].
  cbn [generic_loop].
  pose proof (await_logs_nothing (reader_read 4096) w) as Hread.
  destruct (await (reader_read 4096) w) as [[data|e] w1] eqn:Eread; cbn [snd] in Hread.
  2:{ erewrite bind_raise by exact Eread. apply only_client_same. exact Hread. }
  erewrite bind_ok by exact Eread.
  apply (only_client_trans w w1); [apply only_client_same; exact Hread|].
  destruct (nonempty data); [|apply only_client_same; reflexivity].
  pose proof (log_client_only ctx data w1) as Hlog.
  destruct (log_interaction ctx (lit "client") data w1) as [[[]|e] w2] eqn:Elog; cbn [snd] in Hlog.
  2:{ erewrite bind_raise by exact Elog. exact Hlog. }
  erewrite bind_ok by exact Elog.
  apply (only_client_trans w1 w2); [exact Hlog|].
  destruct echo.
  - pose proof (echo_logs_nothing data w2) as Hecho.
    destruct ((writer_write data;; writer_drain) w2) as [[[]|e] w3] eqn:Eecho; cbn [snd] in Hecho.
    + erewrite bind_ok by exact Eecho.
      apply (only_client_trans w2 w3); [apply only_client_same; exact Hecho | apply IH].
    + erewrite bind_raise by exact Eecho. apply only_client_same. exact Hecho.
  - rewrite bind_ret. apply IH.
Qed.

Lemma log_interaction_incoming ctx role data w :
  incoming (snd (log_interaction ctx role data w)) = incoming w.
Proof.
  destruct (log_interaction_outcome ctx role data w) as (text & _ & ->).
  unfold delivered. destruct (sink_fault _ _ _); reflexivity.
Qed.

Lemma echo_incoming data w :
  incoming (snd ((writer_write data;; writer_drain) w)) = incoming w.
Proof.
  unfold writer_write, writer_drain, mbind, M_bind, emit, may_fail.
  cbn [env trace with_trace].
  destruct (drain_fault (env w) (trace w ++ [EvWrite data])); reflexivity.
Qed.

Lemma await_progress a w data w1 :
  await a w = (Ok data, w1) ->
  nonempty data = true ->
  S (List.length (incoming w1)) = List.length (incoming w).
Proof.
  destruct a. unfold await.
  destruct (incoming w) as [|[d [chunk|e]] rest]; intros [= <- <-] Hne.
  - discriminate.
  - reflexivity.
Qed.

(** One turn of the loop. *)
Lemma generic_loop_unfold fuel ctx echo w :
  generic_loop (S fuel) ctx echo w =
  match await (reader_read 4096) w with
  | (Raise e, w1) => (Raise e, w1)
  | (Ok data, w1) =>
      if nonempty data then
        match log_interaction ctx (lit "client") data w1 with
        | (Raise e, w2) => (Raise e, w2)
        | (Ok _, w2) =>
            match (if echo then writer_write data;; writer_drain else mret tt) w2 with
            | (Raise e, w3) => (Raise e, w3)
            | (Ok _, w3) => generic_loop fuel ctx echo w3
            end
        end
      else (Ok tt, w1)
  end.
Proof.
  cbn [generic_loop]. unfold mbind at 1. unfold M_bind.
  destruct (await (reader_read 4096) w) as [[data|e] w1]; [|reflexivity].
  destruct (nonempty data); [|reflexivity].
  unfold mbind at 1. unfold M_bind.
  destruct (log_interaction ctx (lit "client") data w1) as [[[]|e] w2]; [|reflexivity].
  unfold mbind at 1. unfold M_bind. reflexivity.
Qed.

(** The loop is over before its fuel is: any two amounts of fuel beyond
    the length of the script give the same run. *)
Lemma generic_loop_fuel ctx echo :
  forall n m w,
    (List.length (incoming w) < n)%nat ->
    (List.length (incoming w) < m)%nat ->
    generic_loop n ctx echo w = generic_loop m ctx echo w.
Proof.
  induction n as [|n IH]; intros m w Hn Hm; [lia|].
  destruct m as [|m]; [lia|].
  rewrite !generic_loop_unfold.
  destruct (await (reader_read 4096) w) as [[data|e] w1] eqn:Eread; [|reflexivity].
  destruct (nonempty data) eqn:Hne; [|reflexivity].
  pose proof (await_progress _ _ _ _ Eread Hne) as Hprogress.
  pose proof (log_interaction_incoming ctx (lit "client") data w1) as Hlog.
  destruct (log_interaction ctx (lit "client") data w1) as [[[]|e] w2]; [|reflexivity].
  cbn [snd] in Hlog.
  assert (Hecho : incoming (snd ((if echo then writer_write data;; writer_drain else mret tt) w2))
                  = incoming w2).
  { destruct echo; [apply echo_incoming | reflexivity]. }
  destruct ((if echo then writer_write data;; writer_drain else mret tt) w2)
    as [[[]|e] w3]; [|reflexivity].
  cbn [snd] in Hecho. apply IH; rewrite Hecho, Hlog; lia.
Qed.

(** C6 (the code misses the claim). Whatever the script, the context and
    the echo option, every record [generic_tcp_handler] logs has role
    [client]: a chunk written back by the echo is never logged as a
    server record. *)
Theorem generic_tcp_handler_logs_only_client ctx echo w :
  exists new,
    logged (trace (snd (generic_tcp_handler ctx echo w))) = logged (trace w) ++ new
    /\ Forall (fun r => r !! "role" = Some (VStr (lit "client"))) new.
Proof.
  change (only_client_records w (snd (generic_tcp_handler ctx echo w))).
  unfold generic_tcp_handler.
  pose proof (set_peer_pure ctx w) as Hpure.
  destruct (set_peer ctx w) as [[ctx1|e] w0] eqn:Epeer; cbn [snd] in Hpure; subst w0.
  2:{ erewrite bind_raise by exact Epeer. apply only_client_same. reflexivity. }
  erewrite bind_ok by exact Epeer.
  unfold try_finally.
  match goal with |- context [try_except is_Exception ?body pass w] =>
    assert (Hloop : only_client_records w (snd (try_except is_Exception body pass w)))
  end.
  { unfold try_except.
    pose proof (generic_loop_only_client (S (List.length (incoming w)))
      (<["service" := dict_get ctx1 "service" (VStr (lit "tcp"))]> ctx1) echo w) as H.
    destruct (generic_loop _ _ echo w) as [[[]|e] w1]; [exact H|].
    destruct (is_Exception e); exact H. }
  destruct (try_except is_Exception _ pass w) as [r w1]; cbn [snd] in Hloop.
  destruct (cleanup_outcome w1) as (tail & -> & Hlogged & _). cbn [snd].
  apply (only_client_trans w w1); [exact Hloop|].
  apply only_client_same. cbn [trace with_trace].
  change (EvClose :: tail) with ([EvClose] ++ tail).
  rewrite !logged_app, Hlogged. cbn [app].
  change (logged [EvClose]) with (@nil (gmap string pyval)). apply app_nil_r.
Qed.

Lemma generic_loop_session ctx echo script :
  forall fuel w,
    incoming w = script ->
    (List.length script < fuel)%nat ->
    Forall arrives script ->
    (forall t, drain_fault (env w) t = None) ->
    (forall record w0, env w0 = env w ->
       sink_fault (dict_get ctx "logger" VNone) record w0 = None) ->
    exists w',
      generic_loop fuel ctx echo w = (Ok tt, w')
      /\ trace w' = trace w ++ generic_session (env w) ctx echo (ticks w) script.
Proof.
  induction script as [|[d [data|e]] rest IH]; intros fuel w Hin Hfuel Hok Hdrain Hsink;
    (destruct fuel as [|fuel]; [cbn in Hfuel; lia|]); cbn [generic_loop].
  - unfold mbind, M_bind, await. rewrite Hin. cbn [nonempty List.length Nat.eqb negb].
    eexists. split; reflexivity.
  - unfold mbind at 1. unfold M_bind, await. rewrite Hin.
    cbn [generic_session].
    destruct (nonempty data) eqn:Hdata.
    2:{ eexists. split; reflexivity. }
    set (w1 := with_trace (trace w ++ [EvRead data]) (with_incoming rest w)).
    destruct (log_interaction_outcome ctx (lit "client") data w1) as (text & Htext & Hlog).
    unfold delivered in Hlog. rewrite Hsink in Hlog by reflexivity.
    erewrite bind_ok by exact Hlog.
    assert (Hrt : replaced_text data = text) by (unfold replaced_text; now rewrite Htext).
    rewrite Hrt.
    set (record := interaction_record ctx (clock (env w) (ticks w)) (lit "client") data text).
    inversion Hok as [|? ? _ Hrest]; subst.
    destruct echo.
    + set (w2 := with_trace _ (with_ticks (S (ticks w1)) w1)) in *.
      assert (Hecho : (writer_write data;; writer_drain) w2
                = (Ok tt, with_trace (trace w2 ++ [EvWrite data; EvDrain]) w2)).
      { unfold writer_write, writer_drain, mbind, M_bind, emit, may_fail.
        cbn [env with_trace]. rewrite (Hdrain _). cbn [with_trace env peername incoming ticks trace].
        rewrite <- app_assoc. reflexivity. }
      erewrite bind_ok by exact Hecho.
      destruct (IH fuel (with_trace (trace w2 ++ [EvWrite data; EvDrain]) w2))
        as (w' & Hrun & Htrace); [reflexivity | cbn in Hfuel; lia | exact Hrest
                                  | exact Hdrain | exact Hsink |].
      exists w'. split; [exact Hrun|]. rewrite Htrace.
      cbn [trace with_trace with_ticks with_incoming env ticks w2 w1].
      unfold w2, w1. cbn [trace with_trace with_ticks with_incoming env ticks].
      rewrite <- !app_assoc. reflexivity.
    + rewrite bind_ret.
      destruct (IH fuel (with_trace (trace (with_ticks (S (ticks w1)) w1)
                   ++ [sink_event (dict_get ctx "logger" VNone) record])
                   (with_ticks (S (ticks w1)) w1)))
        as (w' & Hrun & Htrace); [reflexivity | cbn in Hfuel; lia | exact Hrest
                                  | exact Hdrain | exact Hsink |].
      exists w'. split; [exact Hrun|]. rewrite Htrace.
      unfold w1. cbn [trace with_trace with_ticks with_incoming env ticks].
      rewrite <- !app_assoc. reflexivity.
  - inversion Hok as [|? ? Hbad _]. destruct Hbad.
Qed.

Lemma generic_ctx_logger ctx host port :
  dict_get (generic_ctx ctx host port) "logger" VNone = dict_get ctx "logger" VNone.
Proof. unfold generic_ctx, dict_get. by simplify_map_eq. Qed.

(** The part of C6 that holds: while nothing fails, every chunk is logged
    as a client record as soon as it is read, with [echo] it is then
    written back at once, and without [echo] nothing is written. *)
Lemma generic_tcp_handler_session ctx echo w host port more :
  peername w = VTuple (host :: port :: more) ->
  Forall arrives (incoming w) ->
  (forall t, drain_fault (env w) t = None) ->
  (forall record w0, env w0 = env w ->
     sink_fault (dict_get ctx "logger" VNone) record w0 = None) ->
  exists w' tail,
    generic_tcp_handler ctx echo w = (Ok tt, w')
    /\ trace w' = trace w
         ++ generic_session (env w) (generic_ctx ctx host port) echo (ticks w) (incoming w)
         ++ EvClose :: tail
    /\ logged tail = [] /\ written tail = [].
Proof.
  intros Hpeer Hok Hdrain Hsink. unfold generic_tcp_handler.
  erewrite bind_ok by (eapply set_peer_address; exact Hpeer).
  fold (generic_ctx ctx host port).
  destruct (generic_loop_session (generic_ctx ctx host port) echo (incoming w)
              (S (List.length (incoming w))) w)
    as (w1 & Hloop & Htrace); auto.
  { intros record w0 Hw0. rewrite generic_ctx_logger. auto. }
  unfold try_finally. unfold try_except at 1. rewrite Hloop. cbv beta iota.
  destruct (cleanup_outcome w1) as (tail & -> & Hlogged & Hwritten).
  exists (with_trace (trace w1 ++ EvClose :: tail) w1), tail.
  cbn [trace with_trace]. rewrite Htrace, <- app_assoc. auto.
Qed.

(** The echo scenario of the specification: [ping] comes back, and the
    log holds one record, the client's. *)
Example generic_echo_ping :
  let out := generic_tcp_handler {[ "logger" := Scenario.sink ]} true
               (Scenario.connection Scenario.calm Scenario.peer Scenario.ping) in
  fst out = Ok tt
  /\ written (trace (snd out)) = [blit "ping"]
  /\ List.map (fun r => r !! "role") (logged (trace (snd out))) = [Some (VStr (lit "client"))]
  /\ List.map (fun r => r !! "raw_hex") (logged (trace (snd out)))
     = [Some (VStr (lit "70696e67"))].
Proof. vm_compute. auto. Qed.

Example generic_silent_ping :
  let out := generic_tcp_handler {[ "logger" := Scenario.sink ]} false
               (Scenario.connection Scenario.calm Scenario.peer Scenario.ping) in
  fst out = Ok tt
  /\ written (trace (snd out)) = []
  /\ List.map (fun r => r !! "role") (logged (trace (snd out))) = [Some (VStr (lit "client"))]
  /\ List.map (fun r => r !! "raw_hex") (logged (trace (snd out)))
     = [Some (VStr (lit "70696e67"))].
Proof. vm_compute. auto. Qed.

(** ** Starting the listeners *)

Lemma is_PermissionError_Exception e : is_PermissionError e = true -> is_Exception e = true.
Proof. unfold is_PermissionError, is_Exception. destruct (exn_class_of e); auto. Qed.

Lemma py_get_raises_attribute_error v k dflt e :
  py_get v k dflt = Raise e -> is_Exception e = true /\ is_PermissionError e = false.
Proof. destruct v; cbn; intros [= <-]; auto. Qed.

(** For a dictionary the selection of a handler cannot fail. *)
Lemma select_handler_dict d port name :
  exists handler, select_handler (VDict d) port name = Ok handler.
Proof.
  unfold select_handler.
  destruct (py_eq_str name (lit "http")); [eauto|].
  destruct (py_eq_str name (lit "banner")); [eauto|].
  cbn [py_get]. eauto.
Qed.

(** One listener that is a dictionary: its start is decided by the bind. *)
Lemma start_listener_dict host d logger w handler :
  select_handler (VDict d) (dict_get d "port" VNone) (dict_get d "handler" VNone)
  = Ok handler ->
  start_listener host (VDict d) logger w =
  match bind_fault (env w) host (dict_get d "port" VNone) (trace w) with
  | Some x => (Raise x, w)
  | None =>
      (Ok (Server host (dict_get d "port" VNone)
             (client_connected logger (dict_get d "port" VNone) (dict_get d "handler" VNone)
                handler)),
       with_trace
         (trace w ++ [EvListen host (dict_get d "port" VNone);
                      EvPrint (listening_line (sockname (env w) host (dict_get d "port" VNone))
                                 (dict_get d "handler" VNone))]) w)
  end.
Proof.
  intros Hselect. unfold start_listener. cbn [py_get]. rewrite !bind_lift_ok.
  rewrite Hselect, bind_lift_ok.
  unfold asyncio_start_server, mbind, M_bind, may_fail, emit, print, gets.
  destruct (bind_fault (env w) host (dict_get d "port" VNone) (trace w)); [reflexivity|].
  unfold mret, M_ret, listening_line, emit.
  cbn [with_trace env peername incoming ticks trace]. rewrite <- app_assoc. reflexivity.
Qed.

(** One listener that is no dictionary: it has no [get]. *)
Lemma start_listener_malformed host l logger w :
  (forall d, l <> VDict d) ->
  start_listener host l logger w
  = (Raise (Exn AttributeError ("'" +:+ type_name l +:+ "' object has no attribute 'get'")), w).
Proof.
  intros Hl. unfold start_listener.
  destruct l; try reflexivity. exfalso. eapply Hl. reflexivity.
Qed.

(** The step of the loop of [run_from_config] for one listener, by what
    [start_listener] does. *)
Lemma start_each_step host logger l rest servers w :
  start_each host logger (l :: rest) servers w =
  match start_listener host l logger w with
  | (Ok srv, w1) => start_each host logger rest (servers ++ [srv]) w1
  | (Raise e, w1) =>
      if is_PermissionError e then
        match py_get l "port" VNone with
        | Ok port =>
            start_each host logger rest servers
              (with_trace (trace w1 ++ [EvPrint (permission_line port)]) w1)
        | Raise x => (Raise x, w1)
        end
      else if is_Exception e then
        start_each host logger rest servers
          (with_trace (trace w1 ++ [EvPrint (failure_line e)]) w1)
      else (Raise e, w1)
  end.
Proof.
  cbn [start_each]. unfold mbind at 1. unfold M_bind at 1. unfold try_except2.
  unfold mbind at 1. unfold M_bind at 1.
  destruct (start_listener host l logger w) as [[srv|e] w1]; [reflexivity|].
  destruct (is_PermissionError e).
  - unfold mbind, M_bind, lift. destruct (py_get l "port" VNone); reflexivity.
  - destruct (is_Exception e); reflexivity.
Qed.

(** The loop never raises and never skips a listener. *)
Lemma start_each_outcome host logger ls :
  forall servers w,
    bind_faults_are_exceptions (env w) ->
    exists started evs,
      start_each host logger ls servers w
      = (Ok (servers ++ started), with_trace (trace w ++ evs) w)
      /\ startup (env w) host logger (trace w) ls evs started.
Proof.
  induction ls as [|l ls IH]; intros servers w Hbind.
  { exists [], []. cbn [start_each]. rewrite !app_nil_r. destruct w.
    split; [reflexivity | constructor]. }
  rewrite start_each_step.
  assert (Hdict : (exists d, l = VDict d) \/ (forall d, l <> VDict d)).
  { destruct l; try (right; intros d; discriminate). left. eauto. }
  destruct Hdict as [[d ->] | Hl].
  - destruct (select_handler_dict d (dict_get d "port" VNone) (dict_get d "handler" VNone))
      as [handler Hselect].
    rewrite (start_listener_dict host d logger w handler Hselect).
    destruct (bind_fault (env w) host (dict_get d "port" VNone) (trace w)) as [x|] eqn:Hfault.
    + pose proof (Hbind _ _ _ _ Hfault) as Hexc. cbn [py_get].
      set (line := if is_PermissionError x then permission_line (dict_get d "port" VNone)
                   else failure_line x).
      assert (Hstep : (if is_PermissionError x
                       then start_each host logger ls servers
                              (with_trace (trace w ++ [EvPrint (permission_line
                                                                  (dict_get d "port" VNone))]) w)
                       else if is_Exception x
                            then start_each host logger ls servers
                                   (with_trace (trace w ++ [EvPrint (failure_line x)]) w)
                            else (Raise x, w))
                      = start_each host logger ls servers
                          (with_trace (trace w ++ [EvPrint line]) w)).
      { subst line. rewrite Hexc. destruct (is_PermissionError x); reflexivity. }
      rewrite Hstep.
      destruct (IH servers (with_trace (trace w ++ [EvPrint line]) w) Hbind)
        as (started & evs & Hrest & Hstartup).
      exists started, (EvPrint line :: evs).
      rewrite Hrest. cbn [trace with_trace env] in *. rewrite <- !app_assoc.
      split; [destruct w; reflexivity|].
      eapply startup_refused; [exact Hfault | | | exact Hstartup].
      * intros Hperm _. subst line. rewrite Hperm. reflexivity.
      * intros Hperm. subst line. rewrite Hperm. reflexivity.
    + match goal with |- context [with_trace ?t w] => set (w1 := with_trace t w) end.
      destruct (IH (servers ++ [Server host (dict_get d "port" VNone)
                                  (client_connected logger (dict_get d "port" VNone)
                                     (dict_get d "handler" VNone) handler)]) w1 Hbind)
        as (started & evs & Hrest & Hstartup).
      eexists (_ :: started), (_ :: _ :: evs).
      rewrite Hrest. subst w1. cbn [trace with_trace env] in *. rewrite <- !app_assoc.
      split; [destruct w; reflexivity|].
      eapply startup_bound; [exact Hfault | exact Hselect | reflexivity | exact Hstartup].
  - rewrite (start_listener_malformed host l logger w Hl).
    change (is_PermissionError (Exn AttributeError _)) with false.
    change (is_Exception (Exn AttributeError _)) with true. cbv iota.
    match goal with |- context [with_trace ?t w] => set (w1 := with_trace t w) end.
    destruct (IH servers w1 Hbind) as (started & evs & Hrest & Hstartup).
    eexists started, (_ :: evs).
    rewrite Hrest. subst w1. cbn [trace with_trace env] in *. rewrite <- !app_assoc.
    split; [destruct w; reflexivity|].
    eapply startup_malformed; [exact Hl | exact Hstartup].
Qed.



(** The default configuration without privileges: ports 80 and 502 are
    refused, each with the message about permissions, and the listener on
    port 2222 is started and returned. *)
Example default_config_unprivileged :
  let out := run_from_config DEFAULT_CONFIG (VStr (lit "0.0.0.0"))
               (Scenario.connection Scenario.unprivileged VNone []) in
  result_map (List.map server_port) (fst out) = Ok [VInt 2222]
  /\ printed (trace (snd out))
     = [ lit "Errore: permessi insufficienti per aprire porta 80. Usa porta >1024 o sudo.";
         lit "[+] Listening on ('0.0.0.0', 0) (handler=banner)";
         lit "Errore: permessi insufficienti per aprire porta 502. Usa porta >1024 o sudo." ].
Proof. vm_compute. auto. Qed.

(** ** The properties at work *)

Lemma handler_exception_recorded_witness :
  let w := Scenario.connection Scenario.calm Scenario.peer Scenario.silent in
  let w' := timed_out 3000 w in
  client_connected Scenario.sink (VInt 80) (VStr (lit "http")) http_handler w
  = py_call Scenario.sink
      (handler_exception_record (clock (env w') (ticks w')) (VInt 80) (VStr (lit "http")) no_format)
      (with_ticks (S (ticks w')) w').
Proof.
  intros w w'.
  refine (proj1 (proj1 (handler_exception_recorded Scenario.sink (VInt 80) (VStr (lit "http"))
                          http_handler w
                          (accepted_ctx Scenario.sink (VStr (lit "203.0.113.9")) (VInt 40000))
                          no_format w' _ _) _)).
  - reflexivity.
  - vm_compute. reflexivity.
  - reflexivity.
Defined.



(** * Further properties of the handlers and of start-up *)

(** ** The recorder *)

(** With a sink that takes the record, [log_interaction] adds exactly
    that one event and advances the clock by one reading. *)
Lemma log_interaction_accepted ctx role data w :
  sink_accepts (env w) (dict_get ctx "logger" VNone) ->
  log_interaction ctx role data w =
  (Ok tt,
   with_trace
     (trace w ++ [sink_event (dict_get ctx "logger" VNone)
                    (interaction_record ctx (clock (env w) (ticks w)) role data
                       (replaced_text data))])
     (with_ticks (S (ticks w)) w)).
Proof.
  intros Hsink.
  destruct (log_interaction_outcome ctx role data w) as (text & Htext & ->).
  unfold delivered. rewrite (Hsink _ (with_ticks (S (ticks w)) w) eq_refl).
  unfold replaced_text. rewrite Htext. reflexivity.
Qed.

Lemma log_interaction_refused ctx role data w x :
  sink_refuses (env w) (dict_get ctx "logger" VNone) x ->
  log_interaction ctx role data w = (Raise x, with_ticks (S (ticks w)) w).
Proof.
  intros Hsink.
  destruct (log_interaction_outcome ctx role data w) as (text & Htext & ->).
  unfold delivered. rewrite (Hsink _ (with_ticks (S (ticks w)) w) eq_refl). reflexivity.
Qed.

Lemma utf8_decode_ascii p data :
  Forall (fun b => Byte.to_N b < 128) data ->
  utf8_decode p data = Ok (List.map Byte.to_N data).
Proof.
  unfold utf8_decode. induction 1 as [|b data Hb _ IH]; [reflexivity|].
  rewrite utf8_decode_from_ascii by exact Hb. rewrite IH. reflexivity.
Qed.

(** X1. For ASCII data the record keeps the text as it is: [raw_text] is
    the data, character for character, next to its hexadecimal form. *)
Theorem log_interaction_ascii_text ctx role data w :
  Forall (fun b => Byte.to_N b < 128) data ->
  exists record,
    log_interaction ctx role data w =
      delivered (dict_get ctx "logger" VNone) record (with_ticks (S (ticks w)) w)
    /\ record !! "raw_text" = Some (VStr (List.map Byte.to_N data))
    /\ record !! "raw_hex" = Some (VStr (lowercase_hex data)).
Proof.
  intros Hascii.
  destruct (log_interaction_outcome ctx role data w) as (text & Htext & Hrun).
  rewrite (utf8_decode_ascii Replace data Hascii) in Htext. injection Htext as <-.
  eexists. split; [exact Hrun|].
  destruct (interaction_record_fields ctx (clock (env w) (ticks w)) role data
              (List.map Byte.to_N data)) as (Hhex & Hraw & _).
  split; assumption.
Qed.

Lemma log_interaction_ascii_text_witness :
  let ctx : gmap string pyval := {[ "logger" := Scenario.sink ]} in
  let w := Scenario.connection Scenario.calm Scenario.peer [] in
  exists record,
    log_interaction ctx (lit "client") (blit "ping") w
    = delivered (dict_get ctx "logger" VNone) record (with_ticks (S (ticks w)) w)
    /\ record !! "raw_text" = Some (VStr (List.map Byte.to_N (blit "ping")))
    /\ record !! "raw_hex" = Some (VStr (lowercase_hex (blit "ping"))).
Proof.
  intros ctx w.
  apply (log_interaction_ascii_text ctx (lit "client") (blit "ping") w).
  repeat constructor.
Defined.

(** X2. A context without a [logger] entry sends the record to the
    fallback file [logs/interactions.jsonl], and the peer, port and
    service the context does not have are recorded as [None]: a missing
    key is never an error. *)
Theorem log_interaction_without_logger ctx role data w :
  ctx !! "logger" = None ->
  exists record,
    log_interaction ctx role data w =
      match file_fault (env w) (lit "logs/interactions.jsonl") record (trace w) with
      | Some e => (Raise e, with_ticks (S (ticks w)) w)
      | None =>
          (Ok tt,
           with_trace (trace w ++ [EvAppend (lit "logs/interactions.jsonl") record])
             (with_ticks (S (ticks w)) w))
      end
    /\ (ctx !! "peer" = None -> record !! "peer" = Some VNone)
    /\ (ctx !! "peer_port" = None -> record !! "peer_port" = Some VNone)
    /\ (ctx !! "service" = None -> record !! "service" = Some VNone).
Proof.
  intros Hlogger.
  destruct (log_interaction_outcome ctx role data w) as (text & _ & Hrun).
  exists (interaction_record ctx (clock (env w) (ticks w)) role data text).
  split.
  - rewrite Hrun. unfold dict_get. rewrite Hlogger. reflexivity.
  - unfold interaction_record, dict_get.
    repeat split; intros ->; by simplify_map_eq.
Qed.

Lemma log_interaction_without_logger_witness :
  let w := Scenario.connection Scenario.calm Scenario.peer [] in
  exists record,
    log_interaction ∅ (lit "client") (blit "ping") w
    = (Ok tt,
       with_trace (trace w ++ [EvAppend (lit "logs/interactions.jsonl") record])
         (with_ticks (S (ticks w)) w))
    /\ record !! "peer" = Some VNone
    /\ record !! "peer_port" = Some VNone
    /\ record !! "service" = Some VNone.
Proof.
  intros w.
  destruct (log_interaction_without_logger ∅ (lit "client") (blit "ping") w
              (lookup_empty "logger"))
    as (record & Hrun & Hpeer & Hport & Hservice).
  exists record. split; [exact Hrun|].
  repeat split; [apply Hpeer | apply Hport | apply Hservice]; apply lookup_empty.
Defined.

(** ** One read under a deadline *)

Lemma guarded_read_arrives n timeout w d data rest :
  incoming w = ReadEvent d (Ok data) :: rest ->
  d <= timeout ->
  try_except is_TimeoutError (wait_for (reader_read n) timeout) (fun _ => mret []) w
  = (Ok data, with_trace (trace w ++ [EvRead data]) (with_incoming rest w)).
Proof.
  intros Hin Hd. unfold try_except, wait_for, await. rewrite Hin.
  destruct (N.ltb_spec timeout d); [lia | reflexivity].
Qed.

(** A read under a deadline consumes at most one entry of the script. *)
Lemma guarded_read_consumes n timeout w :
  (List.length (incoming w)
   <= S (List.length (incoming (snd (try_except is_TimeoutError
                                       (wait_for (reader_read n) timeout)
                                       (fun _ => mret []) w)))))%nat.
Proof.
  unfold try_except, wait_for, await.
  destruct (incoming w) as [|[d o] rest] eqn:Hin; cbn [snd incoming with_trace].
  - rewrite Hin. cbn. lia.
  - destruct (timeout <? d); cbn [is_TimeoutError exn_class_of].
    + cbn. lia.
    + destruct o as [data|e]; [cbn; lia|].
      destruct (is_TimeoutError e); cbn; lia.
Qed.

Lemma guarded_read_logs_nothing n timeout w :
  logged (trace (snd (try_except is_TimeoutError (wait_for (reader_read n) timeout)
                        (fun _ => mret []) w)))
  = logged (trace w).
Proof.
  unfold try_except, wait_for, await.
  destruct (incoming w) as [|[d o] rest];
    [cbn [snd trace with_trace]; rewrite logged_snoc; apply app_nil_r|].
  destruct (timeout <? d); cbn [is_TimeoutError exn_class_of].
  - cbn [snd mret M_ret trace with_trace with_incoming]. rewrite logged_snoc. apply app_nil_r.
  - destruct o as [data|e].
    + cbn [snd trace with_trace with_incoming]. rewrite logged_snoc. apply app_nil_r.
    + destruct (is_TimeoutError e); reflexivity.
Qed.

Lemma http_ctx_logger ctx host port :
  dict_get (http_ctx ctx host port) "logger" VNone = dict_get ctx "logger" VNone.
Proof. unfold http_ctx, dict_get. by simplify_map_eq. Qed.

Lemma banner_ctx_logger ctx host port :
  dict_get (banner_ctx ctx host port) "logger" VNone = dict_get ctx "logger" VNone.
Proof. unfold banner_ctx, dict_get. by simplify_map_eq. Qed.

(** ** The HTTP handler, continued *)

(** X3. What the client sends to the HTTP listener is recorded before
    the handler fails: when the first chunk arrives within three seconds
    and the sink takes it, the connection leaves exactly one record, the
    client's, with the peer's address and the service [http]; then the
    handler raises, and the rest of the script is never read. *)
Theorem http_handler_records_request ctx w host port more d data rest :
  peername w = VTuple (host :: port :: more) ->
  incoming w = ReadEvent d (Ok data) :: rest ->
  d <= 3000 ->
  nonempty data = true ->
  sink_accepts (env w) (dict_get ctx "logger" VNone) ->
  http_handler ctx w =
  (Raise no_format,
   World (env w) (peername w) rest (S (ticks w))
     (trace w ++ [EvRead data;
                  sink_event (dict_get ctx "logger" VNone)
                    (interaction_record (http_ctx ctx host port) (clock (env w) (ticks w))
                       (lit "client") data (replaced_text data))])).
Proof.
  intros Hpeer Hin Hd Hne Hsink.
  rewrite http_handler_unfold.
  erewrite set_peer_address by exact Hpeer.
  erewrite guarded_read_arrives by eassumption.
  rewrite Hne. fold (http_ctx ctx host port).
  rewrite log_interaction_accepted by (rewrite http_ctx_logger; exact Hsink).
  rewrite http_ctx_logger.
  cbn [env peername incoming ticks trace with_trace with_ticks with_incoming].
  rewrite <- app_assoc. reflexivity.
Qed.

Lemma calm_accepts logger : sink_accepts Scenario.calm logger.
Proof.
  intros record w0 Hw0. unfold sink_fault. rewrite Hw0.
  destruct logger as [| | | | | | | |[filename|id]]; reflexivity.
Qed.

Lemma http_handler_records_request_witness :
  let ctx : gmap string pyval := {[ "logger" := Scenario.sink ]} in
  let w := Scenario.connection Scenario.calm Scenario.peer Scenario.ping in
  http_handler ctx w =
  (Raise no_format,
   World (env w) (peername w) [] (S (ticks w))
     (trace w ++ [EvRead (blit "ping");
                  sink_event (dict_get ctx "logger" VNone)
                    (interaction_record
                       (http_ctx ctx (VStr (lit "203.0.113.9")) (VInt 40000))
                       (clock (env w) (ticks w)) (lit "client") (blit "ping")
                       (replaced_text (blit "ping")))])).
Proof.
  intros ctx w.
  apply (http_handler_records_request ctx w _ _ [] 0 (blit "ping") []).
  - reflexivity.
  - reflexivity.
  - lia.
  - reflexivity.
  - apply calm_accepts.
Defined.

(** ** The banner handler, continued *)

(** The greeting when nothing fails. *)
Lemma greeting_accepted ctx banner w :
  (forall t, drain_fault (env w) t = None) ->
  sink_accepts (env w) (dict_get ctx "logger" VNone) ->
  try_except bare
    (writer_write banner;; writer_drain;; log_interaction ctx (lit "server") banner)
    pass w
  = (Ok tt,
     with_trace
       (trace w ++ [EvWrite banner; EvDrain;
                    sink_event (dict_get ctx "logger" VNone)
                      (interaction_record ctx (clock (env w) (ticks w)) (lit "server") banner
                         (replaced_text banner))])
       (with_ticks (S (ticks w)) w)).
Proof.
  intros Hdrain Hsink.
  unfold try_except, writer_write, writer_drain.
  unfold mbind at 1. unfold M_bind at 1. unfold emit at 1.
  unfold mbind at 1. unfold M_bind at 1.
  rewrite may_fail_then_emit. cbn [env trace with_trace]. rewrite Hdrain.
  rewrite log_interaction_accepted by exact Hsink.
  cbn [env peername incoming ticks trace with_trace with_ticks].
  rewrite <- !app_assoc. reflexivity.
Qed.

Lemma cleanup_accepted w :
  (forall t, wait_closed_fault (env w) t = None) ->
  (writer_close;; try_except bare writer_wait_closed pass) w
  = (Ok tt, with_trace (trace w ++ [EvClose; EvWaitClosed]) w).
Proof.
  intros Hwait.
  unfold writer_close, writer_wait_closed, try_except, mbind, M_bind, emit, may_fail.
  cbn [env trace with_trace]. rewrite Hwait.
  cbn [env peername incoming ticks trace with_trace]. rewrite <- app_assoc. reflexivity.
Qed.

(** X4. A whole banner session when nothing fails, in order: the banner
    is written and drained, then logged as a server record; the peer's
    first chunk, arriving within ten seconds, is read once and logged as a
    client record with the next clock reading; the writer is closed.
    Nothing else is written and the rest of the script is never read. *)
Theorem banner_handler_session ctx banner w host port more d data rest :
  peername w = VTuple (host :: port :: more) ->
  incoming w = ReadEvent d (Ok data) :: rest ->
  d <= 10000 ->
  nonempty data = true ->
  (forall t, drain_fault (env w) t = None) ->
  (forall t, wait_closed_fault (env w) t = None) ->
  sink_accepts (env w) (dict_get ctx "logger" VNone) ->
  banner_handler ctx banner w =
  (Ok tt,
   World (env w) (peername w) rest (S (S (ticks w)))
     (trace w ++
      [EvWrite banner; EvDrain;
       sink_event (dict_get ctx "logger" VNone)
         (interaction_record (banner_ctx ctx host port) (clock (env w) (ticks w))
            (lit "server") banner (replaced_text banner));
       EvRead data;
       sink_event (dict_get ctx "logger" VNone)
         (interaction_record (banner_ctx ctx host port) (clock (env w) (S (ticks w)))
            (lit "client") data (replaced_text data));
       EvClose; EvWaitClosed])).
Proof.
  intros Hpeer Hin Hd Hne Hdrain Hwait Hsink.
  unfold banner_handler.
  erewrite bind_ok by (eapply set_peer_address; exact Hpeer).
  fold (banner_ctx ctx host port).
  erewrite bind_ok.
  2:{ apply greeting_accepted; [exact Hdrain | rewrite banner_ctx_logger; exact Hsink]. }
  rewrite banner_ctx_logger.
  erewrite bind_ok.
  2:{ eapply guarded_read_arrives; [cbn [incoming with_trace with_ticks]; exact Hin | exact Hd]. }
  rewrite Hne.
  erewrite bind_ok.
  2:{ apply log_interaction_accepted. rewrite banner_ctx_logger. exact Hsink. }
  rewrite banner_ctx_logger.
  rewrite cleanup_accepted by exact Hwait.
  cbn [env peername incoming ticks trace with_trace with_ticks with_incoming].
  rewrite <- !app_assoc. reflexivity.
Qed.

Lemma banner_handler_session_witness :
  let ctx : gmap string pyval := {[ "logger" := Scenario.sink ]} in
  let w := Scenario.connection Scenario.calm Scenario.peer Scenario.ping in
  let bctx := banner_ctx ctx (VStr (lit "203.0.113.9")) (VInt 40000) in
  banner_handler ctx (blit "hello") w =
  (Ok tt,
   World (env w) (peername w) [] (S (S (ticks w)))
     (trace w ++
      [EvWrite (blit "hello"); EvDrain;
       sink_event (dict_get ctx "logger" VNone)
         (interaction_record bctx (clock (env w) (ticks w))
            (lit "server") (blit "hello") (replaced_text (blit "hello")));
       EvRead (blit "ping");
       sink_event (dict_get ctx "logger" VNone)
         (interaction_record bctx (clock (env w) (S (ticks w)))
            (lit "client") (blit "ping") (replaced_text (blit "ping")));
       EvClose; EvWaitClosed])).
Proof.
  intros ctx w bctx.
  apply (banner_handler_session ctx (blit "hello") w _ _ [] 0 (blit "ping") []).
  - reflexivity.
  - reflexivity.
  - lia.
  - reflexivity.
  - reflexivity.
  - reflexivity.
  - apply calm_accepts.
Defined.

(** [banner_handler] after its greeting: one read under the deadline,
    the client record if there is data, and the close. *)
Lemma banner_handler_after_greeting ctx banner w host port more w1 :
  peername w = VTuple (host :: port :: more) ->
  try_except bare
    (writer_write banner;; writer_drain;;
     log_interaction (banner_ctx ctx host port) (lit "server") banner)
    pass w = (Ok tt, w1) ->
  banner_handler ctx banner w =
  match try_except is_TimeoutError (wait_for (reader_read 2048) 10000)
          (fun _ => mret []) w1 with
  | (Raise e, w2) => (Raise e, w2)
  | (Ok data, w2) =>
      match (if nonempty data
             then log_interaction (banner_ctx ctx host port) (lit "client") data
             else mret tt) w2 with
      | (Raise e, w3) => (Raise e, w3)
      | (Ok _, w3) => (writer_close;; try_except bare writer_wait_closed pass) w3
      end
  end.
Proof.
  intros Hpeer Hgreet. unfold banner_handler.
  erewrite bind_ok by (eapply set_peer_address; exact Hpeer).
  fold (banner_ctx ctx host port).
  erewrite bind_ok by exact Hgreet.
  unfold mbind at 1. unfold M_bind at 1.
  destruct (try_except is_TimeoutError _ _ w1) as [[data|e] w2]; [|reflexivity].
  unfold mbind at 1. unfold M_bind at 1.
  destruct (nonempty data).
  - destruct (log_interaction _ _ data w2) as [[[]|e] w3]; reflexivity.
  - reflexivity.
Qed.

Lemma optional_log_same_wire ctx data w :
  same_wire w (snd ((if nonempty data then log_interaction ctx (lit "client") data
                     else mret tt) w)).
Proof.
  destruct (nonempty data); [apply log_interaction_same_wire | apply same_wire_refl].
Qed.

Lemma optional_log_incoming ctx data w :
  incoming (snd ((if nonempty data then log_interaction ctx (lit "client") data
                  else mret tt) w)) = incoming w.
Proof.
  destruct (nonempty data); [apply log_interaction_incoming | reflexivity].
Qed.

Lemma optional_log_only_client ctx data w :
  only_client_records w (snd ((if nonempty data then log_interaction ctx (lit "client") data
                               else mret tt) w)).
Proof.
  destruct (nonempty data); [apply log_client_only | apply only_client_same; reflexivity].
Qed.

(** X5. On a connection with a peer address [banner_handler] hands the
    writer the banner and nothing else, whatever the peer sends and
    whatever fails: no reply follows the client's data. *)
Theorem banner_handler_sends_only_banner ctx banner w host port more :
  peername w = VTuple (host :: port :: more) ->
  written (trace (snd (banner_handler ctx banner w))) = written (trace w) ++ [banner].
Proof.
  intros Hpeer.
  destruct (greeting_outcome (banner_ctx ctx host port) banner w)
    as (n & tail & Hgreet & Hwritten & _ & _).
  rewrite (banner_handler_after_greeting _ _ _ _ _ _ _ Hpeer Hgreet).
  set (w1 := with_ticks n (with_trace (trace w ++ EvWrite banner :: tail) w)).
  assert (H1 : written (trace w1) = written (trace w) ++ [banner]).
  { unfold w1. cbn [trace with_ticks with_trace].
    change (EvWrite banner :: tail) with ([EvWrite banner] ++ tail).
    rewrite !written_app, Hwritten, app_nil_r. reflexivity. }
  pose proof (guarded_read_same_wire 2048 10000 w1) as [Hread _].
  destruct (try_except is_TimeoutError _ _ w1) as [[data|e] w2]; cbn [snd] in Hread.
  2:{ cbn [snd]. congruence. }
  pose proof (optional_log_same_wire (banner_ctx ctx host port) data w2) as [Hlog _].
  destruct ((if nonempty data
             then log_interaction (banner_ctx ctx host port) (lit "client") data
             else mret tt) w2) as [[[]|e] w3]; cbn [snd] in Hlog.
  2:{ cbn [snd]. congruence. }
  destruct (cleanup_outcome w3) as (tail' & -> & _ & Hwritten').
  cbn [snd trace with_trace].
  change (EvClose :: tail') with ([EvClose] ++ tail').
  rewrite !written_app.
  replace (written [EvClose] ++ written tail') with (@nil bytes)
    by (rewrite Hwritten'; reflexivity).
  rewrite (app_nil_r (written (trace w3))). congruence.
Qed.

Lemma banner_handler_sends_only_banner_witness :
  let w := Scenario.connection Scenario.full_disk Scenario.peer Scenario.ping in
  written (trace (snd (banner_handler ∅ (blit "hello") w))) = written (trace w) ++ [blit "hello"].
Proof.
  intros w.
  apply (banner_handler_sends_only_banner ∅ (blit "hello") w
           (VStr (lit "203.0.113.9")) (VInt 40000) []).
  reflexivity.
Defined.

(** X6. On a connection with a peer address [banner_handler] closes the
    writer exactly when it returns normally: if it raises (the read ended
    in a transport error, or the client record could not be written) the
    writer is left as it was. *)
Theorem banner_handler_closes_iff_returns ctx banner w host port more :
  peername w = VTuple (host :: port :: more) ->
  (fst (banner_handler ctx banner w) = Ok tt
   /\ closed (trace (snd (banner_handler ctx banner w))) = true)
  \/ (exists e, fst (banner_handler ctx banner w) = Raise e
      /\ closed (trace (snd (banner_handler ctx banner w))) = closed (trace w)).
Proof.
  intros Hpeer.
  destruct (greeting_outcome (banner_ctx ctx host port) banner w)
    as (n & tail & Hgreet & _ & Hclosed & _).
  rewrite (banner_handler_after_greeting _ _ _ _ _ _ _ Hpeer Hgreet).
  set (w1 := with_ticks n (with_trace (trace w ++ EvWrite banner :: tail) w)).
  assert (H1 : closed (trace w1) = closed (trace w)).
  { unfold w1. cbn [trace with_ticks with_trace].
    change (EvWrite banner :: tail) with ([EvWrite banner] ++ tail).
    rewrite !closed_app, Hclosed.
    change (closed [EvWrite banner]) with false. rewrite !orb_false_r. reflexivity. }
  pose proof (guarded_read_same_wire 2048 10000 w1) as [_ Hread].
  destruct (try_except is_TimeoutError _ _ w1) as [[data|e] w2]; cbn [snd] in Hread.
  2:{ right. exists e. cbn [fst snd]. split; [reflexivity | congruence]. }
  pose proof (optional_log_same_wire (banner_ctx ctx host port) data w2) as [_ Hlog].
  destruct ((if nonempty data
             then log_interaction (banner_ctx ctx host port) (lit "client") data
             else mret tt) w2) as [[[]|e] w3]; cbn [snd] in Hlog.
  2:{ right. exists e. cbn [fst snd]. split; [reflexivity | congruence]. }
  left. destruct (cleanup_outcome w3) as (tail' & -> & _ & _).
  cbn [fst snd trace with_trace]. split; [reflexivity|].
  rewrite closed_app. cbn. apply orb_true_r.
Qed.

Lemma banner_handler_closes_iff_returns_witness :
  let w := Scenario.connection Scenario.calm Scenario.peer
             [ReadEvent 5 (Raise (Exn ConnectionResetError "Connection reset by peer"))] in
  (fst (banner_handler ∅ (blit "hello") w) = Ok tt
   /\ closed (trace (snd (banner_handler ∅ (blit "hello") w))) = true)
  \/ (exists e, fst (banner_handler ∅ (blit "hello") w) = Raise e
      /\ closed (trace (snd (banner_handler ∅ (blit "hello") w))) = closed (trace w)).
Proof.
  intros w.
  apply (banner_handler_closes_iff_returns ∅ (blit "hello") w
           (VStr (lit "203.0.113.9")) (VInt 40000) []).
  reflexivity.
Defined.

Lemma greeting_drain_fails ctx banner w e :
  drain_fault (env w) (trace w ++ [EvWrite banner]) = Some e ->
  try_except bare
    (writer_write banner;; writer_drain;; log_interaction ctx (lit "server") banner)
    pass w
  = (Ok tt, with_trace (trace w ++ [EvWrite banner]) w).
Proof.
  intros Hdrain.
  unfold try_except, writer_write, writer_drain, mbind, M_bind, emit, may_fail.
  cbn [env trace with_trace]. rewrite Hdrain. reflexivity.
Qed.

(** X7. When the drain after the banner fails, the banner has been handed
    to the writer but no server record is ever written for it: every
    record of that connection is a client record. *)
Theorem banner_unrecorded_when_drain_fails ctx banner w host port more e :
  peername w = VTuple (host :: port :: more) ->
  drain_fault (env w) (trace w ++ [EvWrite banner]) = Some e ->
  written (trace (snd (banner_handler ctx banner w))) = written (trace w) ++ [banner]
  /\ exists new,
       logged (trace (snd (banner_handler ctx banner w))) = logged (trace w) ++ new
       /\ Forall (fun r => r !! "role" = Some (VStr (lit "client"))) new.
Proof.
  intros Hpeer Hdrain. split.
  { destruct (greeting_outcome (banner_ctx ctx host port) banner w)
      as (n & tail & Hgreet & Hwritten & _ & _).
    rewrite (banner_handler_after_greeting _ _ _ _ _ _ _ Hpeer Hgreet).
    set (w1 := with_ticks n (with_trace (trace w ++ EvWrite banner :: tail) w)).
    assert (H1 : written (trace w1) = written (trace w) ++ [banner]).
    { unfold w1. cbn [trace with_ticks with_trace].
      change (EvWrite banner :: tail) with ([EvWrite banner] ++ tail).
      rewrite !written_app, Hwritten, app_nil_r. reflexivity. }
    pose proof (guarded_read_same_wire 2048 10000 w1) as [Hread _].
    destruct (try_except is_TimeoutError _ _ w1) as [[data|x] w2]; cbn [snd] in Hread.
    2:{ cbn [snd]. congruence. }
    pose proof (optional_log_same_wire (banner_ctx ctx host port) data w2) as [Hlog _].
    destruct ((if nonempty data
               then log_interaction (banner_ctx ctx host port) (lit "client") data
               else mret tt) w2) as [[[]|x] w3]; cbn [snd] in Hlog.
    2:{ cbn [snd]. congruence. }
    destruct (cleanup_outcome w3) as (tail' & -> & _ & Hwritten').
    cbn [snd trace with_trace].
    change (EvClose :: tail') with ([EvClose] ++ tail').
    rewrite !written_app.
    replace (written [EvClose] ++ written tail') with (@nil bytes)
      by (rewrite Hwritten'; reflexivity).
    rewrite (app_nil_r (written (trace w3))). congruence. }
  change (only_client_records w (snd (banner_handler ctx banner w))).
  rewrite (banner_handler_after_greeting _ _ _ _ _ _ _ Hpeer
             (greeting_drain_fails (banner_ctx ctx host port) banner w e Hdrain)).
  set (w1 := with_trace (trace w ++ [EvWrite banner]) w).
  apply (only_client_trans w w1).
  { apply only_client_same. unfold w1. cbn [trace with_trace].
    rewrite logged_snoc. apply app_nil_r. }
  pose proof (guarded_read_logs_nothing 2048 10000 w1) as Hread.
  destruct (try_except is_TimeoutError _ _ w1) as [[data|x] w2]; cbn [snd] in Hread.
  2:{ apply only_client_same. exact Hread. }
  apply (only_client_trans w1 w2); [apply only_client_same; exact Hread|].
  pose proof (optional_log_only_client (banner_ctx ctx host port) data w2) as Hlog.
  destruct ((if nonempty data
             then log_interaction (banner_ctx ctx host port) (lit "client") data
             else mret tt) w2) as [[[]|x] w3]; cbn [snd] in Hlog; [|exact Hlog].
  apply (only_client_trans w2 w3); [exact Hlog|].
  destruct (cleanup_outcome w3) as (tail' & -> & Hlogged & _).
  apply only_client_same. cbn [snd trace with_trace].
  change (EvClose :: tail') with ([EvClose] ++ tail').
  rewrite !logged_app, Hlogged.
  change (logged [EvClose]) with (@nil (gmap string pyval)).
  cbn [app]. apply app_nil_r.
Qed.

Lemma banner_unrecorded_when_drain_fails_witness :
  let ctx : gmap string pyval := {[ "logger" := Scenario.sink ]} in
  let w := Scenario.connection reset_on_drain Scenario.peer Scenario.ping in
  written (trace (snd (banner_handler ctx (blit "hello") w))) = written (trace w) ++ [blit "hello"]
  /\ exists new,
       logged (trace (snd (banner_handler ctx (blit "hello") w))) = logged (trace w) ++ new
       /\ Forall (fun r => r !! "role" = Some (VStr (lit "client"))) new.
Proof.
  intros ctx w.
  apply (banner_unrecorded_when_drain_fails ctx (blit "hello") w
           (VStr (lit "203.0.113.9")) (VInt 40000) [] ECONNRESET).
  - reflexivity.
  - reflexivity.
Defined.

(** [banner_handler] from the context its first two statements build. *)
Lemma banner_handler_stages ctx banner w ctx1 w1 :
  set_peer ctx w = (Ok ctx1, w) ->
  try_except bare
    (writer_write banner;; writer_drain;;
     log_interaction (<["service" := VStr (lit "banner")]> ctx1) (lit "server") banner)
    pass w = (Ok tt, w1) ->
  banner_handler ctx banner w =
  match try_except is_TimeoutError (wait_for (reader_read 2048) 10000)
          (fun _ => mret []) w1 with
  | (Raise e, w2) => (Raise e, w2)
  | (Ok data, w2) =>
      match (if nonempty data
             then log_interaction (<["service" := VStr (lit "banner")]> ctx1) (lit "client") data
             else mret tt) w2 with
      | (Raise e, w3) => (Raise e, w3)
      | (Ok _, w3) => (writer_close;; try_except bare writer_wait_closed pass) w3
      end
  end.
Proof.
  intros Hpeer Hgreet. unfold banner_handler.
  erewrite bind_ok by exact Hpeer.
  erewrite bind_ok by exact Hgreet.
  unfold mbind at 1. unfold M_bind at 1.
  destruct (try_except is_TimeoutError _ _ w1) as [[data|e] w2]; [|reflexivity].
  unfold mbind at 1. unfold M_bind at 1.
  destruct (nonempty data).
  - destruct (log_interaction _ _ data w2) as [[[]|e] w3]; reflexivity.
  - reflexivity.
Qed.

(** X8. Neither [http_handler] nor [banner_handler] reads a second time:
    whatever happens, at most one entry of the peer's script is consumed,
    and anything the peer sends afterwards is never looked at. *)
Theorem deadline_handlers_read_once ctx banner w :
  (List.length (incoming w) <= S (List.length (incoming (snd (http_handler ctx w)))))%nat
  /\ (List.length (incoming w)
      <= S (List.length (incoming (snd (banner_handler ctx banner w)))))%nat.
Proof.
  split.
  - rewrite http_handler_unfold.
    pose proof (set_peer_pure ctx w) as Hpure.
    destruct (set_peer ctx w) as [[ctx1|e] w0]; cbn [snd] in Hpure; subst w0;
      [|cbn [snd]; lia].
    pose proof (guarded_read_consumes 4096 3000 w) as Hread.
    destruct (try_except is_TimeoutError _ _ w) as [[data|e] w2]; cbn [snd] in Hread;
      [|exact Hread].
    pose proof (optional_log_incoming (<["service" := VStr (lit "http")]> ctx1) data w2) as Hlog.
    destruct ((if nonempty data
               then log_interaction (<["service" := VStr (lit "http")]> ctx1) (lit "client") data
               else mret tt) w2) as [[[]|e] w3]; cbn [snd] in Hlog |- *;
      rewrite Hlog; exact Hread.
  - pose proof (set_peer_pure ctx w) as Hpure.
    destruct (set_peer ctx w) as [[ctx1|e] w0] eqn:Hpeer; cbn [snd] in Hpure; subst w0.
    2:{ unfold banner_handler. erewrite bind_raise by exact Hpeer. cbn [snd]. lia. }
    destruct (greeting_outcome (<["service" := VStr (lit "banner")]> ctx1) banner w)
      as (n & tail & Hgreet & _).
    rewrite (banner_handler_stages _ _ _ _ _ Hpeer Hgreet).
    set (w1 := with_ticks n (with_trace (trace w ++ EvWrite banner :: tail) w)).
    pose proof (guarded_read_consumes 2048 10000 w1) as Hread.
    change (incoming w1) with (incoming w) in Hread.
    destruct (try_except is_TimeoutError _ _ w1) as [[data|e] w2]; cbn [snd] in Hread;
      [|exact Hread].
    pose proof (optional_log_incoming (<["service" := VStr (lit "banner")]> ctx1) data w2) as Hlog.
    destruct ((if nonempty data
               then log_interaction (<["service" := VStr (lit "banner")]> ctx1) (lit "client") data
               else mret tt) w2) as [[[]|e] w3]; cbn [snd] in Hlog |- *.
    + destruct (cleanup_outcome w3) as (tail' & -> & _).
      cbn [snd incoming with_trace]. rewrite Hlog. exact Hread.
    + rewrite Hlog. exact Hread.
Qed.

(** ** The generic handler, continued *)

(** X9. On a connection with a peer address [generic_tcp_handler] always
    leaves the writer closed, and the only exceptions that leave it are
    those outside [Exception]: transport errors and sink failures end the
    loop silently. *)
Theorem generic_tcp_handler_closes_and_swallows ctx echo w host port more :
  peername w = VTuple (host :: port :: more) ->
  closed (trace (snd (generic_tcp_handler ctx echo w))) = true
  /\ (fst (generic_tcp_handler ctx echo w) = Ok tt
      \/ exists e, fst (generic_tcp_handler ctx echo w) = Raise e /\ is_Exception e = false).
Proof.
  intros Hpeer. unfold generic_tcp_handler.
  erewrite bind_ok by (eapply set_peer_address; exact Hpeer).
  unfold try_finally.
  match goal with |- context [try_except is_Exception ?body pass w] =>
    assert (Hbody : fst (try_except is_Exception body pass w) = Ok tt
                    \/ exists e, fst (try_except is_Exception body pass w) = Raise e
                                 /\ is_Exception e = false);
    [|destruct (try_except is_Exception body pass w) as [r w1]]
  end.
  { unfold try_except.
    destruct (generic_loop _ _ echo w) as [[[]|e] w1]; [left; reflexivity|].
    destruct (is_Exception e) eqn:He; [left; reflexivity|].
    right. exists e. split; [reflexivity | exact He]. }
  destruct (cleanup_outcome w1) as (tail & -> & _).
  cbn [fst snd trace with_trace] in *. split; [|exact Hbody].
  rewrite closed_app. cbn. apply orb_true_r.
Qed.

Lemma generic_tcp_handler_closes_and_swallows_witness :
  let ctx : gmap string pyval := {[ "logger" := Scenario.sink ]} in
  let w := Scenario.connection Scenario.full_disk Scenario.peer Scenario.ping in
  closed (trace (snd (generic_tcp_handler ctx true w))) = true
  /\ (fst (generic_tcp_handler ctx true w) = Ok tt
      \/ exists e, fst (generic_tcp_handler ctx true w) = Raise e /\ is_Exception e = false).
Proof.
  intros ctx w.
  apply (generic_tcp_handler_closes_and_swallows ctx true w
           (VStr (lit "203.0.113.9")) (VInt 40000) []).
  reflexivity.
Defined.

Lemma generic_loop_silent fuel ctx :
  forall w, written (trace (snd (generic_loop fuel ctx false w))) = written (trace w).
Proof.
  induction fuel as [|fuel IH]; intros w; [reflexivity|].
  rewrite generic_loop_unfold.
  pose proof (await_same_wire (reader_read 4096) w) as [Hread _].
  destruct (await (reader_read 4096) w) as [[data|e] w1]; cbn [snd] in Hread; [|exact Hread].
  destruct (nonempty data); [|exact Hread].
  pose proof (log_interaction_same_wire ctx (lit "client") data w1) as [Hlog _].
  destruct (log_interaction ctx (lit "client") data w1) as [[[]|e] w2]; cbn [snd] in Hlog.
  - change ((mret tt : M unit) w2) with (@Ok unit tt, w2). cbv beta iota.
    rewrite IH. congruence.
  - cbn [snd]. congruence.
Qed.

Lemma generic_tcp_handler_writes_nothing ctx w :
  written (trace (snd (generic_tcp_handler ctx false w))) = written (trace w).
Proof.
  unfold generic_tcp_handler.
  pose proof (set_peer_pure ctx w) as Hpure.
  destruct (set_peer ctx w) as [[ctx1|e] w0] eqn:Hpeer; cbn [snd] in Hpure; subst w0.
  2:{ erewrite bind_raise by exact Hpeer. reflexivity. }
  erewrite bind_ok by exact Hpeer.
  unfold try_finally.
  match goal with |- context [try_except is_Exception ?body pass w] =>
    assert (Hbody : written (trace (snd (try_except is_Exception body pass w)))
                    = written (trace w));
    [|destruct (try_except is_Exception body pass w) as [r w1]]
  end.
  { unfold try_except.
    pose proof (generic_loop_silent (S (List.length (incoming w)))
                  (<["service" := dict_get ctx1 "service" (VStr (lit "tcp"))]> ctx1) w) as H.
    destruct (generic_loop _ _ false w) as [[[]|e] w1]; [exact H|].
    destruct (is_Exception e); exact H. }
  destruct (cleanup_outcome w1) as (tail & -> & _ & Hwritten).
  cbn [snd trace with_trace] in *.
  change (EvClose :: tail) with ([EvClose] ++ tail).
  rewrite !written_app.
  replace (written [EvClose] ++ written tail) with (@nil bytes)
    by (rewrite Hwritten; reflexivity).
  rewrite (app_nil_r (written (trace w1))). exact Hbody.
Qed.

(** X10. Without [echo] the generic handler never writes to the peer,
    whatever the peer sends and whatever fails. *)
Theorem generic_tcp_handler_silent ctx w :
  written (trace (snd (generic_tcp_handler ctx false w))) = written (trace w).
Proof. apply generic_tcp_handler_writes_nothing. Qed.

Lemma written_sink_event logger record : written [sink_event logger record] = [].
Proof. destruct logger as [| | | | | | | |[filename|id]]; reflexivity. Qed.

Lemma logged_sink_event logger record : logged [sink_event logger record] = [record].
Proof. destruct logger as [| | | | | | | |[filename|id]]; reflexivity. Qed.

Lemma generic_session_written e ctx script :
  Forall arrives script ->
  forall tick, written (generic_session e ctx true tick script) = received script.
Proof.
  induction 1 as [|[d [data|x]] rest Hev _ IH]; intros tick;
    cbn [generic_session received]; [reflexivity| |destruct Hev].
  destruct (nonempty data); [|reflexivity].
  match goal with |- written (_ :: sink_event ?l ?r :: _ ++ ?s) = _ =>
    change (written ([EvRead data] ++ [sink_event l r] ++ [EvWrite data; EvDrain] ++ s)
            = data :: received rest)
  end.
  rewrite !written_app, written_sink_event, IH. reflexivity.
Qed.

Lemma generic_session_logged e ctx echo script :
  Forall arrives script ->
  forall tick,
    List.map (fun r : gmap string pyval => r !! "raw_hex")
      (logged (generic_session e ctx echo tick script))
    = List.map (fun chunk => Some (VStr (lowercase_hex chunk))) (received script).
Proof.
  induction 1 as [|[d [data|x]] rest Hev _ IH]; intros tick;
    cbn [generic_session received]; [reflexivity| |destruct Hev].
  destruct (nonempty data); [|reflexivity].
  match goal with |- context [_ :: sink_event ?l ?r :: ?mid ++ ?s] =>
    change (EvRead data :: sink_event l r :: mid ++ s)
      with ([EvRead data] ++ [sink_event l r] ++ mid ++ s);
    rewrite !logged_app, logged_sink_event;
    replace (logged mid) with (@nil (gmap string pyval)) by (destruct echo; reflexivity)
  end.
  cbn [logged omap list_omap app List.map]. rewrite IH.
  f_equal; apply interaction_record_fields.
Qed.

(** X11. With [echo], while neither the transport nor the sink fails, the
    generic handler writes back exactly the chunks it received, unchanged
    and in order, up to the first empty read; and the records it logs carry,
    in the same order, the hexadecimal text of those chunks. *)
Theorem generic_tcp_handler_echo_round_trip ctx w host port more :
  peername w = VTuple (host :: port :: more) ->
  Forall arrives (incoming w) ->
  (forall t, drain_fault (env w) t = None) ->
  sink_accepts (env w) (dict_get ctx "logger" VNone) ->
  exists new,
    fst (generic_tcp_handler ctx true w) = Ok tt
    /\ written (trace (snd (generic_tcp_handler ctx true w)))
       = written (trace w) ++ received (incoming w)
    /\ logged (trace (snd (generic_tcp_handler ctx true w))) = logged (trace w) ++ new
    /\ List.map (fun r : gmap string pyval => r !! "raw_hex") new
       = List.map (fun chunk => Some (VStr (lowercase_hex chunk))) (received (incoming w)).
Proof.
  intros Hpeer Hok Hdrain Hsink.
  destruct (generic_tcp_handler_session ctx true w host port more Hpeer Hok Hdrain Hsink)
    as (w' & tail & -> & Htrace & Hlogged & Hwritten).
  cbn [fst snd]. rewrite Htrace.
  exists (logged (generic_session (env w) (generic_ctx ctx host port) true (ticks w)
                    (incoming w))).
  change (EvClose :: tail) with ([EvClose] ++ tail).
  rewrite !written_app, !logged_app, Hlogged, Hwritten.
  rewrite generic_session_written by exact Hok.
  split; [reflexivity|]. split; [|split].
  - cbn [written omap list_omap app]. rewrite !app_nil_r. reflexivity.
  - cbn [logged omap list_omap app]. rewrite !app_nil_r. reflexivity.
  - apply generic_session_logged. exact Hok.
Qed.

Lemma generic_tcp_handler_echo_round_trip_witness :
  let ctx : gmap string pyval := {[ "logger" := Scenario.sink ]} in
  let w := Scenario.connection Scenario.calm Scenario.peer Scenario.ping in
  exists new,
    fst (generic_tcp_handler ctx true w) = Ok tt
    /\ written (trace (snd (generic_tcp_handler ctx true w)))
       = written (trace w) ++ received (incoming w)
    /\ logged (trace (snd (generic_tcp_handler ctx true w))) = logged (trace w) ++ new
    /\ List.map (fun r : gmap string pyval => r !! "raw_hex") new
       = List.map (fun chunk => Some (VStr (lowercase_hex chunk))) (received (incoming w)).
Proof.
  intros ctx w.
  apply (generic_tcp_handler_echo_round_trip ctx w
           (VStr (lit "203.0.113.9")) (VInt 40000) []).
  - reflexivity.
  - repeat constructor.
  - reflexivity.
  - intros record w0 H. unfold sink_fault. subst ctx. cbn. rewrite H. reflexivity.
Defined.

(** X12. A sink that refuses a record with an [Exception] ends the session
    of the generic handler without a sign: the chunk is read but neither
    logged nor echoed, what the peer sends afterwards is never read, the
    writer is closed and the handler returns normally. *)
Theorem generic_tcp_handler_stops_when_sink_fails ctx echo w host port more d data rest x :
  peername w = VTuple (host :: port :: more) ->
  incoming w = ReadEvent d (Ok data) :: rest ->
  nonempty data = true ->
  sink_refuses (env w) (dict_get ctx "logger" VNone) x ->
  is_Exception x = true ->
  exists tail,
    generic_tcp_handler ctx echo w
    = (Ok tt,
       World (env w) (peername w) rest (S (ticks w))
         (trace w ++ EvRead data :: EvClose :: tail))
    /\ written tail = [] /\ logged tail = [].
Proof.
  intros Hpeer Hin Hdata Hsink Hx. unfold generic_tcp_handler.
  erewrite bind_ok by (eapply set_peer_address; exact Hpeer).
  fold (generic_ctx ctx host port).
  set (w1 := with_trace (trace w ++ [EvRead data]) (with_incoming rest w)).
  assert (Hloop : generic_loop (S (List.length (incoming w))) (generic_ctx ctx host port) echo w
                  = (Raise x, with_ticks (S (ticks w)) w1)).
  { rewrite generic_loop_unfold. unfold await. rewrite Hin. fold w1. cbv beta iota.
    rewrite Hdata.
    rewrite (log_interaction_refused (generic_ctx ctx host port) (lit "client") data w1 x);
      [reflexivity|].
    rewrite generic_ctx_logger. exact Hsink. }
  unfold try_finally, try_except at 1. rewrite Hloop, Hx. unfold pass at 1.
  change ((mret tt : M unit) (with_ticks (S (ticks w)) w1))
    with (@Ok unit tt, with_ticks (S (ticks w)) w1).
  destruct (cleanup_outcome (with_ticks (S (ticks w)) w1)) as (tail & -> & Hlogged & Hwritten).
  exists tail. split; [|split; assumption].
  destruct w. cbn. rewrite <- app_assoc. reflexivity.
Qed.

Lemma generic_tcp_handler_stops_when_sink_fails_witness :
  let ctx : gmap string pyval := {[ "logger" := Scenario.sink ]} in
  let w := Scenario.connection Scenario.full_disk Scenario.peer
             (Scenario.ping ++ Scenario.ping) in
  exists tail,
    generic_tcp_handler ctx true w
    = (Ok tt,
       World (env w) (peername w) Scenario.ping (S (ticks w))
         (trace w ++ EvRead (blit "ping") :: EvClose :: tail))
    /\ written tail = [] /\ logged tail = [].
Proof.
  intros ctx w.
  apply (generic_tcp_handler_stops_when_sink_fails ctx true w
           (VStr (lit "203.0.113.9")) (VInt 40000) [] 0 (blit "ping") Scenario.ping
           Scenario.ENOSPC).
  - reflexivity.
  - reflexivity.
  - reflexivity.
  - intros record w0 H. unfold sink_fault. subst ctx. cbn. rewrite H. reflexivity.
  - reflexivity.
Defined.

Lemma generic_loop_records fuel ctx echo :
  forall w, exists new,
    logged (trace (snd (generic_loop fuel ctx echo w))) = logged (trace w) ++ new
    /\ Forall (fun r : gmap string pyval =>
                 r !! "peer" = Some (dict_get ctx "peer" VNone)
                 /\ r !! "peer_port" = Some (dict_get ctx "peer_port" VNone)
                 /\ r !! "service" = Some (dict_get ctx "service" VNone)) new.
Proof.
  induction fuel as [|fuel IH]; intros w.
  { exists []. rewrite app_nil_r. split; [reflexivity | constructor]. }
  rewrite generic_loop_unfold.
  pose proof (await_logs_nothing (reader_read 4096) w) as Hread.
  destruct (await (reader_read 4096) w) as [[data|e] w1]; cbn [snd] in Hread.
  2:{ exists []. rewrite app_nil_r. split; [exact Hread | constructor]. }
  destruct (nonempty data).
  2:{ exists []. rewrite app_nil_r. split; [exact Hread | constructor]. }
  destruct (log_interaction_outcome ctx (lit "client") data w1) as (text & _ & ->).
  unfold delivered.
  destruct (sink_fault _ _ _).
  { exists []. rewrite app_nil_r. split; [exact Hread | constructor]. }
  match goal with |- context [with_trace (?t ++ [sink_event ?l ?r]) ?w0] =>
    set (w2 := with_trace (t ++ [sink_event l r]) w0);
    assert (Hlog : logged (trace w2) = logged (trace w) ++ [r])
      by (subst w2; cbn [trace with_trace with_ticks];
          rewrite logged_app, logged_sink_event; cbn [trace with_ticks]; congruence);
    assert (Hfields : r !! "peer" = Some (dict_get ctx "peer" VNone)
                      /\ r !! "peer_port" = Some (dict_get ctx "peer_port" VNone)
                      /\ r !! "service" = Some (dict_get ctx "service" VNone))
      by (unfold interaction_record; repeat split; by simplify_map_eq);
    set (record := r) in *
  end.
  assert (Hecho : forall w3, logged (trace w3) = logged (trace w2) ->
            exists new,
              logged (trace (snd (generic_loop fuel ctx echo w3))) = logged (trace w) ++ new
              /\ Forall (fun r : gmap string pyval =>
                           r !! "peer" = Some (dict_get ctx "peer" VNone)
                           /\ r !! "peer_port" = Some (dict_get ctx "peer_port" VNone)
                           /\ r !! "service" = Some (dict_get ctx "service" VNone)) new).
  { intros w3 Hw3. destruct (IH w3) as (new & Hnew & Hall).
    exists (record :: new). split; [|constructor; assumption].
    rewrite Hnew, Hw3, Hlog, <- app_assoc. reflexivity. }
  destruct echo.
  - pose proof (echo_logs_nothing data w2) as Hquiet.
    destruct ((writer_write data;; writer_drain) w2) as [[[]|e] w3]; cbn [snd] in Hquiet.
    + apply Hecho. exact Hquiet.
    + exists [record]. cbn [snd]. split; [congruence | constructor; [exact Hfields | constructor]].
  - change ((mret tt : M unit) w2) with (@Ok unit tt, w2). cbv beta iota.
    apply Hecho. reflexivity.
Qed.

Lemma generic_h_outcome listener port echo ctx w service :
  py_get listener "service" (VStr (lit "tcp_" ++ py_str port)) = Ok service ->
  generic_h listener port echo ctx w
  = generic_tcp_handler (<["service" := service]> ctx) echo w.
Proof. intros H. unfold generic_h. rewrite H. reflexivity. Qed.

(** X13. Every record a configured generic listener logs on a connection
    names the peer's address and port and the listener's service: the one
    configured as [service], or [tcp_] followed by the port when none is;
    the default [tcp] of [generic_tcp_handler] is never used. *)
Theorem generic_h_records_name_peer_and_service listener port echo ctx w host pport more service :
  peername w = VTuple (host :: pport :: more) ->
  py_get listener "service" (VStr (lit "tcp_" ++ py_str port)) = Ok service ->
  exists new,
    logged (trace (snd (generic_h listener port echo ctx w))) = logged (trace w) ++ new
    /\ Forall (fun r : gmap string pyval =>
                 r !! "peer" = Some host
                 /\ r !! "peer_port" = Some pport
                 /\ r !! "service" = Some service) new.
Proof.
  intros Hpeer Hservice. rewrite (generic_h_outcome _ _ _ _ _ _ Hservice).
  unfold generic_tcp_handler.
  erewrite bind_ok by (eapply set_peer_address; exact Hpeer).
  set (ctx1 := <["service" := _]> (<["peer_port" := pport]> _)).
  assert (Hctx : dict_get ctx1 "peer" VNone = host
                 /\ dict_get ctx1 "peer_port" VNone = pport
                 /\ dict_get ctx1 "service" VNone = service).
  { subst ctx1. unfold dict_get. repeat split; by simplify_map_eq. }
  destruct Hctx as (Hhost & Hport & Hsvc).
  unfold try_finally.
  match goal with |- context [try_except is_Exception ?body pass w] =>
    assert (Hbody : exists new,
              logged (trace (snd (try_except is_Exception body pass w)))
              = logged (trace w) ++ new
              /\ Forall (fun r : gmap string pyval =>
                           r !! "peer" = Some host
                           /\ r !! "peer_port" = Some pport
                           /\ r !! "service" = Some service) new);
    [|destruct (try_except is_Exception body pass w) as [r w1]]
  end.
  { unfold try_except.
    pose proof (generic_loop_records (S (List.length (incoming w))) ctx1 echo w) as H.
    rewrite Hhost, Hport, Hsvc in H.
    destruct (generic_loop _ ctx1 echo w) as [[[]|e] w1]; [exact H|].
    destruct (is_Exception e); exact H. }
  destruct Hbody as (new & Hnew & Hall). cbn [snd] in Hnew.
  destruct (cleanup_outcome w1) as (tail & Hcleanup & Hlogged & _).
  exists new. split; [|exact Hall].
  match goal with |- context [match ?c with _ => _ end] =>
    replace c with (@Ok unit tt, with_trace (trace w1 ++ EvClose :: tail) w1)
  end.
  cbn [snd trace with_trace].
  change (EvClose :: tail) with ([EvClose] ++ tail).
  rewrite !logged_app, Hlogged, Hnew. cbn [logged omap list_omap app].
  rewrite !app_nil_r. reflexivity.
Qed.

Lemma generic_h_records_name_peer_and_service_witness :
  let listener := VDict {[ "port" := VInt 502; "handler" := VStr (lit "generic") ]} in
  let w := Scenario.connection Scenario.calm Scenario.peer Scenario.ping in
  exists new,
    logged (trace (snd (generic_h listener (VInt 502) false {[ "logger" := Scenario.sink ]} w)))
    = logged (trace w) ++ new
    /\ Forall (fun r : gmap string pyval =>
                 r !! "peer" = Some (VStr (lit "203.0.113.9"))
                 /\ r !! "peer_port" = Some (VInt 40000)
                 /\ r !! "service" = Some (VStr (lit "tcp_502"))) new.
Proof.
  intros listener w.
  apply (generic_h_records_name_peer_and_service listener (VInt 502) false
           {[ "logger" := Scenario.sink ]} w
           (VStr (lit "203.0.113.9")) (VInt 40000) [] (VStr (lit "tcp_502"))).
  - reflexivity.
  - reflexivity.
Defined.

(** ** Listeners and their handlers *)

Lemma client_connected_same_written logger port name handler w :
  (forall ctx, written (trace (snd (handler ctx w))) = written (trace w)) ->
  written (trace (snd (client_connected logger port name handler w))) = written (trace w).
Proof.
  intros Hhandler. rewrite client_connected_ctx.
  destruct (supervisor_ctx logger (peername w)) as [ctx|e]; [|reflexivity].
  specialize (Hhandler ctx). unfold try_except.
  destruct (handler ctx w) as [[[]|e] w1]; cbn [snd] in Hhandler; [exact Hhandler|].
  destruct (is_Exception e); [|exact Hhandler].
  erewrite bind_ok by reflexivity.
  pose proof (py_call_same_wire logger
                (handler_exception_record (clock (env w1) (ticks w1)) port name e)
                (with_ticks (S (ticks w1)) w1)) as [Hcall _].
  rewrite Hcall. exact Hhandler.
Qed.

(** X14. A listener whose handler name is neither [http] nor [banner],
    whatever else it is, is served by the generic handler: the server
    [start_listener] returns runs, for every connection,
    [client_connected] over the generic wrapper with [echo] as the truth
    value of what is configured.  So it closes every connection that has
    a peer address, and when [echo] is absent or falsy it never writes a
    byte to any peer. *)
Theorem unknown_handler_is_generic_and_silent d host logger w0 srv w1 :
  start_listener host (VDict d) logger w0 = (Ok srv, w1) ->
  py_eq_str (dict_get d "handler" VNone) (lit "http") = false ->
  py_eq_str (dict_get d "handler" VNone) (lit "banner") = false ->
  server_callback srv
  = client_connected logger (dict_get d "port" VNone) (dict_get d "handler" VNone)
      (generic_h (VDict d) (dict_get d "port" VNone)
         (truthy (dict_get d "echo" (VBool false))))
  /\ (forall w peer_host peer_port more,
        peername w = VTuple (peer_host :: peer_port :: more) ->
        closed (trace (snd (server_callback srv w))) = true)
  /\ (truthy (dict_get d "echo" (VBool false)) = false ->
      forall w, written (trace (snd (server_callback srv w))) = written (trace w)).
Proof.
  intros Hstart Hhttp Hbanner.
  apply start_listener_server in Hstart
    as (port & name & handler & Hport & Hname & Hselect & ->).
  cbn [server_callback].
  cbn [py_get] in Hport, Hname. injection Hport as <-. injection Hname as <-.
  unfold select_handler in Hselect. rewrite Hhttp, Hbanner in Hselect.
  cbn [py_get] in Hselect. injection Hselect as <-.
  split; [reflexivity|]. split.
  - intros w peer_host peer_port more Hpeer.
    rewrite (client_connected_address _ _ _ _ _ _ _ _ Hpeer).
    match goal with |- context [try_except is_Exception ?body _ w] =>
      pose proof (supervised_extends logger (dict_get d "port" VNone)
                    (dict_get d "handler" VNone) body w) as [more' ->];
      assert (Hbody : closed (trace (snd (body w))) = true)
    end.
    { unfold generic_h. cbn [py_get]. rewrite bind_lift_ok.
      eapply generic_tcp_handler_closes. exact Hpeer. }
    rewrite closed_app, Hbody. reflexivity.
  - intros Hecho w. rewrite Hecho.
    apply client_connected_same_written. intros ctx.
    unfold generic_h. cbn [py_get]. rewrite bind_lift_ok.
    apply generic_tcp_handler_writes_nothing.
Qed.

Lemma unknown_handler_is_generic_and_silent_witness :
  let d : gmap string pyval := {[ "port" := VInt 8080; "handler" := VStr (lit "HTTP") ]} in
  let w0 := Scenario.connection Scenario.calm VNone [] in
  let srv := Server (VStr (lit "0.0.0.0")) (VInt 8080)
               (client_connected Scenario.sink (VInt 8080) (VStr (lit "HTTP"))
                  (generic_h (VDict d) (VInt 8080) false)) in
  server_callback srv
  = client_connected Scenario.sink (dict_get d "port" VNone) (dict_get d "handler" VNone)
      (generic_h (VDict d) (dict_get d "port" VNone)
         (truthy (dict_get d "echo" (VBool false))))
  /\ (forall w peer_host peer_port more,
        peername w = VTuple (peer_host :: peer_port :: more) ->
        closed (trace (snd (server_callback srv w))) = true)
  /\ (truthy (dict_get d "echo" (VBool false)) = false ->
      forall w, written (trace (snd (server_callback srv w))) = written (trace w)).
Proof.
  intros d w0 srv.
  apply (unknown_handler_is_generic_and_silent d (VStr (lit "0.0.0.0")) Scenario.sink w0 srv
           (with_trace [EvListen (VStr (lit "0.0.0.0")) (VInt 8080);
                        EvPrint (lit "[+] Listening on ('0.0.0.0', 0) (handler=HTTP)")] w0)).
  - reflexivity.
  - reflexivity.
  - reflexivity.
Defined.

Lemma accepted_ctx_logger logger host port :
  dict_get (accepted_ctx logger host port) "logger" VNone = logger.
Proof. unfold accepted_ctx, dict_get. by simplify_map_eq. Qed.

(** With a sink that takes every record and a first read that does not
    fail, [http_handler] gets as far as building the response, which is
    where it raises. *)
Lemma http_handler_no_format ctx w host port more :
  peername w = VTuple (host :: port :: more) ->
  Forall arrives (incoming w) ->
  sink_accepts (env w) (dict_get ctx "logger" VNone) ->
  exists w1,
    http_handler ctx w = (Raise no_format, w1)
    /\ env w1 = env w
    /\ only_client_records w w1.
Proof.
  intros Hpeer Hok Hsink.
  assert (Hread : exists data w2,
            try_except is_TimeoutError (wait_for (reader_read 4096) 3000)
              (fun _ => mret []) w = (Ok data, w2)
            /\ env w2 = env w /\ logged (trace w2) = logged (trace w)).
  { pose proof (guarded_read_logs_nothing 4096 3000 w) as Hquiet.
    unfold try_except, wait_for, await in *.
    destruct (incoming w) as [|[d [data|x]] rest].
    - eexists _, _. split; [reflexivity|]. split; [reflexivity | exact Hquiet].
    - destruct (3000 <? d); eexists _, _;
        (split; [reflexivity|]; split; [reflexivity | exact Hquiet]).
    - inversion Hok as [|? ? Hx]. destruct Hx. }
  destruct Hread as (data & w2 & Hread & Henv & Hquiet).
  rewrite http_handler_unfold. erewrite set_peer_address by exact Hpeer.
  rewrite Hread. fold (http_ctx ctx host port).
  destruct (nonempty data).
  - rewrite log_interaction_accepted by (rewrite http_ctx_logger, Henv; exact Hsink).
    eexists. split; [reflexivity|]. split; [exact Henv|].
    eexists [_]. cbn [trace with_trace with_ticks].
    rewrite logged_app, logged_sink_event, Hquiet. split; [reflexivity|].
    constructor; [apply interaction_record_fields | constructor].
  - exists w2. split; [reflexivity|]. split; [exact Henv|].
    apply only_client_same. exact Hquiet.
Qed.

(** X15. What a connection to the HTTP listener leaves behind when the
    read does not fail and the sink takes every record: at most the
    client's record, then one [handler_exception] record whose error is
    that [bytes] has no [format]; [client_connected] returns normally, and
    the peer has been sent nothing and the writer has not been closed. *)
Theorem http_connection_ends_in_handler_exception c port name w host pport more :
  peername w = VTuple (host :: pport :: more) ->
  Forall arrives (incoming w) ->
  sink_accepts (env w) (VCallable c) ->
  exists ts clients,
    fst (client_connected (VCallable c) port name http_handler w) = Ok tt
    /\ logged (trace (snd (client_connected (VCallable c) port name http_handler w)))
       = logged (trace w) ++ clients ++ [handler_exception_record ts port name no_format]
    /\ Forall (fun r : gmap string pyval => r !! "role" = Some (VStr (lit "client"))) clients
    /\ written (trace (snd (client_connected (VCallable c) port name http_handler w)))
       = written (trace w)
    /\ closed (trace (snd (client_connected (VCallable c) port name http_handler w)))
       = closed (trace w).
Proof.
  intros Hpeer Hok Hsink.
  rewrite (client_connected_address _ _ _ _ _ _ _ _ Hpeer).
  destruct (http_handler_no_format (accepted_ctx (VCallable c) host pport) w host pport more Hpeer Hok)
    as (w1 & Hrun & Henv & clients & Hclients & Hroles).
  { rewrite accepted_ctx_logger. exact Hsink. }
  destruct (http_handler_outcome (accepted_ctx (VCallable c) host pport) w)
    as (e' & w' & Hrun' & Hwritten & Hclosed).
  rewrite Hrun in Hrun'. injection Hrun' as _ <-.
  unfold try_except. rewrite Hrun. change (is_Exception no_format) with true.
  erewrite bind_ok by reflexivity.
  rewrite py_call_callable. unfold delivered.
  rewrite (Hsink _ (with_ticks (S (ticks w1)) w1) Henv).
  exists (clock (env w1) (ticks w1)), clients.
  cbn [fst snd trace with_trace with_ticks].
  rewrite logged_snoc, written_snoc, closed_snoc, Hclients, Hwritten, Hclosed.
  destruct c; cbn [sink_event]; rewrite ?app_nil_r, ?orb_false_r, <- ?app_assoc; auto.
Qed.

Lemma http_connection_ends_in_handler_exception_witness :
  let w := Scenario.connection Scenario.calm Scenario.peer Scenario.ping in
  let out := client_connected Scenario.sink (VInt 80) (VStr (lit "http")) http_handler w in
  exists ts clients,
    fst out = Ok tt
    /\ logged (trace (snd out))
       = logged (trace w) ++ clients
         ++ [handler_exception_record ts (VInt 80) (VStr (lit "http")) no_format]
    /\ Forall (fun r : gmap string pyval => r !! "role" = Some (VStr (lit "client"))) clients
    /\ written (trace (snd out)) = written (trace w)
    /\ closed (trace (snd out)) = closed (trace w).
Proof.
  intros w out.
  apply (http_connection_ends_in_handler_exception (external 0) (VInt 80) (VStr (lit "http")) w
           (VStr (lit "203.0.113.9")) (VInt 40000) []).
  - reflexivity.
  - repeat constructor.
  - apply calm_accepts.
Defined.

(** X16. [log_interaction] falls back to a file when the logger is not
    callable, but [client_connected] calls it all the same: with such a
    logger, an [Exception] of the handler is not recorded; it is replaced
    by the [TypeError] of the call, which leaves [client_connected]. *)
Theorem handler_exception_lost_without_callable_logger logger port name handler w ctx e w' :
  supervisor_ctx logger (peername w) = Ok ctx ->
  handler ctx w = (Raise e, w') ->
  is_Exception e = true ->
  py_callable logger = false ->
  client_connected logger port name handler w
  = (Raise (not_callable logger), with_ticks (S (ticks w')) w').
Proof.
  intros Hctx Hrun Hexc Hlogger.
  rewrite client_connected_ctx, Hctx. unfold try_except. rewrite Hrun, Hexc.
  erewrite bind_ok by reflexivity.
  destruct logger; try discriminate; reflexivity.
Qed.

Lemma handler_exception_lost_without_callable_logger_witness :
  let w := Scenario.connection Scenario.calm Scenario.peer Scenario.silent in
  client_connected VNone (VInt 80) (VStr (lit "http")) http_handler w
  = (Raise (not_callable VNone), with_ticks (S (ticks (timed_out 3000 w))) (timed_out 3000 w)).
Proof.
  intros w.
  apply (handler_exception_lost_without_callable_logger VNone (VInt 80) (VStr (lit "http"))
           http_handler w
           (accepted_ctx VNone (VStr (lit "203.0.113.9")) (VInt 40000)) no_format
           (timed_out 3000 w)).
  - reflexivity.
  - reflexivity.
  - reflexivity.
  - reflexivity.
Defined.

Lemma result_map_raises {A B} (f : A -> B) r e :
  result_map f r = Raise e -> r = Raise e.
Proof. destruct r; [discriminate | intros [= ->]; reflexivity]. Qed.

(** Whatever the decoder rejects, it rejects with [UnicodeDecodeError]. *)
Lemma unicode_escape_raises names data :
  forall st pos e, unicode_escape_from names st pos data = Raise e ->
                   exn_class_of e = UnicodeDecodeError.
Proof.
  induction data as [|b rest IH]; intros st pos e.
  - destruct st; cbn [unicode_escape_from]; try discriminate;
      intros [= <-]; reflexivity.
  - cbn [unicode_escape_from]. cbv zeta.
    destruct st as [|start|reason todo acc start|todo acc|start|name start];
      repeat first
        [ progress intros
        | match goal with
          | H : escape_error _ _ _ = Raise _ |- _ => injection H as <-; reflexivity
          | H : unicode_escape_from _ _ _ _ = Raise _ |- _ => exact (IH _ _ _ H)
          | H : result_map _ _ = Raise _ |- _ => apply result_map_raises in H
          | H : (if ?c then _ else _) = Raise _ |- _ => destruct c
          | H : match ?x with _ => _ end = Raise _ |- _ => destruct x
          end ].
Qed.

Lemma utf8_encode_raises s e :
  utf8_encode s = Raise e -> exn_class_of e = UnicodeEncodeError.
Proof.
  unfold utf8_encode. generalize 0%nat as pos. revert e.
  induction s as [|c s IH]; intros e pos; [discriminate|]. cbn [utf8_encode_from].
  destruct (utf8_encode_char c) as [bs|].
  - intros H. apply result_map_raises in H. exact (IH _ _ H).
  - intros [= <-]. reflexivity.
Qed.

(** Turning the configured banner into bytes fails only with an
    [Exception]: the value has no [get] or no [encode], or one of the
    codecs rejects the text. *)
Lemma configured_banner_raises names listener e :
  configured_banner names listener = Raise e -> is_Exception e = true.
Proof.
  unfold configured_banner.
  destruct (py_get listener "banner" _) as [configured|x] eqn:Hget.
  2:{ intros [= <-]. apply py_get_raises_attribute_error in Hget. tauto. }
  destruct (py_encode configured) as [encoded|x] eqn:Hencode.
  2:{ intros [= <-]. destruct configured; cbn [py_encode] in Hencode;
        try (injection Hencode as <-; reflexivity).
      apply utf8_encode_raises in Hencode. unfold is_Exception. rewrite Hencode. reflexivity. }
  destruct (unicode_escape_decode names encoded) as [decoded|x] eqn:Hdecode.
  2:{ intros [= <-]. apply unicode_escape_raises in Hdecode.
      unfold is_Exception. rewrite Hdecode. reflexivity. }
  intros H. apply utf8_encode_raises in H. unfold is_Exception. rewrite H. reflexivity.
Qed.

(** X17. A banner that cannot be turned into bytes (a value that is not a
    string, an escape sequence the codec rejects, a character UTF-8 cannot
    encode) does not keep the listener from starting: whatever the banner,
    [start_listener] returns a server when the bind succeeds.  The banner
    fails on every connection instead: nothing is sent, nothing is read,
    the writer is not closed, and the one record logged is a
    [handler_exception] with the text of the error. *)
Theorem undecodable_banner_fails_each_connection d host c w0 :
  d !! "handler" = Some (VStr (lit "banner")) ->
  bind_fault (env w0) host (dict_get d "port" VNone) (trace w0) = None ->
  exists srv w1,
    start_listener host (VDict d) (VCallable c) w0 = (Ok srv, w1)
    /\ forall w e peer_host peer_port more,
         configured_banner (unicode_names (env w)) (VDict d) = Raise e ->
         peername w = VTuple (peer_host :: peer_port :: more) ->
         sink_accepts (env w) (VCallable c) ->
         server_callback srv w
         = (Ok tt,
            World (env w) (peername w) (incoming w) (S (ticks w))
              (trace w ++ [sink_event (VCallable c)
                             (handler_exception_record (clock (env w) (ticks w))
                                (dict_get d "port" VNone) (VStr (lit "banner")) e)])).
Proof.
  intros Hhandler Hbind.
  assert (Hname : dict_get d "handler" VNone = VStr (lit "banner"))
    by (unfold dict_get; rewrite Hhandler; reflexivity).
  assert (Hselect : select_handler (VDict d) (dict_get d "port" VNone)
                      (dict_get d "handler" VNone) = Ok (banner_h (VDict d))).
  { rewrite Hname. unfold select_handler.
    change (py_eq_str (VStr (lit "banner")) (lit "http")) with false.
    change (py_eq_str (VStr (lit "banner")) (lit "banner")) with true.
    reflexivity. }
  eexists _, _. split.
  { rewrite (start_listener_dict host d (VCallable c) w0 _ Hselect), Hbind. reflexivity. }
  intros w e peer_host peer_port more Hbanner Hpeer Hsink.
  cbn [server_callback]. rewrite Hname.
  rewrite (client_connected_address _ _ _ _ _ _ _ _ Hpeer).
  assert (Hrun : banner_h (VDict d) (accepted_ctx (VCallable c) peer_host peer_port) w
                 = (Raise e, w)).
  { unfold banner_h. erewrite bind_ok by reflexivity. rewrite Hbanner. reflexivity. }
  unfold try_except. rewrite Hrun, (configured_banner_raises _ _ _ Hbanner).
  erewrite bind_ok by reflexivity.
  rewrite py_call_callable. unfold delivered.
  rewrite (Hsink _ (with_ticks (S (ticks w)) w) eq_refl).
  destruct w. reflexivity.
Qed.

Lemma undecodable_banner_fails_each_connection_witness :
  let d : gmap string pyval :=
    {[ "port" := VInt 2222; "handler" := VStr (lit "banner");
       "banner" := VStr (lit "login:\") ]} in
  let w0 := Scenario.connection Scenario.calm VNone [] in
  exists srv w1,
    start_listener (VStr (lit "0.0.0.0")) (VDict d) Scenario.sink w0 = (Ok srv, w1)
    /\ forall w e peer_host peer_port more,
         configured_banner (unicode_names (env w)) (VDict d) = Raise e ->
         peername w = VTuple (peer_host :: peer_port :: more) ->
         sink_accepts (env w) Scenario.sink ->
         server_callback srv w
         = (Ok tt,
            World (env w) (peername w) (incoming w) (S (ticks w))
              (trace w ++ [sink_event Scenario.sink
                             (handler_exception_record (clock (env w) (ticks w))
                                (dict_get d "port" VNone) (VStr (lit "banner")) e)])).
Proof.
  intros d w0.
  apply (undecodable_banner_fails_each_connection d (VStr (lit "0.0.0.0")) (external 0) w0).
  - reflexivity.
  - reflexivity.
Defined.

(** The banner of that listener is rejected by the codec, with the text
    Python gives the error. *)
Example lone_backslash_rejected :
  configured_banner Scenario.no_names (VDict {[ "banner" := VStr (lit "login:\") ]})
  = Raise (Exn UnicodeDecodeError
             "'unicodeescape' codec can't decode byte 0x5c in position 6: \ at end of string").
Proof. reflexivity. Qed.

(** ** The configured banner, continued *)

Lemma utf8_encode_from_short s :
  Forall (fun c => c < 2048) s ->
  forall pos, utf8_encode_from pos s = Ok (flat_map short_utf8 s).
Proof.
  induction 1 as [|c s Hc _ IH]; intros pos; [reflexivity|].
  cbn [utf8_encode_from flat_map]. unfold utf8_encode_char, short_utf8.
  rewrite IH. destruct (c <? 128); [reflexivity|].
  destruct (N.ltb_spec c 2048); [reflexivity | lia].
Qed.

(** X18. The configured banner reaches the peer as the UTF-8 encoding of
    the characters its text denotes, not as the bytes: a plain character
    or an escape for a value below 128 is sent as that byte, while an
    escape for a value from 128 to 2047, however it is written (in
    hexadecimal after x, u or U with digits in either case, in octal, or
    by name), is sent as two bytes, 192 + v / 64 and 128 + v mod 64. *)
Theorem configured_banner_is_utf8_of_escapes names d items :
  d !! "banner" = Some (VStr (as_configured items)) ->
  banner_items_ok 2048 names items = true ->
  configured_banner names (VDict d) = Ok (as_sent_utf8 names items)
  /\ (List.length (flat_map (item_chars names) items)
      <= List.length (as_sent_utf8 names items))%nat
  /\ (banner_items_ok 128 names items = true
      -> as_sent_utf8 names items = as_sent names items).
Proof.
  intros Hd H. split; [|split].
  - unfold configured_banner, py_get, dict_get. rewrite Hd.
    cbn [default from_option id py_encode].
    rewrite (utf8_encode_ascii _ (as_configured_ascii _ _ _ H)).
    unfold unicode_escape_decode.
    rewrite (unicode_escape_items 2048 names items) by (auto; lia).
    apply utf8_encode_from_short, (item_values_below _ _ _ H).
  - unfold as_sent_utf8. generalize (flat_map (item_chars names) items) as s.
    induction s as [|c s IH]; [reflexivity|].
    cbn [flat_map]. rewrite List.length_app. unfold short_utf8 at 1.
    destruct (c <? 128); cbn [List.length]; lia.
  - intros Hplain. apply item_values_below in Hplain.
    unfold as_sent_utf8, as_sent.
    induction Hplain as [|c s Hc _ IH]; [reflexivity|].
    cbn [List.map flat_map]. rewrite IH. unfold short_utf8.
    destruct (N.ltb_spec c 128); [reflexivity | lia].
Qed.

Lemma configured_banner_is_utf8_of_escapes_witness :
  let items := [Hex kind_x [HexDigit 15 true; HexDigit 15 false];
                Octal [3; 7; 3];
                Hex kind_u [HexDigit 0 false; HexDigit 0 false; HexDigit 0 false;
                            HexDigit 1 false];
                Plain 62] in
  let d : gmap string pyval := {[ "banner" := VStr (as_configured items) ]} in
  configured_banner Scenario.no_names (VDict d) = Ok (as_sent_utf8 Scenario.no_names items)
  /\ (List.length (flat_map (item_chars Scenario.no_names) items)
      <= List.length (as_sent_utf8 Scenario.no_names items))%nat
  /\ (banner_items_ok 128 Scenario.no_names items = true
      -> as_sent_utf8 Scenario.no_names items = as_sent Scenario.no_names items).
Proof.
  intros items d.
  apply (configured_banner_is_utf8_of_escapes Scenario.no_names d items).
  - reflexivity.
  - reflexivity.
Defined.

(** ** Start-up, continued *)




(** ** The log directory and the log file *)

(** [ensure_logdir] on a path given as text, and on one given as bytes. *)
Lemma ensure_logdir_str s w :
  ensure_logdir (VStr s) w =
  if exists_now (PathStr s) w then (Ok tt, w)
  else match makedirs_fault (env w) (PathStr s) (trace w) with
       | Some e => (Raise e, w)
       | None => (Ok tt, with_trace (trace w ++ [EvMakedirs (PathStr s)]) w)
       end.
Proof.
  unfold ensure_logdir, os_path_exists, os_makedirs, mbind, M_bind, gets, may_fail, emit.
  destruct (exists_now (PathStr s) w); [reflexivity|].
  destruct (makedirs_fault (env w) (PathStr s) (trace w)); reflexivity.
Qed.

Lemma ensure_logdir_bytes b w :
  ensure_logdir (VBytes b) w =
  if exists_now (PathBytes b) w then (Ok tt, w)
  else match makedirs_fault (env w) (PathBytes b) (trace w) with
       | Some e => (Raise e, w)
       | None => (Ok tt, with_trace (trace w ++ [EvMakedirs (PathBytes b)]) w)
       end.
Proof.
  unfold ensure_logdir, os_path_exists, os_makedirs, mbind, M_bind, gets, may_fail, emit.
  destruct (exists_now (PathBytes b) w); [reflexivity|].
  destruct (makedirs_fault (env w) (PathBytes b) (trace w)); reflexivity.
Qed.

(** [ensure_logdir] on a file descriptor: it returns when something is
    open under that number, raises otherwise, and changes nothing. *)
Lemma ensure_logdir_fd path fd w :
  os_path_exists path = fd_exists fd ->
  (forall w0, exists e, os_makedirs path w0 = (Raise e, w0)) ->
  (ensure_logdir path w = (Ok tt, w) /\ fd_exists fd w = (Ok true, w))
  \/ exists e, ensure_logdir path w = (Raise e, w).
Proof.
  intros Hexists Hmake. unfold ensure_logdir. rewrite Hexists.
  unfold fd_exists, mbind, M_bind, raise, gets.
  destruct (fd <? INT_MIN)%Z; [right; eauto|].
  destruct (INT_MAX <? fd)%Z; [right; eauto|].
  destruct (exists_now (PathFd fd) w); [left; split; reflexivity|].
  destruct (Hmake w) as [e ->]. right. eauto.
Qed.

Lemma made_snoc p t : made p (t ++ [EvMakedirs p]) = true.
Proof.
  unfold made. rewrite existsb_app. cbn [existsb].
  rewrite bool_decide_eq_true_2 by reflexivity. apply orb_true_iff. right. reflexivity.
Qed.

(** Where [ensure_logdir] leaves the world: as it was, or with the one
    directory made. *)
Lemma ensure_logdir_world path w :
  snd (ensure_logdir path w) = w
  \/ exists p, snd (ensure_logdir path w) = with_trace (trace w ++ [EvMakedirs p]) w.
Proof.
  destruct path as [|flag|fd|s|b|items|items|d|c]; try (left; reflexivity).
  - destruct (ensure_logdir_fd (VBool flag) (if flag then 1 else 0)%Z w eq_refl)
      as [[-> _] | [e ->]]; [intros w0; eexists; reflexivity | |]; left; reflexivity.
  - destruct (ensure_logdir_fd (VInt fd) fd w eq_refl)
      as [[-> _] | [e ->]]; [intros w0; eexists; reflexivity | |]; left; reflexivity.
  - rewrite ensure_logdir_str.
    destruct (exists_now (PathStr s) w); [left; reflexivity|].
    destruct (makedirs_fault (env w) (PathStr s) (trace w)); [left; reflexivity|].
    right. eexists. reflexivity.
  - rewrite ensure_logdir_bytes.
    destruct (exists_now (PathBytes b) w); [left; reflexivity|].
    destruct (makedirs_fault (env w) (PathBytes b) (trace w)); [left; reflexivity|].
    right. eexists. reflexivity.
Qed.

(** Once [ensure_logdir] has returned, it returns again and does nothing. *)
Lemma ensure_logdir_again path w w1 :
  ensure_logdir path w = (Ok tt, w1) -> ensure_logdir path w1 = (Ok tt, w1).
Proof.
  destruct path as [|flag|fd|s|b|items|items|d|c]; try discriminate.
  - destruct (ensure_logdir_fd (VBool flag) (if flag then 1 else 0)%Z w eq_refl)
      as [[-> Hfd] | [e ->]]; [intros w0; eexists; reflexivity | |discriminate].
    intros [= <-]. unfold ensure_logdir. cbn [os_path_exists].
    erewrite bind_ok by exact Hfd. reflexivity.
  - destruct (ensure_logdir_fd (VInt fd) fd w eq_refl)
      as [[-> Hfd] | [e ->]]; [intros w0; eexists; reflexivity | |discriminate].
    intros [= <-]. unfold ensure_logdir. cbn [os_path_exists].
    erewrite bind_ok by exact Hfd. reflexivity.
  - rewrite ensure_logdir_str.
    destruct (exists_now (PathStr s) w) eqn:Hthere.
    + intros [= <-]. rewrite ensure_logdir_str, Hthere. reflexivity.
    + destruct (makedirs_fault (env w) (PathStr s) (trace w)); [discriminate|].
      intros [= <-]. rewrite ensure_logdir_str. unfold exists_now.
      cbn [env trace with_trace]. rewrite made_snoc, orb_true_r. reflexivity.
  - rewrite ensure_logdir_bytes.
    destruct (exists_now (PathBytes b) w) eqn:Hthere.
    + intros [= <-]. rewrite ensure_logdir_bytes, Hthere. reflexivity.
    + destruct (makedirs_fault (env w) (PathBytes b) (trace w)); [discriminate|].
      intros [= <-]. rewrite ensure_logdir_bytes. unfold exists_now.
      cbn [env trace with_trace]. rewrite made_snoc, orb_true_r. reflexivity.
Qed.

(** X20. [ensure_logdir] is idempotent, whatever it is given for a path
    (text, bytes, a number taken for a file descriptor, or a value
    [os.stat] refuses): a second call right after the first, as
    [run_from_config] followed by [jsonl_logger_factory] makes it, changes
    nothing and fails only if the first one did; the directory is made at
    most once. *)
Theorem ensure_logdir_idempotent path w :
  (ensure_logdir path;; ensure_logdir path) w = ensure_logdir path w.
Proof.
  unfold mbind at 1. unfold M_bind at 1.
  destruct (ensure_logdir path w) as [[[]|e] w1] eqn:Hfirst; [|reflexivity].
  exact (ensure_logdir_again path w w1 Hfirst).
Qed.

Lemma jsonl_logger_factory_unfold path w :
  jsonl_logger_factory path w =
  match ensure_logdir path w with
  | (Raise e, w1) => (Raise e, w1)
  | (Ok _, w1) =>
      match os_path_join path (lit "interactions.jsonl") with
      | Raise e => (Raise e, w1)
      | Ok filename =>
          match touch_fault (env w1) filename (trace w1) with
          | Some e => (Raise e, w1)
          | None => (Ok (VCallable (jsonl_logger filename)),
                     with_trace (trace w1 ++ [EvTouch filename]) w1)
          end
      end
  end.
Proof.
  unfold jsonl_logger_factory, mbind, M_bind, lift, may_fail, emit.
  destruct (ensure_logdir path w) as [[[]|e] w1]; [|reflexivity].
  destruct (os_path_join path (lit "interactions.jsonl")) as [filename|e]; [|reflexivity].
  destruct (touch_fault (env w1) filename (trace w1)); reflexivity.
Qed.

(** X21. When [jsonl_logger_factory] returns, the directory exists or has
    just been made, the last thing done was to open and close the file
    [interactions.jsonl] inside it, and the logger returned is the one
    that appends to that file. *)
Theorem jsonl_logger_factory_outcome path w logger w' :
  jsonl_logger_factory path w = (Ok logger, w') ->
  exists p before,
    path = VStr p
    /\ logger = VCallable (jsonl_logger (path_join p (lit "interactions.jsonl")))
    /\ trace w' = trace w ++ before ++ [EvTouch (path_join p (lit "interactions.jsonl"))]
    /\ (before = [] \/ before = [EvMakedirs (PathStr p)])
    /\ path_exists (env w') (PathStr p) || made (PathStr p) (trace w') = true
    /\ forall record, sink_event logger record
                      = EvAppend (path_join p (lit "interactions.jsonl")) record.
Proof.
  rewrite jsonl_logger_factory_unfold.
  destruct path as [|flag|fd|p|b|items|items|d|c];
    try (destruct (ensure_logdir _ w) as [[[]|e] w1]; discriminate).
  rewrite ensure_logdir_str. cbn [os_path_join].
  assert (Hfinish : forall before w1,
            trace w1 = trace w ++ before ->
            (before = [] \/ before = [EvMakedirs (PathStr p)]) ->
            exists_now (PathStr p) w1 = true ->
            match touch_fault (env w1) (path_join p (lit "interactions.jsonl")) (trace w1) with
            | Some e => (Raise e, w1)
            | None => (Ok (VCallable (jsonl_logger (path_join p (lit "interactions.jsonl")))),
                       with_trace (trace w1 ++ [EvTouch (path_join p (lit "interactions.jsonl"))]) w1)
            end = (Ok logger, w') ->
            exists p0 before0,
              VStr p = VStr p0
              /\ logger = VCallable (jsonl_logger (path_join p0 (lit "interactions.jsonl")))
              /\ trace w' = trace w ++ before0
                            ++ [EvTouch (path_join p0 (lit "interactions.jsonl"))]
              /\ (before0 = [] \/ before0 = [EvMakedirs (PathStr p0)])
              /\ path_exists (env w') (PathStr p0) || made (PathStr p0) (trace w') = true
              /\ forall record, sink_event logger record
                                = EvAppend (path_join p0 (lit "interactions.jsonl")) record).
  { intros before w1 Htrace Hbefore Hthere.
    destruct (touch_fault (env w1) _ (trace w1)); [discriminate|].
    intros [= <- <-]. exists p, before. cbn [env trace with_trace].
    split; [reflexivity|]. split; [reflexivity|].
    split; [rewrite Htrace, <- app_assoc; reflexivity|].
    split; [exact Hbefore|]. split; [|reflexivity].
    unfold exists_now in Hthere.
    apply orb_true_iff in Hthere as [Hexists | Hmade]; apply orb_true_iff.
    - left. exact Hexists.
    - right. unfold made in *. rewrite existsb_app, Hmade. reflexivity. }
  destruct (exists_now (PathStr p) w) eqn:Hthere.
  - apply (Hfinish [] w); auto. symmetry. apply app_nil_r.
  - destruct (makedirs_fault (env w) (PathStr p) (trace w)); [discriminate|].
    apply (Hfinish [EvMakedirs (PathStr p)]); auto.
    unfold exists_now. cbn [env trace with_trace]. rewrite made_snoc. apply orb_true_r.
Qed.

Lemma jsonl_logger_factory_outcome_witness :
  let w := Scenario.connection Scenario.calm VNone [] in
  let logger := VCallable (jsonl_logger (lit "logs/interactions.jsonl")) in
  let w' := with_trace [EvMakedirs (PathStr (lit "logs"));
                        EvTouch (lit "logs/interactions.jsonl")] w in
  exists p before,
    VStr (lit "logs") = VStr p
    /\ logger = VCallable (jsonl_logger (path_join p (lit "interactions.jsonl")))
    /\ trace w' = trace w ++ before ++ [EvTouch (path_join p (lit "interactions.jsonl"))]
    /\ (before = [] \/ before = [EvMakedirs (PathStr p)])
    /\ path_exists (env w') (PathStr p) || made (PathStr p) (trace w') = true
    /\ forall record, sink_event logger record
                      = EvAppend (path_join p (lit "interactions.jsonl")) record.
Proof.
  intros w logger w'.
  apply (jsonl_logger_factory_outcome (VStr (lit "logs")) w logger w').
  reflexivity.
Defined.

Lemma ensure_logdir_quiet path w :
  env (snd (ensure_logdir path w)) = env w
  /\ bound_sockets (trace (snd (ensure_logdir path w))) = bound_sockets (trace w)
  /\ printed (trace (snd (ensure_logdir path w))) = printed (trace w).
Proof.
  destruct (ensure_logdir_world path w) as [-> | [p ->]]; [auto|].
  cbn [env trace with_trace]. unfold bound_sockets, printed.
  rewrite !omap_app. cbn. rewrite !app_nil_r. auto.
Qed.

Lemma jsonl_logger_factory_quiet path w :
  env (snd (jsonl_logger_factory path w)) = env w
  /\ bound_sockets (trace (snd (jsonl_logger_factory path w))) = bound_sockets (trace w)
  /\ printed (trace (snd (jsonl_logger_factory path w))) = printed (trace w).
Proof.
  rewrite jsonl_logger_factory_unfold.
  pose proof (ensure_logdir_quiet path w) as H.
  destruct (ensure_logdir path w) as [[[]|e] w1]; cbn [snd] in H; [|exact H].
  destruct (os_path_join path (lit "interactions.jsonl")) as [filename|e]; [|exact H].
  destruct (touch_fault (env w1) filename (trace w1)); [exact H|].
  destruct H as (Henv & Hbound & Hprinted).
  cbn [snd env trace with_trace]. unfold bound_sockets, printed in *.
  rewrite !omap_app, Hbound, Hprinted. cbn. rewrite !app_nil_r. auto.
Qed.

(** X22. When every fault of a bind is an [Exception], [run_from_config]
    can raise only before the first listener is tried, while the log is
    set up or the list of listeners is read: whenever it raises, no socket
    has been bound and no line printed. *)
Theorem run_from_config_raises_before_listeners cfg host w e w' :
  bind_faults_are_exceptions (env w) ->
  run_from_config cfg host w = (Raise e, w') ->
  bound_sockets (trace w') = bound_sockets (trace w)
  /\ printed (trace w') = printed (trace w).
Proof.
  intros Hbind. unfold run_from_config. unfold mbind at 1. unfold M_bind at 1.
  pose proof (ensure_logdir_quiet (dict_get cfg "log_dir" (VStr (lit "logs"))) w)
    as (Henv1 & Hbound1 & Hprinted1).
  destruct (ensure_logdir _ w) as [[[]|x] w1]; cbn [snd] in *.
  2:{ intros [= <- <-]. auto. }
  unfold mbind at 1. unfold M_bind at 1.
  pose proof (jsonl_logger_factory_quiet (dict_get cfg "log_dir" (VStr (lit "logs"))) w1)
    as (Henv2 & Hbound2 & Hprinted2).
  destruct (jsonl_logger_factory _ w1) as [[logger|x] w2]; cbn [snd] in *.
  2:{ intros [= <- <-]. split; congruence. }
  unfold mbind at 1. unfold M_bind at 1. unfold lift.
  destruct (py_iter _) as [items|x].
  2:{ intros [= <- <-]. split; congruence. }
  assert (Hbind2 : bind_faults_are_exceptions (env w2)) by (rewrite Henv2, Henv1; exact Hbind).
  destruct (start_each_outcome host logger items [] w2 Hbind2) as (started & evs & -> & _).
  discriminate.
Qed.

Lemma full_disk_bind_faults : bind_faults_are_exceptions Scenario.full_disk.
Proof. intros host port t x. discriminate. Qed.

Lemma run_from_config_raises_before_listeners_witness :
  let w := Scenario.connection Scenario.full_disk VNone [] in
  bound_sockets (trace w) = bound_sockets (trace w)
  /\ printed (trace w) = printed (trace w).
Proof.
  intros w.
  apply (run_from_config_raises_before_listeners DEFAULT_CONFIG (VStr (lit "0.0.0.0")) w
           Scenario.ENOSPC w).
  - exact full_disk_bind_faults.
  - reflexivity.
Defined.

(** X23. A listener served by the generic handler whose [echo] is any
    truthy value (the code takes [bool()] of what is configured, so a
    non-empty string will do) sends back to the peer exactly what it
    received, chunk by chunk, while neither the transport nor the sink
    fails; the connection then ends normally with the writer closed. *)
Theorem echo_listener_returns_what_it_receives
    d host c w0 srv w1 w peer_host peer_port more :
  start_listener host (VDict d) (VCallable c) w0 = (Ok srv, w1) ->
  py_eq_str (dict_get d "handler" VNone) (lit "http") = false ->
  py_eq_str (dict_get d "handler" VNone) (lit "banner") = false ->
  truthy (dict_get d "echo" (VBool false)) = true ->
  peername w = VTuple (peer_host :: peer_port :: more) ->
  Forall arrives (incoming w) ->
  (forall t, drain_fault (env w) t = None) ->
  sink_accepts (env w) (VCallable c) ->
  fst (server_callback srv w) = Ok tt
  /\ written (trace (snd (server_callback srv w))) = written (trace w) ++ received (incoming w)
  /\ closed (trace (snd (server_callback srv w))) = true.
Proof.
  intros Hstart Hhttp Hbanner Hecho Hpeer Hok Hdrain Hsink.
  apply start_listener_server in Hstart
    as (port & name & handler & _ & Hname & Hselect & ->).
  cbn [server_callback].
  cbn [py_get] in Hname. injection Hname as <-.
  unfold select_handler in Hselect. rewrite Hhttp, Hbanner in Hselect.
  cbn [py_get] in Hselect. rewrite Hecho in Hselect. injection Hselect as <-.
  rewrite (client_connected_address _ _ _ _ _ _ _ _ Hpeer).
  unfold try_except.
  rewrite (generic_h_outcome (VDict d) port true _ w
             (dict_get d "service" (VStr (lit "tcp_" ++ py_str port))) eq_refl).
  match goal with |- context [generic_tcp_handler ?ctx true w] =>
    destruct (generic_tcp_handler_session ctx true w peer_host peer_port more Hpeer Hok Hdrain)
      as (w' & tail & -> & Htrace & _ & Hwritten)
  end.
  { assert (Hlogger : forall s,
              dict_get (<["service" := s]> (accepted_ctx (VCallable c) peer_host peer_port))
                "logger" VNone = VCallable c)
      by (intros s; unfold accepted_ctx, dict_get; by simplify_map_eq).
    rewrite Hlogger. exact Hsink. }
  cbn [fst snd]. rewrite Htrace.
  change (EvClose :: tail) with ([EvClose] ++ tail).
  rewrite !written_app, !closed_app, Hwritten.
  rewrite generic_session_written by exact Hok.
  split; [reflexivity|]. split.
  - cbn [written omap list_omap app]. rewrite !app_nil_r. reflexivity.
  - cbn [closed existsb orb]. rewrite !orb_true_r. reflexivity.
Qed.

Lemma echo_listener_returns_what_it_receives_witness :
  let d : gmap string pyval :=
    {[ "port" := VInt 7; "handler" := VStr (lit "echo"); "echo" := VStr (lit "no") ]} in
  let w0 := Scenario.connection Scenario.calm VNone [] in
  let w := Scenario.connection Scenario.calm Scenario.peer Scenario.ping in
  let srv := Server (VStr (lit "0.0.0.0")) (VInt 7)
               (client_connected Scenario.sink (VInt 7) (VStr (lit "echo"))
                  (generic_h (VDict d) (VInt 7) true)) in
  fst (server_callback srv w) = Ok tt
  /\ written (trace (snd (server_callback srv w))) = written (trace w) ++ received (incoming w)
  /\ closed (trace (snd (server_callback srv w))) = true.
Proof.
  intros d w0 w srv.
  apply (echo_listener_returns_what_it_receives d (VStr (lit "0.0.0.0")) (external 0) w0 srv
           (with_trace [EvListen (VStr (lit "0.0.0.0")) (VInt 7);
                        EvPrint (lit "[+] Listening on ('0.0.0.0', 0) (handler=echo)")] w0)
           w (VStr (lit "203.0.113.9")) (VInt 40000) []).
  - reflexivity.
  - reflexivity.
  - reflexivity.
  - reflexivity.
  - reflexivity.
  - repeat constructor.
  - reflexivity.
  - apply calm_accepts.
Defined.
